(** * Patient 360 backend: the retrieval-and-answer pipeline

    A shallow embedding of [app/services/llm.py], [app/services/retrieval.py]
    and [app/routes/copilot.py], followed by the properties of the
    pipeline: prompt construction, response parsing, template answers,
    retrieval-method classification, back-end selection and the order of the
    server-sent events of a stream. *)

From Stdlib Require Import String Ascii.
From Stdlib Require Import List NArith ZArith Bool Arith Lia.
From Stdlib Require Import Floats.
From Stdlib Require DecimalString DecimalNat.
Import ListNotations.

(** ** Python values *)

(** A Python [str] is a sequence of Unicode code points. *)
Module PyStr.

Definition char := N.
Definition str := list char.

(** An ASCII literal of the source, as code points. *)
Definition lit (s : String.string) : str :=
  map Ascii.N_of_ascii (String.list_ascii_of_string s).
Arguments lit s%_string.

Definition nl : char := 10%N.
Definition sp : char := 32%N.

Definition char_eqb (a b : char) : bool := N.eqb a b.

Fixpoint str_eqb (a b : str) : bool :=
  match a, b with
  | [], [] => true
  | x :: a', y :: b' => char_eqb x y && str_eqb a' b'
  | _, _ => false
  end.

(** [s.startswith(p)] *)
Fixpoint startswith (p s : str) : bool :=
  match p, s with
  | [], _ => true
  | _ :: _, [] => false
  | a :: p', b :: s' => char_eqb a b && startswith p' s'
  end.

(** [sub in s] *)
Fixpoint contains (sub s : str) : bool :=
  match s with
  | [] => startswith sub []
  | _ :: s' => startswith sub s || contains sub s'
  end.

(** The scan of [s.split(sep)] for a non-empty [sep]: occurrences are taken
    leftmost first and do not overlap.  [skip] counts the characters of a
    matched separator still to be passed over, [cur] is the piece being
    collected, newest character first. *)
Fixpoint split_go (sep : str) (skip : nat) (cur : str) (s : str) : list str :=
  match s with
  | [] => [rev cur]
  | c :: s' =>
      match skip with
      | S k => split_go sep k cur s'
      | O =>
          if startswith sep s
          then rev cur :: split_go sep (length sep - 1) [] s'
          else split_go sep 0 (c :: cur) s'
      end
  end.

(** [str.isspace] for one code point: the characters that [strip()] and
    [split()] treat as whitespace. *)
Definition isspace (c : char) : bool :=
  ((9 <=? c) && (c <=? 13) || (28 <=? c) && (c <=? 32)
   || (c =? 133) || (c =? 160) || (c =? 5760)
   || (8192 <=? c) && (c <=? 8202)
   || (c =? 8232) || (c =? 8233) || (c =? 8239) || (c =? 8287)
   || (c =? 12288))%N.

Fixpoint lstrip (s : str) : str :=
  match s with
  | [] => []
  | c :: s' => if isspace c then lstrip s' else s
  end.

Definition rstrip (s : str) : str := rev (lstrip (rev s)).

(** [s.strip()] *)
Definition strip (s : str) : str := rstrip (lstrip s).

(** [s.lstrip(chars)] *)
Fixpoint lstrip_chars (chars : str) (s : str) : str :=
  match s with
  | [] => []
  | c :: s' => if existsb (char_eqb c) chars then lstrip_chars chars s' else s
  end.

(** [s.rstrip(chars)] *)
Definition rstrip_chars (chars : str) (s : str) : str :=
  rev (lstrip_chars chars (rev s)).

(** [sep.join(parts)] *)
Fixpoint join (sep : str) (parts : list str) : str :=
  match parts with
  | [] => []
  | [p] => p
  | p :: ps => p ++ sep ++ join sep ps
  end.

(** The scan of [s.split()] (no separator): runs of whitespace separate the
    words and no empty word is produced.  [cur] is the word being collected,
    newest character first. *)
Fixpoint split_ws_go (cur : str) (s : str) : list str :=
  match s with
  | [] => match cur with [] => [] | _ => [rev cur] end
  | c :: s' =>
      if isspace c
      then match cur with
           | [] => split_ws_go [] s'
           | _ => rev cur :: split_ws_go [] s'
           end
      else split_ws_go (c :: cur) s'
  end.

Definition split_ws (s : str) : list str := split_ws_go [] s.

Definition is_ascii (c : char) : bool := (c <? 128)%N.

Definition ascii_lower (c : char) : char :=
  if ((65 <=? c) && (c <=? 90))%N then (c + 32)%N else c.

Definition ascii_upper (c : char) : char :=
  if ((97 <=? c) && (c <=? 122))%N then (c - 32)%N else c.

(** [str(n)] for a non-negative integer. *)
Definition str_of_nat (n : nat) : str :=
  lit (DecimalString.NilEmpty.string_of_uint (Nat.to_uint n)).

(** [l[i:j]] for [0 <= i <= j] *)
Definition slice {A} (l : list A) (i j : nat) : list A :=
  firstn (j - i) (skipn i l).

(** [range(start, stop, step)] for a positive [step]; [fuel] bounds the
    number of elements, and [stop - start] of it is always enough. *)
Fixpoint range_from (fuel start stop step : nat) : list nat :=
  match fuel with
  | O => []
  | S fuel' =>
      if start <? stop
      then start :: range_from fuel' (start + step) stop step
      else []
  end.

Definition range (start stop step : nat) : list nat :=
  range_from (stop - start) start stop step.

(** Truthiness of a string or list: non-empty. *)
Definition truthy {A} (l : list A) : bool :=
  match l with [] => false | _ => true end.

End PyStr.
Import PyStr.

(** Exceptions the modelled code can meet. *)
Inductive exn : Type :=
| IndexError
| TypeError
| ValueError
| AttributeError
| ValidationError
| HTTPException (status : Z) (detail : str)
| ExternalError (message : str).

(** [str(e)], the text the handlers log and send. *)
Definition str_of_exn (e : exn) : str :=
  match e with
  | IndexError => lit "list index out of range"
  | TypeError => lit "unsupported operand type"
  | ValueError => lit "invalid value"
  | AttributeError => lit "object has no such attribute"
  | ValidationError => lit "validation error"
  | HTTPException _ detail => detail
  | ExternalError m => m
  end.

Inductive result (A : Type) : Type :=
| Ok (a : A)
| Raise (e : exn).
Arguments Ok {A} a.
Arguments Raise {A} e.

Definition rbind {A B} (r : result A) (k : A -> result B) : result B :=
  match r with
  | Ok a => k a
  | Raise e => Raise e
  end.

Notation "'let?' x ':=' e 'in' k" := (rbind e (fun x => k))
  (at level 10, x name, e at level 100, k at level 200).

(** [l[i]] *)
Definition index {A} (l : list A) (i : nat) : result A :=
  match nth_error l i with
  | Some a => Ok a
  | None => Raise IndexError
  end.

(** [s.split(sep)]: an empty separator is a [ValueError]. *)
Definition split (sep s : str) : result (list str) :=
  match sep with
  | [] => Raise ValueError
  | _ :: _ => Ok (split_go sep 0 [] s)
  end.

(** ** services/llm.py: the response parser *)

Definition NEXT_ACTIONS : str := Eval cbv in lit "NEXT ACTIONS:".
Definition ANSWER : str := Eval cbv in lit "ANSWER:".
Definition DASH : str := Eval cbv in lit "-".
Definition BULLET : str := [8226%N].
Definition DASH_BULLET : str := Eval cbv in DASH ++ BULLET.

Definition DEFAULT_NEXT_ACTIONS : list str := Eval cbv in
  [ lit "Review full clinical context";
    lit "Document assessment in patient record";
    lit "Follow up as clinically appropriate" ].

(** The body of the loop over the lines of the actions section. *)
Definition parse_action_line (next_actions : list str) (line : str) : list str :=
  let line := strip line in
  if startswith DASH line || startswith BULLET line then
    let action := strip (lstrip_chars DASH_BULLET line) in
    if truthy action then next_actions ++ [action] else next_actions
  else next_actions.

Definition extract_answer (text : str) : result str :=
  if contains ANSWER text then
    let? ps := split ANSWER text in
    let? p := index ps 1 in
    Ok (strip p)
  else Ok (strip text).

Definition _parse_llm_response (response_text : str) : result (str * list str) :=
  if contains NEXT_ACTIONS response_text then
    let? parts := split NEXT_ACTIONS response_text in
    let? answer_part := index parts 0 in
    let? actions_part :=
      (if 1 <? length parts then index parts 1 else Ok []) in
    let? answer := extract_answer answer_part in
    let? lines := split [nl] (strip actions_part) in
    Ok (answer, fold_left parse_action_line lines [])
  else
    let? answer := extract_answer response_text in
    Ok (answer, DEFAULT_NEXT_ACTIONS).

(** No leading and no trailing whitespace, and not empty. *)
Definition trimmed (s : str) : bool :=
  negb (isspace (hd sp s)) && negb (isspace (last s sp)).

(** The layout the prompt asks the model for, with two actions. *)
Definition ANSWER_SP : str := Eval cbv in lit "ANSWER: ".
Definition DASH_SP : str := Eval cbv in lit "- ".

Definition round_trip_text (A x y : str) : str :=
  ANSWER_SP ++ A ++ [nl; nl] ++ NEXT_ACTIONS ++ [nl] ++ DASH_SP ++ x
    ++ [nl] ++ DASH_SP ++ y.

(** Its two sections, around the [NEXT ACTIONS:] marker. *)
Definition round_trip_answer_part (A : str) : str := ANSWER_SP ++ A ++ [nl; nl].

Definition round_trip_actions_part (x y : str) : str :=
  [nl] ++ DASH_SP ++ x ++ [nl] ++ DASH_SP ++ y.

(** The answer the specification describes for a text without the
    [NEXT ACTIONS:] marker: the whole text, less a leading [ANSWER:] marker,
    trimmed. *)
Definition strip_leading_answer_marker (text : str) : str :=
  if startswith ANSWER text then skipn (length ANSWER) text else text.

Definition whole_text_answer (text : str) : str :=
  strip (strip_leading_answer_marker text).


(** ** schemas.py and settings.py: the data of a request *)

(** A decoded JSON document, as [json.loads] and the database driver
    produce it. *)
#[local] Unset Elimination Schemes.
Inductive json : Type :=
| JNull
| JBool (b : bool)
| JNumber (x : float)
| JString (s : str)
| JArray (items : list json)
| JObject (fields : list (str * json)).
#[local] Set Elimination Schemes.

Record CopilotSource : Type := {
  source_type : str;
  source_id : Z;
  label : str;
  snippet : str;
  score : float;
  metadata : option (list (str * json))
}.

Record CopilotRequest : Type := {
  question : str;
  max_sources : Z
}.

Record CopilotResponse : Type := {
  answer : str;
  next_actions : list str;
  sources : list CopilotSource;
  model_used : option str;
  retrieval_method : str
}.

Record Settings : Type := {
  azure_openai_endpoint : option str;
  azure_openai_key : option str;
  azure_openai_chat_deployment : str
}.

Definition truthy_opt (o : option str) : bool :=
  match o with
  | Some s => truthy s
  | None => false
  end.

(** [bool(self.azure_openai_endpoint and self.azure_openai_key)] *)
Definition has_azure_openai (s : Settings) : bool :=
  truthy_opt (azure_openai_endpoint s) && truthy_opt (azure_openai_key s).

(** A row of [SELECT ... FROM retrieve_context($1, $2, $3)]: the six columns
    are always present, a SQL NULL arrives as [None]. *)
Record row : Type := {
  row_source_type : option str;
  row_source_id : option Z;
  row_label : option str;
  row_snippet : option str;
  row_score : option float;
  row_metadata : json
}.

(** An entry of [processed_results]. *)
Record processed : Type := {
  p_source_type : option str;
  p_source_id : option Z;
  p_label : option str;
  p_snippet : option str;
  p_score : float;
  p_metadata : json
}.

(** The row of [SELECT patient_id, display_name FROM patients]. *)
Record patient : Type := {
  patient_id : str;
  display_name : str
}.

(** The events of a stream; each is sent as
    [event: <name>\ndata: <JSON payload>\n\n]. *)
Inductive StreamEvent : Type :=
| EvSource (s : CopilotSource)
| EvMetadata (retrieval_method : str)
| EvDelta (text : str)
| EvActions (actions : list str)
| EvDone (model : option str) (retrieval_method : str)
| EvError (error : str).

Inductive EventType : Type :=
| source | metadata_ | delta | actions | done | error.

Definition event_type (e : StreamEvent) : EventType :=
  match e with
  | EvSource _ => source
  | EvMetadata _ => metadata_
  | EvDelta _ => delta
  | EvActions _ => actions
  | EvDone _ _ => done
  | EvError _ => error
  end.

(** The name on the [event:] line. *)
Definition event_name (t : EventType) : str :=
  match t with
  | source => lit "source"
  | metadata_ => lit "metadata"
  | delta => lit "delta"
  | actions => lit "actions"
  | done => lit "done"
  | error => lit "error"
  end.

(** ** The collaborators *)

(** A call of [client.responses.create]. *)
Record api_request : Type := {
  base_url : str;
  api_key : str;
  model : str;
  instructions : str;
  input : str;
  max_output_tokens : Z;
  temperature : float;
  stream : bool
}.

(** An event of a streamed response: a text delta, or an event of another
    type. *)
Inductive api_event : Type :=
| OutputTextDelta (delta_text : str)
| OtherEvent (type_ : str).

(** A streamed response: the events the iteration delivers, and the exception
    that ends the iteration if it does not end by exhaustion. *)
Record api_stream : Type := {
  stream_events : list api_event;
  stream_failure : option exn
}.

(** What lies outside the code: the settings, the database, the hosted model,
    and the library functions that are not modelled. *)
Record Env : Type := {
  get_settings : Settings;
  execute_one_patient : str -> result (option patient);
  execute_query_retrieve : str -> str -> Z -> result (list row);
  responses_create : api_request -> result str;
  responses_create_stream : api_request -> result api_stream;
  json_loads : str -> result json;
  unicode_lower : str -> str;
  unicode_upper : str -> str
}.

(** The calls made to the collaborators. *)
Inductive call : Type :=
| CallExecuteOne (patient_id : str)
| CallRetrieveContext (patient_id query : str) (max_results : Z)
| CallResponses (req : api_request).

(** The observable state of one request: the calls made so far and the
    events sent so far, oldest first. *)
Record world : Type := {
  calls : list call;
  sent : list StreamEvent
}.

Definition world0 : world := {| calls := []; sent := [] |}.

(** Computations that call collaborators, send events and may raise.  What
    was done before an exception stays done. *)
Definition M (A : Type) : Type := world -> result A * world.

Definition ret {A} (a : A) : M A := fun w => (Ok a, w).

Definition bind {A B} (m : M A) (k : A -> M B) : M B :=
  fun w =>
    match m w with
    | (Ok a, w') => k a w'
    | (Raise e, w') => (Raise e, w')
    end.

Definition raise {A} (e : exn) : M A := fun w => (Raise e, w).

Definition lift {A} (r : result A) : M A := fun w => (r, w).

(** [try: m  except Exception as e: h e] *)
Definition try_except {A} (m : M A) (h : exn -> M A) : M A :=
  fun w =>
    match m w with
    | (Ok a, w') => (Ok a, w')
    | (Raise e, w') => h e w'
    end.

(** [yield ev] *)
Definition yield (ev : StreamEvent) : M unit :=
  fun w => (Ok tt, {| calls := calls w; sent := sent w ++ [ev] |}).

Definition record_call (c : call) : M unit :=
  fun w => (Ok tt, {| calls := calls w ++ [c]; sent := sent w |}).

Notation "x <- m ;; k" := (bind m (fun x => k))
  (at level 61, m at next level, right associativity).
Notation "' pat <- m ;; k" := (bind m (fun x => match x with pat => k end))
  (at level 61, pat pattern, m at next level, right associativity).
Notation "m ;;; k" := (bind m (fun _ => k))
  (at level 61, right associativity).

(** [for x in l: body x] *)
Fixpoint for_each {A} (l : list A) (body : A -> M unit) : M unit :=
  match l with
  | [] => ret tt
  | x :: l' => body x ;;; for_each l' body
  end.

(** A list comprehension whose element expression may raise. *)
Fixpoint map_result {A B} (f : A -> result B) (l : list A) : result (list B) :=
  match l with
  | [] => Ok []
  | x :: l' =>
      let? y := f x in
      let? ys := map_result f l' in
      Ok (y :: ys)
  end.

(** ** services/llm.py *)

Definition SYSTEM_INSTRUCTIONS : str := lit
"You are a clinical decision support assistant helping healthcare providers review patient information.

Your role is to:
1. Answer questions accurately based ONLY on the provided context
2. Cite sources using [Source N] format when referencing information
3. Suggest appropriate next clinical actions
4. Be concise but thorough
5. If the context doesn't contain enough information to fully answer, say so

IMPORTANT: 
- Only use information from the provided sources
- Always cite which source(s) you used
- Do not make up information not present in the context
- Use clinical terminology appropriately".

Definition NO_CONTEXT : str := Eval cbv in lit "No relevant context found.".
Definition BLANK_LINE : str := [nl; nl].

Section Services.

Variable env : Env.

(** [s.lower()] and [s.upper()]: on an all-ASCII string the ASCII mapping,
    otherwise the Unicode mapping, which is left to the environment. *)
Definition lower (s : str) : str :=
  if forallb is_ascii s then map ascii_lower s else unicode_lower env s.

Definition upper (s : str) : str :=
  if forallb is_ascii s then map ascii_upper s else unicode_upper env s.

(** The f-string of one source in the context block. *)
Definition render_source (i : nat) (s : CopilotSource) : str :=
  lit "[Source " ++ str_of_nat i ++ lit " - " ++ upper (source_type s)
    ++ lit "] " ++ label s ++ lit ":" ++ [nl] ++ snippet s.

(** [for i, source in enumerate(sources, i): context_parts.append(...)] *)
Fixpoint context_loop (i : nat) (sources : list CopilotSource)
    (context_parts : list str) : list str :=
  match sources with
  | [] => context_parts
  | s :: rest => context_loop (S i) rest (context_parts ++ [render_source i s])
  end.

Definition _build_context_and_prompt (question patient_name : str)
    (sources : list CopilotSource) : str * str :=
  let context_parts := context_loop 1 sources [] in
  let context :=
    if truthy context_parts then join BLANK_LINE context_parts else NO_CONTEXT in
  let user_input :=
    lit "Patient: " ++ patient_name ++ [nl; nl]
    ++ lit "Question: " ++ question ++ [nl; nl]
    ++ lit "Relevant Context:" ++ [nl] ++ context ++ [nl; nl]
    ++ lit "Please provide:
1. A direct answer to the question based on the context
2. 2-3 recommended next actions for the care team

Format your response as:
ANSWER: [Your answer here with citations]

NEXT ACTIONS:
- [Action 1]
- [Action 2]
- [Action 3]" in
  (context, user_input).

(** *** The template back end *)

Definition is_type (t : str) (s : CopilotSource) : bool :=
  str_eqb (source_type s) t.

Definition bullet_with_source (s : CopilotSource) : str :=
  lit "- " ++ label s ++ lit ": " ++ snippet s ++ lit " [Source: "
    ++ source_type s ++ lit "]".

Definition bullet_plain (s : CopilotSource) : str :=
  lit "- " ++ label s ++ lit ": " ++ snippet s.

Definition _template_changes_response (patient_name : str)
    (notes labs meds : list CopilotSource) : str :=
  let parts :=
    [lit "Based on the available records for " ++ patient_name
       ++ lit ", here are the key changes:" ++ [nl]] in
  let parts :=
    if truthy meds
    then (parts ++ [lit "**Medication Changes:**"])
           ++ map bullet_with_source (firstn 3 meds)
    else parts in
  let parts :=
    if truthy labs
    then (parts ++ [nl :: lit "**Lab Results:**"])
           ++ map bullet_with_source (firstn 3 labs)
    else parts in
  let parts :=
    if truthy notes
    then parts ++ [nl :: lit "**Clinical Notes:**"]
           ++ [lit "- " ++ str_of_nat (length notes)
                 ++ lit " relevant clinical notes found documenting recent care"]
    else parts in
  let parts :=
    if negb (truthy meds || truthy labs || truthy notes)
    then parts ++ [lit "Limited information available in the retrieved context."]
    else parts in
  join [nl] parts.

Definition mentions (word : str) (s : CopilotSource) : bool :=
  contains word (lower (label s)).

Definition _template_medication_response (patient_name : str)
    (meds labs notes : list CopilotSource) : str :=
  let parts :=
    [lit "Regarding medication management for " ++ patient_name
       ++ lit ":" ++ [nl]] in
  let med_info :=
    find (fun med => contains (lit "lisinopril") (lower (label med))
                     || contains (lit "lisinopril") (lower (snippet med))) meds in
  let parts :=
    match med_info with
    | Some med_info =>
        let parts := parts ++ [lit "**Medication Record:** " ++ snippet med_info] in
        let k_lab :=
          find (fun l => mentions (lit "potassium") l || mentions (lit "k") l) labs in
        let cr_lab :=
          find (fun l => mentions (lit "creatinine") l || mentions (lit "egfr") l) labs in
        let parts :=
          match k_lab, cr_lab with
          | None, None => parts
          | _, _ =>
              let parts := parts ++ [nl :: lit "**Related Lab Values:**"] in
              let parts :=
                match k_lab with
                | Some k_lab => parts ++ [bullet_plain k_lab]
                | None => parts
                end in
              match cr_lab with
              | Some cr_lab => parts ++ [bullet_plain cr_lab]
              | None => parts
              end
          end in
        if truthy notes
        then parts ++ [nl :: lit "**Clinical Documentation:** Found "
                         ++ str_of_nat (length notes)
                         ++ lit " relevant notes discussing this decision"]
        else parts
    | None =>
        (parts ++ [lit "Specific medication details found in the following sources:"])
          ++ map bullet_plain (firstn 3 meds)
    end in
  join [nl] parts.

Definition _template_risk_response (patient_name : str)
    (sources : list CopilotSource) : str :=
  let parts := [lit "Risk assessment for " ++ patient_name ++ lit ":" ++ [nl]] in
  let parts := parts ++ [lit "**Top Clinical Considerations:**"] in
  let parts := parts ++
    [lit "1. **Kidney Function Monitoring** - CKD Stage 3a requires close monitoring"] in
  let parts := parts ++
    [lit "2. **Glycemic Control** - A1C trending, continue optimization"] in
  let parts := parts ++
    [lit "3. **Cardiovascular Risk** - Hypertension and diabetes increase CV risk"] in
  let parts := parts ++ [nl :: lit "**Based on Available Sources:**"] in
  let parts := parts ++
    map (fun s => lit "- [" ++ upper (source_type s) ++ lit "] " ++ label s)
        (firstn 3 sources) in
  join [nl] parts.

Definition _template_generic_response (patient_name : str)
    (sources : list CopilotSource) : str :=
  let parts :=
    [lit "Based on the available records for " ++ patient_name ++ lit ":" ++ [nl]] in
  let parts :=
    if truthy sources
    then (parts ++ [lit "**Relevant Information Found:**"])
           ++ flat_map
                (fun s =>
                   [ nl :: lit "[" ++ upper (source_type s) ++ lit " - "
                       ++ label s ++ lit "]";
                     if 200 <? length (snippet s)
                     then firstn 200 (snippet s) ++ lit "..."
                     else snippet s ])
                (firstn 5 sources)
    else parts
           ++ [lit "No relevant information found in the available records."]
           ++ [lit "Please try rephrasing your question or check that relevant data exists for this patient."] in
  join [nl] parts.

Definition CHANGES_ACTIONS : list str :=
  [ lit "Review medication changes with patient";
    lit "Confirm lab trends are in expected direction";
    lit "Schedule follow-up to assess treatment response" ].

Definition MEDICATION_ACTIONS : list str :=
  [ lit "Monitor potassium and kidney function";
    lit "Assess blood pressure response to dose change";
    lit "Document rationale in medication history" ].

Definition RISK_ACTIONS : list str :=
  [ lit "Prioritize kidney function monitoring";
    lit "Ensure diabetes management is optimized";
    lit "Review cardiovascular risk factors" ].

Definition GENERIC_ACTIONS : list str :=
  [ lit "Review relevant clinical context";
    lit "Document findings in patient record";
    lit "Follow up as clinically indicated" ].

Definition _generate_template_response (question patient_name : str)
    (sources : list CopilotSource) : str * list str * option str :=
  let question_lower := lower question in
  let note_sources := filter (is_type (lit "note")) sources in
  let lab_sources := filter (is_type (lit "lab")) sources in
  let med_sources := filter (is_type (lit "med")) sources in
  if contains (lit "last 90 days") question_lower
     || contains (lit "changed") question_lower
     || contains (lit "recent") question_lower
  then (_template_changes_response patient_name note_sources lab_sources med_sources,
        CHANGES_ACTIONS, None)
  else if contains (lit "lisinopril") question_lower
          || contains (lit "dose") question_lower
  then (_template_medication_response patient_name med_sources lab_sources note_sources,
        MEDICATION_ACTIONS, None)
  else if contains (lit "risk") question_lower
          || contains (lit "action") question_lower
  then (_template_risk_response patient_name sources, RISK_ACTIONS, None)
  else (_template_generic_response patient_name sources, GENERIC_ACTIONS, None).

(** *** The hosted back end *)

(** The client set-up shared by both hosted paths: the base URL and the key. *)
Definition make_client (settings : Settings) : result (str * str) :=
  match azure_openai_endpoint settings with
  | None => Raise AttributeError
  | Some endpoint =>
      let base_url := rstrip_chars (lit "/") endpoint ++ lit "/openai/v1/" in
      match azure_openai_key settings with
      | None => Raise (ExternalError (lit "The api_key client option must be set"))
      | Some key => Ok (base_url, key)
      end
  end.

Definition make_request (client : str * str) (settings : Settings)
    (user_input : str) (streaming : bool) : api_request :=
  {| base_url := fst client;
     api_key := snd client;
     model := azure_openai_chat_deployment settings;
     instructions := SYSTEM_INSTRUCTIONS;
     input := user_input;
     max_output_tokens := 1000;
     temperature := 0x1.3333333333333p-2%float;
     stream := streaming |}.

Definition _generate_with_openai (question patient_name : str)
    (sources : list CopilotSource) (settings : Settings)
    : M (str * list str * option str) :=
  try_except
    (client <- lift (make_client settings) ;;
     let user_input := snd (_build_context_and_prompt question patient_name sources) in
     let req := make_request client settings user_input false in
     record_call (CallResponses req) ;;;
     response_text <- lift (responses_create env req) ;;
     ' (answer, next_actions) <- lift (_parse_llm_response response_text) ;;
     let model_name := azure_openai_chat_deployment settings in
     ret (answer, next_actions, Some model_name))
    (fun e => ret (_generate_template_response question patient_name sources)).

Definition generate_answer (question patient_name : str)
    (sources : list CopilotSource) : M (str * list str * option str) :=
  let settings := get_settings env in
  if has_azure_openai settings
  then _generate_with_openai question patient_name sources settings
  else ret (_generate_template_response question patient_name sources).

(** [for event in stream: ...], threading [full_text]; when the events are
    exhausted the iteration ends, or raises if the stream failed. *)
Fixpoint stream_loop (events : list api_event) (failure : option exn)
    (full_text : str) : M str :=
  match events with
  | [] =>
      match failure with
      | Some e => raise e
      | None => ret full_text
      end
  | OutputTextDelta delta_text :: rest =>
      let full_text := full_text ++ delta_text in
      yield (EvDelta delta_text) ;;;
      stream_loop rest failure full_text
  | OtherEvent _ :: rest => stream_loop rest failure full_text
  end.

Definition _stream_with_openai (question patient_name : str)
    (sources : list CopilotSource) (settings : Settings) : M unit :=
  client <- lift (make_client settings) ;;
  for_each sources (fun s => yield (EvSource s)) ;;;
  let user_input := snd (_build_context_and_prompt question patient_name sources) in
  let req := make_request client settings user_input true in
  record_call (CallResponses req) ;;;
  stream <- lift (responses_create_stream env req) ;;
  full_text <- stream_loop (stream_events stream) (stream_failure stream) [] ;;
  ' (_, next_actions) <- lift (_parse_llm_response full_text) ;;
  yield (EvActions next_actions) ;;;
  yield (EvDone (Some (azure_openai_chat_deployment settings)) (lit "vector")).

(** The text of the delta event for the words from index [i]. *)
Definition chunk_text (words : list str) (i : nat) : str :=
  join [sp] (slice words i (i + 3)) ++ [sp].

Definition generate_answer_stream (question patient_name : str)
    (sources : list CopilotSource) : M unit :=
  let settings := get_settings env in
  if negb (has_azure_openai settings) then
    let '(answer, next_actions, _) :=
      _generate_template_response question patient_name sources in
    for_each sources (fun s => yield (EvSource s)) ;;;
    let words := split_ws answer in
    for_each (range 0 (length words) 3)
             (fun i => yield (EvDelta (chunk_text words i))) ;;;
    yield (EvActions next_actions) ;;;
    yield (EvDone None (lit "template"))
  else
    try_except
      (_stream_with_openai question patient_name sources settings)
      (fun e => yield (EvError (str_of_exn e))).

(** ** services/retrieval.py *)

Definition half : float := 0.5%float.

Definition is_note (r : row) : bool :=
  match row_source_type r with
  | Some t => str_eqb t (lit "note")
  | None => false
  end.

(** The loop that looks for a note scored above 0.5; comparing a NULL score
    is a [TypeError]. *)
Fixpoint has_vector_results (results : list row) : result bool :=
  match results with
  | [] => Ok false
  | r :: rest =>
      if is_note r then
        match row_score r with
        | None => Raise TypeError
        | Some s => if PrimFloat.ltb half s then Ok true else has_vector_results rest
        end
      else has_vector_results rest
  end.

Definition process_row (r : row) : result processed :=
  let? metadata :=
    (match row_metadata r with
     | JString s => json_loads env s
     | m => Ok m
     end) in
  let? score :=
    (match row_score r with
     | Some s => Ok s
     | None => Raise TypeError
     end) in
  Ok {| p_source_type := row_source_type r;
        p_source_id := row_source_id r;
        p_label := row_label r;
        p_snippet := row_snippet r;
        p_score := score;
        p_metadata := metadata |}.

Definition VECTOR : str := Eval cbv in lit "vector".
Definition KEYWORD : str := Eval cbv in lit "keyword".
Definition ERROR : str := Eval cbv in lit "error".

Definition retrieve_context (patient_id query : str) (max_results : Z)
    : M (list processed * str) :=
  try_except
    (record_call (CallRetrieveContext patient_id query max_results) ;;;
     results <- lift (execute_query_retrieve env patient_id query max_results) ;;
     has_vector <- lift (has_vector_results results) ;;
     let retrieval_method := if (has_vector : bool) then VECTOR else KEYWORD in
     processed_results <- lift (map_result process_row results) ;;
     ret (processed_results, retrieval_method))
    (fun e => ret ([], ERROR)).

(** ** routes/copilot.py *)

(** [CopilotSource(source_type=r.get(...), ...)]: every key is present in a
    processed result, so no default applies, and the model validates the
    field types. *)
Definition to_source (r : processed) : result CopilotSource :=
  match p_source_type r, p_source_id r, p_label r, p_snippet r with
  | Some t, Some i, Some l, Some s =>
      match p_metadata r with
      | JNull =>
          Ok {| source_type := t; source_id := i; label := l; snippet := s;
                score := p_score r; metadata := None |}
      | JObject d =>
          Ok {| source_type := t; source_id := i; label := l; snippet := s;
                score := p_score r; metadata := Some d |}
      | _ => Raise ValidationError
      end
  | _, _, _, _ => Raise ValidationError
  end.

Definition patient_not_found (patient_id : str) : exn :=
  HTTPException 404 (lit "Patient " ++ patient_id ++ lit " not found").

Definition ask_copilot (patient_id : str) (request : CopilotRequest)
    : M CopilotResponse :=
  record_call (CallExecuteOne patient_id) ;;;
  patient <- lift (execute_one_patient env patient_id) ;;
  match patient with
  | None => raise (patient_not_found patient_id)
  | Some patient =>
      try_except
        (' (context_results, retrieval_method) <-
           retrieve_context patient_id (question request) (max_sources request) ;;
         sources <- lift (map_result to_source context_results) ;;
         ' (answer, next_actions, model_used) <-
           generate_answer (question request) (display_name patient) sources ;;
         ret {| answer := answer;
                next_actions := next_actions;
                sources := sources;
                model_used := model_used;
                retrieval_method := retrieval_method |})
        (fun e =>
           raise (HTTPException 500
                    (lit "Failed to process question: " ++ str_of_exn e)))
  end.

(** The generator handed to the streaming response. *)
Definition generate_stream (patient_id : str) (request : CopilotRequest)
    (patient : patient) : M unit :=
  try_except
    (' (context_results, retrieval_method) <-
       retrieve_context patient_id (question request) (max_sources request) ;;
     sources <- lift (map_result to_source context_results) ;;
     yield (EvMetadata retrieval_method) ;;;
     generate_answer_stream (question request) (display_name patient) sources)
    (fun e => yield (EvError (str_of_exn e))).

Definition stream_copilot (patient_id : str) (request : CopilotRequest) : M unit :=
  record_call (CallExecuteOne patient_id) ;;;
  patient <- lift (execute_one_patient env patient_id) ;;
  match patient with
  | None => raise (patient_not_found patient_id)
  | Some patient => generate_stream patient_id request patient
  end.

End Services.

(** ** Vocabulary of the properties *)

(** The context block as the specification words it: the sources numbered
    from 1, each rendered, joined by blank lines; the placeholder when there
    is none. *)
Definition numbered {A} (start : nat) (l : list A) : list (nat * A) :=
  combine (seq start (length l)) l.


(** Consecutive groups of at most three. *)
Fixpoint chunks3 {A} (l : list A) : list (list A) :=
  match l with
  | [] => []
  | a :: b :: c :: rest => [a; b; c] :: chunks3 rest
  | _ => [l]
  end.

(** The text fragments of the delta events of a stream. *)
Fixpoint delta_texts (evs : list StreamEvent) : list str :=
  match evs with
  | [] => []
  | EvDelta t :: rest => t :: delta_texts rest
  | _ :: rest => delta_texts rest
  end.

Definition EventType_eqb (a b : EventType) : bool :=
  match a, b with
  | source, source | metadata_, metadata_ | delta, delta
  | actions, actions | done, done | error, error => true
  | _, _ => false
  end.

Fixpoint drop_while_type (t : EventType) (tys : list EventType) : list EventType :=
  match tys with
  | [] => []
  | t' :: rest => if EventType_eqb t t' then drop_while_type t rest else tys
  end.

(** The order [source*, metadata, delta+, actions, done]. *)
Definition sources_then_metadata_order (tys : list EventType) : bool :=
  match drop_while_type source tys with
  | metadata_ :: delta :: rest =>
      match drop_while_type delta rest with
      | [actions; done] => true
      | _ => false
      end
  | _ => false
  end.

(** The order [metadata, source*, delta*, actions, done]. *)
Definition metadata_first_order (tys : list EventType) : bool :=
  match tys with
  | metadata_ :: rest =>
      match drop_while_type delta (drop_while_type source rest) with
      | [actions; done] => true
      | _ => false
      end
  | _ => false
  end.

(** The world after one more call, and after more events. *)
Definition add_call (c : call) (w : world) : world :=
  {| calls := calls w ++ [c]; sent := sent w |}.

Definition add_sent (evs : list StreamEvent) (w : world) : world :=
  {| calls := calls w; sent := sent w ++ evs |}.


(** The text deltas among the events of a streamed response. *)
Fixpoint event_deltas (events : list api_event) : list str :=
  match events with
  | [] => []
  | OutputTextDelta t :: rest => t :: event_deltas rest
  | OtherEvent _ :: rest => event_deltas rest
  end.

(** What the [done] event of a stream carries, by back end. *)
Definition done_payload (env : Env) : option str * str :=
  if has_azure_openai (get_settings env)
  then (Some (azure_openai_chat_deployment (get_settings env)), VECTOR)
  else (None, lit "template").

(** A word of [split()]: not empty and free of whitespace. *)
Definition is_word (w : str) : Prop :=
  w <> [] /\ forallb (fun c => negb (isspace c)) w = true.

(** *** Sample collaborators *)

Definition sample_settings_template : Settings :=
  {| azure_openai_endpoint := None;
     azure_openai_key := None;
     azure_openai_chat_deployment := lit "gpt-5.2" |}.

Definition sample_settings_hosted : Settings :=
  {| azure_openai_endpoint := Some (lit "https://demo.openai.azure.com/");
     azure_openai_key := Some (lit "key");
     azure_openai_chat_deployment := lit "gpt-5.2" |}.

Definition sample_row (t label snippet : str) (score : float) : row :=
  {| row_source_type := Some t;
     row_source_id := Some 1%Z;
     row_label := Some label;
     row_snippet := Some snippet;
     row_score := Some score;
     row_metadata := JNull |}.

Definition sample_rows : list row :=
  [ sample_row (lit "med") (lit "Lisinopril 20mg") (lit "Lisinopril 20mg daily - Status: active") 1%float;
    sample_row (lit "lab") (lit "Potassium (2024-05-01)") (lit "4.9 mmol/L") 1%float ].

Definition sample_env (settings : Settings) (store : result (list row))
    (completion : result str) (streamed : result api_stream) : Env :=
  {| get_settings := settings;
     execute_one_patient :=
       fun pid => Ok (Some {| patient_id := pid; display_name := lit "Jane Doe" |});
     execute_query_retrieve := fun _ _ _ => store;
     responses_create := fun _ => completion;
     responses_create_stream := fun _ => streamed;
     json_loads := fun _ => Raise ValueError;
     unicode_lower := fun s => s;
     unicode_upper := fun s => s |}.

Definition sample_request : CopilotRequest :=
  {| question := lit "What changed in the last 90 days?"; max_sources := 5 |}.

Definition sample_patient : patient :=
  {| patient_id := lit "p1"; display_name := lit "Jane Doe" |}.

Definition unavailable {A} : result A := Raise (ExternalError (lit "unavailable")).

(** *** The prompt layout with any number of actions *)

(** One [- action] line per action, each on a line of its own. *)
Definition action_lines (xs : list str) : str :=
  concat (map (fun x => [nl] ++ DASH_SP ++ x) xs).

Definition layout_text (A : str) (xs : list str) : str :=
  ANSWER_SP ++ A ++ [nl; nl] ++ NEXT_ACTIONS ++ action_lines xs.

(** An action as the parser returns it. *)
Definition wellformed_action (x : str) : Prop :=
  x <> [] /\ trimmed x = true /\ ~ In nl x.

(** An action that the layout can carry: one line, trimmed and not empty,
    without the [NEXT ACTIONS:] marker. *)
Definition plain_action (x : str) : bool :=
  negb (contains NEXT_ACTIONS x) && negb (contains [nl] x) && trimmed x.

(** A processed result that passes the validation of [CopilotSource]: the
    four scalar fields are not NULL and the metadata is null or an object. *)
Definition valid_result (r : processed) : bool :=
  match p_source_type r, p_source_id r, p_label r, p_snippet r, p_metadata r with
  | Some _, Some _, Some _, Some _, (JNull | JObject _) => true
  | _, _, _, _, _ => false
  end.

Definition SLASH : char := 47%N.

(** ** settings.py: the CORS origins *)

Definition COMMA : str := [44%N].

(** [[origin.strip() for origin in self.cors_origins.split(",")]] *)
Definition cors_origins_list (cors_origins : str) : result (list str) :=
  let? parts := split COMMA cors_origins in
  Ok (map strip parts).

(** ** db.py *)

(** A value passed to or returned by the database driver. *)
Inductive sqlval : Type :=
| VNull
| VBool (b : bool)
| VInt (z : Z)
| VFloat (x : float)
| VText (s : str)
| VTime (microseconds : Z)
| VJson (j : json).

(** A Python [dict] with string keys, in insertion order. *)
Definition dict (V : Type) : Type := list (str * V).

Fixpoint dict_get {V} (k : str) (d : dict V) : option V :=
  match d with
  | [] => None
  | (k', v) :: d' => if str_eqb k k' then Some v else dict_get k d'
  end.

(** [d[k] = v]: a present key keeps its place and takes the new value. *)
Fixpoint dict_set {V} (k : str) (v : V) (d : dict V) : dict V :=
  match d with
  | [] => [(k, v)]
  | (k', v') :: d' =>
      if str_eqb k k' then (k, v) :: d' else (k', v') :: dict_set k v d'
  end.

(** Computations on a state of type [S] that may raise; what was done before
    an exception stays done. *)
Definition ST (S A : Type) : Type := S -> result A * S.

Definition st_ret {S A} (a : A) : ST S A := fun s => (Ok a, s).

Definition st_bind {S A B} (m : ST S A) (k : A -> ST S B) : ST S B :=
  fun s =>
    match m s with
    | (Ok a, s') => k a s'
    | (Raise e, s') => (Raise e, s')
    end.

Definition st_raise {S A} (e : exn) : ST S A := fun s => (Raise e, s).

Definition st_lift {S A} (r : result A) : ST S A := fun s => (r, s).

(** [try: m  except Exception as e: h e] *)
Definition st_try {S A} (m : ST S A) (h : exn -> ST S A) : ST S A :=
  fun s =>
    match m s with
    | (Ok a, s') => (Ok a, s')
    | (Raise e, s') => h e s'
    end.

(** [try: m  finally: f] *)
Definition st_finally {S A} (m : ST S A) (f : ST S unit) : ST S A :=
  fun s =>
    match m s with
    | (r, s') =>
        match f s' with
        | (Ok _, s'') => (r, s'')
        | (Raise e, s'') => (Raise e, s'')
        end
    end.

Notation "x <~ m ;; k" := (st_bind m (fun x => k))
  (at level 61, m at next level, right associativity).
Notation "' pat <~ m ;; k" := (st_bind m (fun x => match x with pat => k end))
  (at level 61, pat pattern, m at next level, right associativity).

Definition DOLLAR : char := 36%N.
Definition COLON : char := 58%N.
Definition LETTER_P : char := 112%N.

(** The key of the [k]-th query parameter. *)
Definition param_key (k : nat) : str := LETTER_P :: str_of_nat k.

(** A connection of the pool, by its identity. *)
Definition conn : Type := nat.

(** The module state of db.py: the pool (a list used as a stack), its size
    bound, and for the record the connections closed and the number of
    connection attempts so far. *)
Record pool_state : Type := {
  _pool : list conn;
  _pool_size : nat;
  closed : list conn;
  attempts : nat
}.

Section Db.

(** [\d] outside ASCII, the outcome of the n-th connection attempt, and the
    driver's [run] with the column names it leaves in [conn.columns]. *)
Variable unicode_decimal : char -> bool.
Variable _create_connection : nat -> result conn.
Variable run : conn -> str -> dict sqlval -> result (list str * list (list sqlval)).

Definition is_decimal (c : char) : bool :=
  if is_ascii c then ((48 <=? c) && (c <=? 57))%N else unicode_decimal c.

(** [re.sub(r'\$(\d+)', r':p\1', query)]: the scan is leftmost first;
    [in_group] says that the digits of a matched placeholder are being
    copied. *)
Fixpoint re_sub_placeholders (in_group : bool) (s : str) : str :=
  match s with
  | [] => []
  | c :: s' =>
      if in_group && is_decimal c then c :: re_sub_placeholders true s'
      else if char_eqb c DOLLAR
              && match s' with d :: _ => is_decimal d | [] => false end
      then COLON :: LETTER_P :: re_sub_placeholders true s'
      else c :: re_sub_placeholders false s'
  end.

(** [{f'p{i+1}': arg for i, arg in enumerate(args)}] from index [i] on. *)
Fixpoint params_from (i : nat) (args : list sqlval) (d : dict sqlval) : dict sqlval :=
  match args with
  | [] => d
  | arg :: rest =>
      params_from (S i) rest (dict_set (LETTER_P :: str_of_nat (i + 1)) arg d)
  end.

Definition _convert_params (query : str) (args : list sqlval) : str * dict sqlval :=
  if negb (truthy args) then (query, [])
  else (re_sub_placeholders false query, params_from 0 args []).

Definition set_pool (p : list conn) (st : pool_state) : pool_state :=
  {| _pool := p; _pool_size := _pool_size st; closed := closed st;
     attempts := attempts st |}.

(** [await asyncio.to_thread(_create_connection)] *)
Definition create : ST pool_state conn :=
  fun st =>
    (_create_connection (attempts st),
     {| _pool := _pool st; _pool_size := _pool_size st; closed := closed st;
        attempts := S (attempts st) |}).

(** [_pool.pop()], under [if _pool] *)
Definition pop : ST pool_state conn :=
  fun st => (Ok (last (_pool st) 0), set_pool (removelast (_pool st)) st).

(** The first critical section of [get_connection]. *)
Definition acquire_first : ST pool_state (option conn) :=
  fun st =>
    if truthy (_pool st) then (c <~ pop ;; st_ret (Some c)) st
    else if length (_pool st) <? _pool_size st then (c <~ create ;; st_ret (Some c)) st
    else (Ok None, st).

(** The second one, after the wait, when the first gave no connection. *)
Definition acquire_retry : ST pool_state conn :=
  fun st => if truthy (_pool st) then pop st else create st.

Definition acquire : ST pool_state conn :=
  c <~ acquire_first ;;
  match c with
  | Some c => st_ret c
  | None => acquire_retry
  end.

(** The [finally] block of [get_connection]. *)
Definition release (c : conn) : ST pool_state unit :=
  fun st =>
    if length (_pool st) <? _pool_size st
    then (Ok tt, set_pool (_pool st ++ [c]) st)
    else (Ok tt,
          {| _pool := _pool st; _pool_size := _pool_size st;
             closed := closed st ++ [c]; attempts := attempts st |}).

(** [async with get_connection() as conn: body conn] *)
Definition get_connection {A} (body : conn -> ST pool_state A) : ST pool_state A :=
  c <~ acquire ;;
  st_finally (body c) (release c).

(** [dict(zip(columns, row))] *)
Fixpoint zip_dict (columns : list str) (row : list sqlval) (d : dict sqlval)
    : dict sqlval :=
  match columns, row with
  | c :: cs, v :: vs => zip_dict cs vs (dict_set c v d)
  | _, _ => d
  end.

Definition execute_query (query : str) (args : list sqlval)
    : ST pool_state (list (dict sqlval)) :=
  get_connection (fun c =>
    let '(converted_query, params) := _convert_params query args in
    ' (columns, rows) <~ st_lift (run c converted_query params) ;;
    if truthy columns
    then st_ret (map (fun row => zip_dict columns row []) rows)
    else st_ret []).

Definition execute_one (query : str) (args : list sqlval)
    : ST pool_state (option (dict sqlval)) :=
  results <~ execute_query query args ;;
  st_ret (match results with
          | r :: _ => Some r
          | [] => None
          end).

(** [rows[0][0] if rows and rows[0] else None] *)
Definition execute_scalar (query : str) (args : list sqlval)
    : ST pool_state sqlval :=
  get_connection (fun c =>
    let '(converted_query, params) := _convert_params query args in
    ' (_, rows) <~ st_lift (run c converted_query params) ;;
    st_ret (match rows with
            | (v :: _) :: _ => v
            | _ => VNull
            end)).

Definition execute_command (query : str) (args : list sqlval)
    : ST pool_state str :=
  get_connection (fun c =>
    let '(converted_query, params) := _convert_params query args in
    _ <~ st_lift (run c converted_query params) ;;
    st_ret (lit "OK")).

End Db.

(** ** The routes outside the pipeline

    The routes below run on the database functions of db.py.  They are
    written over an arbitrary state [S] and take the database calls they make
    as parameters, so that what they prove holds for the pool above as for
    any other way of running the queries. *)

(** [str(z)] for an integer. *)
Definition str_of_int (z : Z) : str :=
  lit (DecimalString.NilZero.string_of_int (Z.to_int z)).

(** *** routes/actions.py: [update_action] *)

Record ActionUpdate : Type := {
  au_action_text : option str;
  au_status : option str;
  au_priority : option str;
  au_doctor_notes : option str;
  au_updated_by : option str
}.

(** The lists [updates] and [params] and the counter [param_idx]. *)
Definition update_acc : Type := list str * list sqlval * nat.

(** [updates.append(f"<column> = ${param_idx}"); params.append(value);
    param_idx += 1] *)
Definition add_update (column value : str) (acc : update_acc) : update_acc :=
  let '(updates, params, param_idx) := acc in
  (updates ++ [column ++ lit " = $" ++ str_of_nat param_idx],
   params ++ [VText value],
   param_idx + 1).

Definition collect_updates (update : ActionUpdate) : update_acc :=
  let acc : update_acc := ([], [], 1) in
  let acc :=
    match au_action_text update with
    | Some v => add_update (lit "action_text") v acc
    | None => acc
    end in
  let acc :=
    match au_status update with
    | Some v =>
        let '(updates, params, param_idx) := add_update (lit "status") v acc in
        if str_eqb v (lit "completed")
        then (updates ++ [lit "completed_at = NOW()"], params, param_idx)
        else (updates, params, param_idx)
    | None => acc
    end in
  let acc :=
    match au_priority update with
    | Some v => add_update (lit "priority") v acc
    | None => acc
    end in
  let acc :=
    match au_doctor_notes update with
    | Some v => add_update (lit "doctor_notes") v acc
    | None => acc
    end in
  match au_updated_by update with
  | Some v => add_update (lit "updated_by") v acc
  | None => acc
  end.

Definition update_query (updates : list str) (param_idx : nat) : str :=
  lit "
        UPDATE clinical_actions
        SET " ++ join (lit ", ") updates ++ lit "
        WHERE action_id = $" ++ str_of_nat param_idx
    ++ lit " AND patient_id = $" ++ str_of_nat (param_idx + 1) ++ lit "
        RETURNING action_id, patient_id, action_text, status, priority, source,
                  original_ai_text, created_by, created_at, updated_at, doctor_notes
    ".

Section Actions.

Variable S : Type.
Variable execute_one : str -> list sqlval -> ST S (option (dict sqlval)).
(** The constructor of [ActionResponse] on the returned row, with its
    validation. *)
Variable Response : Type.
Variable ActionResponse : dict sqlval -> result Response.

Definition update_action (patient_id : str) (action_id : Z) (update : ActionUpdate)
    : ST S Response :=
  let '(updates, params, param_idx) := collect_updates update in
  if negb (truthy updates) then
    st_raise (HTTPException 400 (lit "No fields to update"))
  else
    let updates := updates ++ [lit "updated_at = NOW()"] in
    let params := params ++ [VInt action_id] in
    let params := params ++ [VText patient_id] in
    let query := update_query updates param_idx in
    result <~ execute_one query params ;;
    match result with
    | Some (_ :: _ as row) => st_lift (ActionResponse row)
    | _ =>
        st_raise (HTTPException 404
                    (lit "Action " ++ str_of_int action_id ++ lit " not found"))
    end.

End Actions.
Arguments update_action {S} execute_one {Response} ActionResponse.

(** The fields of an update that are set, as column and value, in the order
    the route looks at them. *)
Definition set_columns (update : ActionUpdate) : list (str * str) :=
  flat_map (fun cv => match snd cv with
                      | Some v => [(fst cv, v)]
                      | None => []
                      end)
    [ (lit "action_text", au_action_text update);
      (lit "status", au_status update);
      (lit "priority", au_priority update);
      (lit "doctor_notes", au_doctor_notes update);
      (lit "updated_by", au_updated_by update) ].

(** The assignments of the [SET] clause for numbered columns. *)
Definition set_clauses (columns : list (nat * (str * str))) : list str :=
  flat_map (fun icv =>
              let '(i, (column, value)) := icv in
              (column ++ lit " = $" ++ str_of_nat i)
              :: (if str_eqb column (lit "status") && str_eqb value (lit "completed")
                  then [lit "completed_at = NOW()"]
                  else []))
           columns.

(** *** routes/health.py *)

Record HealthResponse : Type := {
  h_status : str;
  h_database : str;
  h_azure_ai : str;
  h_azure_openai : str;
  h_version : str
}.

(** [result == 1] *)
Definition equals_one (v : sqlval) : bool :=
  match v with
  | VInt z => (z =? 1)%Z
  | VBool b => b
  | VFloat x => PrimFloat.eqb x 1%float
  | _ => false
  end.

Section Health.

Variable S : Type.
Variable execute_scalar : str -> list sqlval -> ST S sqlval.
Variable settings : Settings.
(** The setting [azure_ai_endpoint], which the pipeline does not use. *)
Variable azure_ai_endpoint : str.

Definition health_check : ST S HealthResponse :=
  db_status <~
    st_try
      (result <~ execute_scalar (lit "SELECT 1") [] ;;
       st_ret (if equals_one result
               then lit "healthy"
               else lit "unhealthy: unexpected result"))
      (fun e => st_ret (lit "unhealthy: " ++ str_of_exn e)) ;;
  let azure_ai_status :=
    if truthy azure_ai_endpoint then lit "configured" else lit "not configured" in
  let azure_openai_status :=
    if has_azure_openai settings then lit "configured" else lit "not configured" in
  st_ret {| h_status := if str_eqb db_status (lit "healthy")
                        then lit "healthy" else lit "degraded";
            h_database := db_status;
            h_azure_ai := azure_ai_status;
            h_azure_openai := azure_openai_status;
            h_version := lit "1.0.0" |}.

End Health.
Arguments health_check {S} execute_scalar settings azure_ai_endpoint.

(** *** routes/patients.py: [get_note] *)

(** The row of the note query; the query names its eight columns. *)
Record note_row : Type := {
  nr_note_id : sqlval;
  nr_patient_id : sqlval;
  nr_encounter_id : sqlval;
  nr_redacted_text : sqlval;
  nr_phi_entities : sqlval;
  nr_created_at : sqlval;
  nr_note_type : sqlval;
  nr_raw_text : sqlval
}.

Record NoteDetail : Type := {
  nd_note_id : Z;
  nd_patient_id : str;
  nd_encounter_id : option Z;
  nd_note_type : option str;
  nd_created_at : Z;
  nd_raw_text : option str;
  nd_redacted_text : str;
  nd_phi_entities : option (list json)
}.

(** The validation of the fields of [NoteDetail]. *)
Definition required_int (v : sqlval) : result Z :=
  match v with VInt z => Ok z | _ => Raise ValidationError end.

Definition optional_int (v : sqlval) : result (option Z) :=
  match v with
  | VNull => Ok None
  | VInt z => Ok (Some z)
  | _ => Raise ValidationError
  end.

Definition required_str (v : sqlval) : result str :=
  match v with VText s => Ok s | _ => Raise ValidationError end.

Definition optional_str (v : sqlval) : result (option str) :=
  match v with
  | VNull => Ok None
  | VText s => Ok (Some s)
  | _ => Raise ValidationError
  end.

Definition required_datetime (v : sqlval) : result Z :=
  match v with VTime t => Ok t | _ => Raise ValidationError end.

Definition is_object (j : json) : bool :=
  match j with JObject _ => true | _ => false end.

Definition optional_dict_list (v : sqlval) : result (option (list json)) :=
  match v with
  | VNull | VJson JNull => Ok None
  | VJson (JArray items) =>
      if forallb is_object items then Ok (Some items) else Raise ValidationError
  | _ => Raise ValidationError
  end.

Section Notes.

Variable S : Type.
(** [execute_one] on the note query, with its two arguments. *)
Variable fetch_note : str -> Z -> ST S (option note_row).
Variable loads : str -> result json.
(** [settings.demo_allow_raw] *)
Variable demo_allow_raw : bool.

Definition get_note (patient_id : str) (note_id : Z) (include_raw : bool)
    : ST S NoteDetail :=
  note <~ fetch_note patient_id note_id ;;
  match note with
  | None =>
      st_raise (HTTPException 404 (lit "Note " ++ str_of_int note_id ++ lit " not found"))
  | Some note =>
      let raw_text := if demo_allow_raw && include_raw then nr_raw_text note else VNull in
      phi_entities <~
        st_lift (match nr_phi_entities note with
                 | VText s => let? j := loads s in Ok (VJson j)
                 | v => Ok v
                 end) ;;
      st_lift
        (let? note_id := required_int (nr_note_id note) in
         let? patient_id := required_str (nr_patient_id note) in
         let? encounter_id := optional_int (nr_encounter_id note) in
         let? note_type := optional_str (nr_note_type note) in
         let? created_at := required_datetime (nr_created_at note) in
         let? raw_text := optional_str raw_text in
         let? redacted_text := required_str (nr_redacted_text note) in
         let? phi_entities :=
           optional_dict_list (if demo_allow_raw then phi_entities else VNull) in
         Ok {| nd_note_id := note_id;
               nd_patient_id := patient_id;
               nd_encounter_id := encounter_id;
               nd_note_type := note_type;
               nd_created_at := created_at;
               nd_raw_text := raw_text;
               nd_redacted_text := redacted_text;
               nd_phi_entities := phi_entities |})
  end.

End Notes.
Arguments get_note {S} fetch_note loads demo_allow_raw.

(** *** routes/ingest.py: [reprocess_notes] *)

(** A row of [notes_raw], by the columns the query names. *)
Record raw_note : Type := {
  rn_note_id : sqlval;
  rn_encounter_id : sqlval;
  rn_raw_text : sqlval
}.

(** The returned dictionary; [None] stands for a key that is absent or
    null. *)
Record ReprocessResult : Type := {
  rp_message : str;
  rp_processed : nat;
  rp_total : option nat;
  rp_errors : option (list (sqlval * str))
}.

Section Reprocess.

Variable S : Type.
(** The four database calls of the route: the patient lookup, the raw notes
    of the patient, the deletion of a redacted note, and the insertion of
    the note redacted anew, which returns the inserted row if any. *)
Variable find_patient : str -> ST S (option (dict sqlval)).
Variable fetch_raw_notes : str -> ST S (list raw_note).
Variable delete_redacted : sqlval -> ST S str.
Variable insert_redacted : raw_note -> str -> ST S (option (dict sqlval)).

(** The body of the loop over the raw notes. *)
Definition reprocess_one (patient_id : str) (note : raw_note)
    (acc : nat * list (sqlval * str)) : ST S (nat * list (sqlval * str)) :=
  let '(processed, errors) := acc in
  st_try
    (_ <~ delete_redacted (rn_note_id note) ;;
     result <~ insert_redacted note patient_id ;;
     st_ret (match result with
             | Some (_ :: _) => (processed + 1, errors)
             | _ => (processed, errors)
             end))
    (fun e => st_ret (processed, errors ++ [(rn_note_id note, str_of_exn e)])).

Fixpoint reprocess_loop (patient_id : str) (notes : list raw_note)
    (acc : nat * list (sqlval * str)) : ST S (nat * list (sqlval * str)) :=
  match notes with
  | [] => st_ret acc
  | note :: rest =>
      acc <~ reprocess_one patient_id note acc ;;
      reprocess_loop patient_id rest acc
  end.

Definition reprocess_notes (patient_id : str) : ST S ReprocessResult :=
  patient <~ find_patient patient_id ;;
  if negb (match patient with Some (_ :: _) => true | _ => false end) then
    st_raise (HTTPException 404 (lit "Patient " ++ patient_id ++ lit " not found"))
  else
    raw_notes <~ fetch_raw_notes patient_id ;;
    if negb (truthy raw_notes) then
      st_ret {| rp_message := lit "No notes found to reprocess";
                rp_processed := 0;
                rp_total := None;
                rp_errors := None |}
    else
      ' (processed, errors) <~ reprocess_loop patient_id raw_notes (0, []) ;;
      st_ret {| rp_message := lit "Reprocessed " ++ str_of_nat processed ++ lit " of "
                                ++ str_of_nat (length raw_notes) ++ lit " notes";
                rp_processed := processed;
                rp_total := Some (length raw_notes);
                rp_errors := if truthy errors then Some errors else None |}.

End Reprocess.
Arguments reprocess_notes {S} find_patient fetch_raw_notes delete_redacted insert_redacted.
Arguments reprocess_loop {S} delete_redacted insert_redacted.
Arguments reprocess_one {S} delete_redacted insert_redacted.

(** *** services/retrieval.py: [retrieve_notes_only] *)

(** A row of the notes query: the columns of [notes_phi] it selects, with
    [None] for a NULL. *)
Record similar_note : Type := {
  sn_note_id : option Z;
  sn_redacted_text : option str;
  sn_created_at : option Z;
  sn_similarity : option float
}.

(** An entry of the returned list. *)
Record note_source : Type := {
  ns_source_type : str;
  ns_source_id : option Z;
  ns_label : str;
  ns_snippet : str;
  ns_score : float
}.

Section NotesOnly.

Variable S : Type.
(** [execute_query] on the similarity query, and [strftime('%Y-%m-%d')]. *)
Variable query_similar_notes : str -> str -> Z -> ST S (list similar_note).
Variable strftime_date : Z -> str.

Definition note_source_of (r : similar_note) : result note_source :=
  let label :=
    lit "Note " ++ match sn_created_at r with
                   | Some t => strftime_date t
                   | None => lit "Unknown"
                   end in
  let? snippet :=
    (match sn_redacted_text r with
     | Some text => Ok (firstn 300 text)
     | None => Raise TypeError
     end) in
  let? score :=
    (match sn_similarity r with
     | Some x => Ok x
     | None => Raise TypeError
     end) in
  Ok {| ns_source_type := lit "note";
        ns_source_id := sn_note_id r;
        ns_label := label;
        ns_snippet := snippet;
        ns_score := score |}.

Definition retrieve_notes_only (patient_id query : str) (max_results : Z)
    : ST S (list note_source) :=
  st_try
    (results <~ query_similar_notes query patient_id max_results ;;
     st_lift (map_result note_source_of results))
    (fun e => st_ret []).

End NotesOnly.
Arguments retrieve_notes_only {S} query_similar_notes strftime_date.

(** A note row with its text and its similarity. *)
Definition complete_note (r : similar_note) : bool :=
  match sn_redacted_text r, sn_similarity r with
  | Some _, Some _ => true
  | _, _ => false
  end.

(** * Properties *)

(** ** Strings *)

Lemma char_eqb_eq (a b : char) : char_eqb a b = true <-> a = b.
Proof. apply N.eqb_eq. Qed.

Lemma char_eqb_neq (a b : char) : a <> b -> char_eqb a b = false.
Proof. intro H. apply N.eqb_neq. exact H. Qed.

Lemma startswith_nil_r (p : str) : p <> [] -> startswith p [] = false.
Proof. destruct p; [congruence | reflexivity]. Qed.

Lemma startswith_app (p s : str) : startswith p (p ++ s) = true.
Proof.
  induction p as [|a p IH]; simpl; [reflexivity|].
  rewrite IH, andb_true_r. apply char_eqb_eq. reflexivity.
Qed.

(** Only the first [length sep] characters matter. *)
Lemma startswith_long (sep s v : str) :
  length sep <= length s -> startswith sep (s ++ v) = startswith sep s.
Proof.
  revert s. induction sep as [|x sep IH]; intros s Hlen; [reflexivity|].
  destruct s as [|y s]; simpl in *; [lia|].
  rewrite IH by lia. reflexivity.
Qed.

(** A character that does not occur in [sep] is a barrier for matches. *)
Lemma startswith_barrier (sep a b : str) (c : char) :
  ~ In c sep -> startswith sep (a ++ c :: b) = startswith sep a.
Proof.
  revert a. induction sep as [|x sep IH]; intros a Hc; [reflexivity|].
  destruct a as [|y a]; simpl.
  - rewrite char_eqb_neq; [reflexivity|]. intro E. apply Hc. left. exact E.
  - rewrite IH; [reflexivity|]. intro E. apply Hc. right. exact E.
Qed.

Lemma contains_nil_r (sep : str) : sep <> [] -> contains sep [] = false.
Proof. apply startswith_nil_r. Qed.

Lemma contains_cons_false (sep : str) (c : char) (s : str) :
  contains sep (c :: s) = false ->
  startswith sep (c :: s) = false /\ contains sep s = false.
Proof. simpl. apply orb_false_iff. Qed.

Lemma contains_app_r (sep a b : str) :
  contains sep b = true -> contains sep (a ++ b) = true.
Proof.
  intro H. induction a as [|y a IH]; simpl; [exact H|].
  rewrite IH. apply orb_true_r.
Qed.

Lemma contains_occurrence (sep a b : str) : contains sep (a ++ sep ++ b) = true.
Proof.
  apply contains_app_r. destruct sep as [|x sep]; simpl.
  - destruct b; reflexivity.
  - rewrite startswith_app, andb_true_r.
    replace (char_eqb x x) with true; [reflexivity|].
    symmetry. apply char_eqb_eq. reflexivity.
Qed.

Lemma startswith_app_mono (sep l b : str) :
  startswith sep l = true -> startswith sep (l ++ b) = true.
Proof.
  revert l. induction sep as [|x sep IH]; intros l E; [reflexivity|].
  destruct l as [|z l]; simpl in *; [discriminate|].
  apply andb_true_iff in E. destruct E as [E1 E2].
  rewrite E1, (IH _ E2). reflexivity.
Qed.

Lemma contains_barrier (sep a b : str) (c : char) :
  sep <> [] -> ~ In c sep ->
  contains sep (a ++ c :: b) = contains sep a || contains sep b.
Proof.
  intros Hs Hc. induction a as [|y a IH].
  - pose proof (startswith_barrier sep [] b c Hc) as E. simpl in *.
    rewrite E. reflexivity.
  - change ((y :: a) ++ c :: b) with (y :: a ++ c :: b).
    cbn [contains].
    change (y :: a ++ c :: b) with ((y :: a) ++ c :: b).
    rewrite (startswith_barrier sep (y :: a) b c Hc), IH.
    apply orb_assoc.
Qed.

(** *** [split] *)

Lemma split_go_nonempty (sep : str) (k : nat) (cur s : str) :
  split_go sep k cur s <> [].
Proof.
  revert k cur. induction s as [|c s IH]; intros k cur; simpl; [discriminate|].
  destruct k; [|apply IH].
  destruct (startswith sep (c :: s)); [discriminate | apply IH].
Qed.

Lemma split_go_skip (sep a b cur : str) :
  split_go sep (length a) cur (a ++ b) = split_go sep 0 cur b.
Proof.
  induction a as [|y a IH]; simpl; [|exact IH].
  destruct b; reflexivity.
Qed.

Lemma split_go_match (sep cur post : str) :
  sep <> [] ->
  split_go sep 0 cur (sep ++ post) = rev cur :: split_go sep 0 [] post.
Proof.
  intro Hs. destruct sep as [|x sep]; [congruence|].
  change ((x :: sep) ++ post) with (x :: sep ++ post).
  cbn [split_go].
  change (x :: sep ++ post) with ((x :: sep) ++ post).
  rewrite startswith_app.
  replace (length (x :: sep) - 1) with (length sep) by (simpl; lia).
  rewrite split_go_skip. reflexivity.
Qed.

Lemma split_go_none (sep cur s : str) :
  sep <> [] -> contains sep s = false ->
  split_go sep 0 cur s = [rev cur ++ s].
Proof.
  intros Hs. revert cur. induction s as [|c s IH]; intros cur H.
  - simpl. rewrite app_nil_r. reflexivity.
  - apply contains_cons_false in H. destruct H as [H1 H2].
    cbn [split_go]. rewrite H1, (IH (c :: cur) H2).
    simpl. rewrite <- app_assoc. reflexivity.
Qed.

Lemma split_go_barrier (sep a b : str) (c : char) (cur : str) :
  ~ In c sep -> contains sep a = false -> sep <> [] ->
  split_go sep 0 cur (a ++ c :: b) = split_go sep 0 (c :: rev a ++ cur) b.
Proof.
  intros Hc. revert cur. induction a as [|y a IH]; intros cur H Hs.
  - pose proof (startswith_barrier sep [] b c Hc) as E. simpl in *.
    rewrite E, startswith_nil_r by exact Hs. reflexivity.
  - apply contains_cons_false in H. destruct H as [H1 H2].
    change ((y :: a) ++ c :: b) with (y :: a ++ c :: b).
    cbn [split_go].
    change (y :: a ++ c :: b) with ((y :: a) ++ c :: b).
    rewrite (startswith_barrier sep (y :: a) b c Hc), H1.
    rewrite (IH (y :: cur) H2 Hs). simpl. rewrite <- app_assoc. reflexivity.
Qed.

Lemma startswith_removelast (sep p post : str) :
  p <> [] ->
  startswith sep (p ++ sep ++ post) = startswith sep (p ++ removelast sep).
Proof.
  intro Hp. destruct sep as [|x sep'] eqn:Es; [reflexivity|].
  assert (Hs : sep <> []) by (rewrite Es; discriminate).
  rewrite <- Es. clear Es x sep'.
  destruct (exists_last Hs) as [r [z E]]. subst sep.
  rewrite removelast_last, <- app_assoc, app_assoc.
  apply startswith_long.
  rewrite !length_app. simpl. destruct p; [congruence | simpl; lia].
Qed.

(** The piece before the first occurrence of the separator. *)
Lemma split_go_first (sep pre post cur : str) :
  sep <> [] -> contains sep (pre ++ removelast sep) = false ->
  split_go sep 0 cur (pre ++ sep ++ post)
  = (rev cur ++ pre) :: split_go sep 0 [] post.
Proof.
  intros Hs. revert cur. induction pre as [|y pre IH]; intros cur H.
  - simpl. rewrite app_nil_r. apply split_go_match. exact Hs.
  - change ((y :: pre) ++ removelast sep) with (y :: pre ++ removelast sep) in H.
    apply contains_cons_false in H. destruct H as [H1 H2].
    change ((y :: pre) ++ sep ++ post) with (y :: pre ++ sep ++ post).
    cbn [split_go].
    assert (E : startswith sep (y :: pre ++ sep ++ post) = false).
    { rewrite <- H1. apply (startswith_removelast sep (y :: pre) post).
      discriminate. }
    rewrite E, (IH (y :: cur) H2). simpl. rewrite <- app_assoc. reflexivity.
Qed.

Lemma split_go_two_parts (sep cur s : str) :
  sep <> [] -> contains sep s = true ->
  exists p q rest, split_go sep 0 cur s = p :: q :: rest.
Proof.
  intros Hs. revert cur. induction s as [|c s IH]; intros cur H.
  - rewrite contains_nil_r in H by exact Hs. discriminate.
  - cbn [split_go]. simpl in H.
    destruct (startswith sep (c :: s)) eqn:E.
    + destruct (split_go sep (length sep - 1) [] s) as [|q rest] eqn:Eq.
      * exfalso. exact (split_go_nonempty _ _ _ _ Eq).
      * exists (rev cur), q, rest. reflexivity.
    + apply IH. exact H.
Qed.

(** *** [strip] *)

Lemma rstrip_snoc_space (s : str) (c : char) :
  isspace c = true -> rstrip (s ++ [c]) = rstrip s.
Proof.
  intro H. unfold rstrip. rewrite rev_app_distr. simpl. rewrite H. reflexivity.
Qed.

Lemma rstrip_snoc_nonspace (s : str) (c : char) :
  isspace c = false -> rstrip (s ++ [c]) = s ++ [c].
Proof.
  intro H. unfold rstrip. rewrite rev_app_distr. simpl. rewrite H.
  simpl. rewrite rev_involutive. reflexivity.
Qed.

Lemma strip_cons_space (c : char) (s : str) :
  isspace c = true -> strip (c :: s) = strip s.
Proof. intro H. unfold strip. simpl. rewrite H. reflexivity. Qed.

Lemma strip_snoc_space (s : str) (c : char) :
  isspace c = true -> strip (s ++ [c]) = strip s.
Proof.
  intro H. unfold strip. induction s as [|y s IH]; simpl.
  - rewrite H. reflexivity.
  - destruct (isspace y) eqn:Ey; [exact IH|].
    apply (rstrip_snoc_space (y :: s) c H).
Qed.

Lemma trimmed_nonempty (s : str) : trimmed s = true -> s <> [].
Proof. intros H E. subst s. discriminate H. Qed.

Lemma trimmed_last (s : str) :
  trimmed s = true -> exists r z, s = r ++ [z] /\ isspace z = false.
Proof.
  intro H. pose proof (trimmed_nonempty s H) as Hs.
  destruct (exists_last Hs) as [r [z E]]. exists r, z. split; [exact E|].
  unfold trimmed in H. apply andb_true_iff in H. destruct H as [_ H].
  subst s. rewrite last_last in H. apply negb_true_iff in H. exact H.
Qed.

Lemma trimmed_head (s : str) :
  trimmed s = true -> exists c r, s = c :: r /\ isspace c = false.
Proof.
  intro H. destruct s as [|c r]; [discriminate H|].
  exists c, r. split; [reflexivity|].
  unfold trimmed in H. apply andb_true_iff in H. destruct H as [H _].
  apply negb_true_iff in H. exact H.
Qed.

Lemma rstrip_app_trimmed (p y : str) :
  trimmed y = true -> rstrip (p ++ y) = p ++ y.
Proof.
  intro H. destruct (trimmed_last y H) as [r [z [E Hz]]]. subst y.
  rewrite app_assoc. apply rstrip_snoc_nonspace. exact Hz.
Qed.

Lemma strip_trimmed (s : str) : trimmed s = true -> strip s = s.
Proof.
  intro H. destruct (trimmed_head s H) as [c [r [E Hc]]].
  unfold strip. rewrite E at 1. simpl. rewrite Hc, <- E.
  apply (rstrip_app_trimmed [] s H).
Qed.

(** ** The response parser *)

Ltac nonempty_literal :=
  match goal with
  | |- ?l <> [] => unfold NEXT_ACTIONS, ANSWER; discriminate
  | |- ~ In _ _ => vm_compute; intuition discriminate
  end.

Lemma index_second {A} (p q : A) (rest : list A) : index (p :: q :: rest) 1 = Ok q.
Proof. reflexivity. Qed.

Lemma extract_answer_total (text : str) : exists a, extract_answer text = Ok a.
Proof.
  unfold extract_answer. destruct (contains ANSWER text) eqn:E.
  - destruct (split_go_two_parts ANSWER [] text) as [p [q [rest Es]]];
      [nonempty_literal | exact E |].
    unfold split, ANSWER at 1. rewrite Es. simpl. eauto.
  - eauto.
Qed.

Lemma extract_answer_absent (text : str) :
  contains ANSWER text = false -> extract_answer text = Ok (strip text).
Proof. intro H. unfold extract_answer. rewrite H. reflexivity. Qed.

(** With one occurrence of the marker, the answer is what follows it. *)
Lemma extract_answer_once (pre body : str) :
  contains ANSWER (pre ++ removelast ANSWER) = false ->
  contains ANSWER body = false ->
  extract_answer (pre ++ ANSWER ++ body) = Ok (strip body).
Proof.
  intros Hpre Hbody. unfold extract_answer.
  rewrite contains_occurrence.
  unfold split, ANSWER at 1. fold ANSWER.
  rewrite (split_go_first ANSWER pre body []) by
    (try exact Hpre; nonempty_literal).
  rewrite split_go_none; [reflexivity | nonempty_literal | exact Hbody].
Qed.

Lemma parse_total (text : str) : exists r, _parse_llm_response text = Ok r.
Proof.
  unfold _parse_llm_response. destruct (contains NEXT_ACTIONS text) eqn:E.
  - destruct (split_go_two_parts NEXT_ACTIONS [] text) as [p [q [rest Es]]];
      [nonempty_literal | exact E |].
    unfold split at 1, NEXT_ACTIONS at 1. fold NEXT_ACTIONS. rewrite Es.
    destruct (extract_answer_total p) as [a Ea].
    simpl. rewrite Ea. simpl. eauto.
  - destruct (extract_answer_total text) as [a Ea]. rewrite Ea. simpl. eauto.
Qed.

Lemma parse_action_line_dash (acc : list str) (x : str) :
  trimmed x = true -> parse_action_line acc (DASH_SP ++ x) = acc ++ [x].
Proof.
  intro H. unfold parse_action_line.
  assert (E : strip (DASH_SP ++ x) = DASH_SP ++ x).
  { unfold strip. change (lstrip (DASH_SP ++ x)) with (DASH_SP ++ x).
    apply rstrip_app_trimmed. exact H. }
  rewrite E.
  change (startswith DASH (DASH_SP ++ x)) with true.
  change (lstrip_chars DASH_BULLET (DASH_SP ++ x)) with (sp :: x).
  rewrite strip_cons_space by reflexivity.
  rewrite (strip_trimmed x H).
  destruct x; [discriminate H | reflexivity].
Qed.

Section RoundTrip.

Variables A x y : str.
Hypothesis A_no_actions_marker : contains NEXT_ACTIONS A = false.
Hypothesis A_no_answer_marker : contains ANSWER A = false.
Hypothesis x_no_marker : contains NEXT_ACTIONS x = false.
Hypothesis y_no_marker : contains NEXT_ACTIONS y = false.
Hypothesis x_one_line : contains [nl] x = false.
Hypothesis y_one_line : contains [nl] y = false.
Hypothesis x_trimmed : trimmed x = true.
Hypothesis y_trimmed : trimmed y = true.

Lemma round_trip_text_parts :
  round_trip_text A x y
  = round_trip_answer_part A ++ NEXT_ACTIONS ++ round_trip_actions_part x y.
Proof.
  unfold round_trip_text, round_trip_answer_part, round_trip_actions_part.
  rewrite <- !app_assoc. reflexivity.
Qed.

Lemma round_trip_split :
  split_go NEXT_ACTIONS 0 [] (round_trip_text A x y)
  = [round_trip_answer_part A; round_trip_actions_part x y].
Proof.
  rewrite round_trip_text_parts.
  rewrite split_go_first; [| nonempty_literal |].
  - rewrite split_go_none; [reflexivity | nonempty_literal |].
    unfold round_trip_actions_part.
    change ([nl] ++ DASH_SP ++ x ++ [nl] ++ DASH_SP ++ y)
      with ([] ++ nl :: (DASH_SP ++ x) ++ nl :: (DASH_SP ++ y)).
    rewrite !contains_barrier by nonempty_literal.
    simpl. rewrite x_no_marker, y_no_marker. reflexivity.
  - unfold round_trip_answer_part.
    replace ((ANSWER_SP ++ A ++ [nl; nl]) ++ removelast NEXT_ACTIONS)
      with ((ANSWER_SP ++ A) ++ nl :: (nl :: removelast NEXT_ACTIONS))
      by (rewrite <- !app_assoc; reflexivity).
    rewrite contains_barrier by nonempty_literal.
    simpl. rewrite A_no_actions_marker. reflexivity.
Qed.

Lemma round_trip_answer : extract_answer (round_trip_answer_part A) = Ok (strip A).
Proof.
  unfold round_trip_answer_part.
  change (ANSWER_SP ++ A ++ [nl; nl]) with ([] ++ ANSWER ++ (sp :: A ++ [nl; nl])).
  rewrite extract_answer_once.
  - rewrite strip_cons_space by reflexivity.
    change (A ++ [nl; nl]) with (A ++ [nl] ++ [nl]).
    rewrite app_assoc, !strip_snoc_space by reflexivity. reflexivity.
  - reflexivity.
  - change (sp :: A ++ [nl; nl]) with ((sp :: A) ++ nl :: [nl]).
    rewrite contains_barrier by nonempty_literal.
    simpl. rewrite A_no_answer_marker. reflexivity.
Qed.

Lemma round_trip_lines :
  split [nl] (strip (round_trip_actions_part x y)) = Ok [DASH_SP ++ x; DASH_SP ++ y].
Proof.
  assert (E : strip (round_trip_actions_part x y) = (DASH_SP ++ x) ++ [nl] ++ (DASH_SP ++ y) ++ []).
  { unfold round_trip_actions_part. rewrite app_nil_r.
    change ([nl] ++ DASH_SP ++ x ++ [nl] ++ DASH_SP ++ y)
      with (nl :: DASH_SP ++ x ++ [nl] ++ DASH_SP ++ y).
    rewrite strip_cons_space by reflexivity.
    unfold strip.
    change (lstrip (DASH_SP ++ x ++ [nl] ++ DASH_SP ++ y))
      with (DASH_SP ++ x ++ [nl] ++ DASH_SP ++ y).
    replace (DASH_SP ++ x ++ [nl] ++ DASH_SP ++ y)
      with ((DASH_SP ++ x ++ [nl] ++ DASH_SP) ++ y)
      by (rewrite <- !app_assoc; reflexivity).
    rewrite (rstrip_app_trimmed _ y y_trimmed).
    rewrite <- !app_assoc. reflexivity. }
  rewrite E. unfold split.
  rewrite split_go_first; [| discriminate |].
  - rewrite app_nil_r, split_go_none; [reflexivity | discriminate |].
    simpl. exact y_one_line.
  - simpl. rewrite app_nil_r. exact x_one_line.
Qed.

End RoundTrip.

(** C3 (as amended).  For an answer [A] that contains neither marker, and two
    actions [x] and [y] that are not empty, have no leading or trailing
    whitespace, are one line each and do not contain [NEXT ACTIONS:], parsing
    [ANSWER: A\n\nNEXT ACTIONS:\n- x\n- y] gives the trimmed [A] as the answer
    and exactly [[x; y]] as the next actions. *)
Theorem parse_round_trip (A x y : str) :
  contains NEXT_ACTIONS A = false ->
  contains ANSWER A = false ->
  contains NEXT_ACTIONS x = false ->
  contains NEXT_ACTIONS y = false ->
  contains [nl] x = false ->
  contains [nl] y = false ->
  trimmed x = true ->
  trimmed y = true ->
  _parse_llm_response (round_trip_text A x y) = Ok (strip A, [x; y]).
Proof.
  intros HA_actions HA_answer Hx Hy Hx_line Hy_line Hx_trim Hy_trim.
  unfold _parse_llm_response.
  assert (E : contains NEXT_ACTIONS (round_trip_text A x y) = true).
  { rewrite round_trip_text_parts. apply contains_occurrence. }
  rewrite E. unfold split at 1, NEXT_ACTIONS at 1. fold NEXT_ACTIONS.
  rewrite (round_trip_split A x y HA_actions Hx Hy).
  cbn [rbind index nth_error length Nat.ltb Nat.leb].
  rewrite (round_trip_answer A HA_answer). cbn [rbind].
  rewrite (round_trip_lines x y Hx_line Hy_line Hy_trim). cbn [rbind fold_left].
  rewrite (parse_action_line_dash [] x Hx_trim).
  rewrite (parse_action_line_dash _ y Hy_trim).
  reflexivity.
Qed.

Lemma parse_round_trip_witness :
  _parse_llm_response
    (round_trip_text (lit " Potassium is stable [Source 1].")
                     (lit "Recheck potassium in 2 weeks")
                     (lit "Review lisinopril dose"))
  = Ok (lit "Potassium is stable [Source 1].",
        [lit "Recheck potassium in 2 weeks"; lit "Review lisinopril dose"]).
Proof.
  exact (parse_round_trip (lit " Potassium is stable [Source 1].")
           (lit "Recheck potassium in 2 weeks") (lit "Review lisinopril dose")
           eq_refl eq_refl eq_refl eq_refl eq_refl eq_refl eq_refl eq_refl).
Defined.

(** C3 as stated fails: an answer that itself contains [ANSWER:] is cut at
    that marker, so the parsed answer is not the trimmed [A]. *)
Lemma parse_round_trip_counterexample :
  _parse_llm_response
    (round_trip_text (lit "Stable. ANSWER: none") (lit "a") (lit "b"))
  <> Ok (strip (lit "Stable. ANSWER: none"), [lit "a"; lit "b"]).
Proof. vm_compute. discriminate. Qed.

(** An action with surrounding whitespace, or an empty one, does not come
    back as written either. *)
Lemma untrimmed_action_not_returned :
  _parse_llm_response (round_trip_text (lit "Stable.") (lit "") (lit "b "))
  = Ok (lit "Stable.", [lit "b"]).
Proof. vm_compute. reflexivity. Qed.

(** C4 (as amended).  The parser returns a result for every text.  For a
    text without [NEXT ACTIONS:] the next actions are the fixed default list;
    the answer is the whole text, trimmed, when [ANSWER:] does not occur in
    it, and when [ANSWER:] occurs once it is the trimmed text that follows
    the marker: what stands before the marker is dropped. *)
Theorem parse_without_next_actions :
  (forall text, exists r, _parse_llm_response text = Ok r) /\
  (forall text, contains NEXT_ACTIONS text = false ->
     exists answer,
       _parse_llm_response text = Ok (answer, DEFAULT_NEXT_ACTIONS) /\
       (contains ANSWER text = false -> answer = strip text) /\
       (forall pre body,
           text = pre ++ ANSWER ++ body ->
           contains ANSWER (pre ++ removelast ANSWER) = false ->
           contains ANSWER body = false ->
           answer = strip body)).
Proof.
  split; [exact parse_total|].
  intros text H. unfold _parse_llm_response. rewrite H.
  destruct (extract_answer_total text) as [a Ea].
  exists a. rewrite Ea. split; [reflexivity|]. split.
  - intro Hno. rewrite (extract_answer_absent text Hno) in Ea. congruence.
  - intros pre body E Hpre Hbody. subst text.
    rewrite (extract_answer_once pre body Hpre Hbody) in Ea.
    congruence.
Qed.

Lemma parse_without_next_actions_witness :
  exists answer,
    _parse_llm_response (lit "Note: ANSWER: Potassium is stable. ")
    = Ok (answer, DEFAULT_NEXT_ACTIONS)
    /\ answer = lit "Potassium is stable.".
Proof.
  destruct (proj2 parse_without_next_actions
              (lit "Note: ANSWER: Potassium is stable. ") eq_refl)
    as [answer [E [_ Honce]]].
  exists answer. split; [exact E|].
  exact (Honce (lit "Note: ") (lit " Potassium is stable. ") eq_refl eq_refl eq_refl).
Defined.

(** C4 as stated fails: the marker need not be leading, and the text before
    it is not part of the answer. *)
Lemma parse_without_next_actions_counterexample :
  contains NEXT_ACTIONS (lit "Summary ANSWER: stable") = false /\
  _parse_llm_response (lit "Summary ANSWER: stable")
  <> Ok (whole_text_answer (lit "Summary ANSWER: stable"), DEFAULT_NEXT_ACTIONS).
Proof. split; [reflexivity|]. vm_compute. discriminate. Qed.

(** ** The prompt builder *)






(** ** The template back end *)

Lemma contains_app_l (sub a b : str) :
  contains sub a = true -> contains sub (a ++ b) = true.
Proof.
  induction a as [|y a IH]; intro H.
  - simpl in H. destruct sub; [|discriminate H]. destruct b; reflexivity.
  - simpl in H. apply orb_true_iff in H.
    change ((y :: a) ++ b) with (y :: a ++ b). cbn [contains].
    apply orb_true_iff. destruct H as [H | H].
    + left. apply (startswith_app_mono sub (y :: a) b H).
    + right. apply IH. exact H.
Qed.

Lemma contains_join (sub sep p : str) (parts : list str) :
  In p parts -> contains sub p = true -> contains sub (join sep parts) = true.
Proof.
  intros Hin Hp. induction parts as [|q parts IH]; [contradiction|].
  destruct Hin as [-> | Hin].
  - destruct parts; [exact Hp|]. simpl. apply contains_app_l. exact Hp.
  - destruct parts as [|q' parts]; [contradiction|].
    change (join sep (q :: q' :: parts)) with (q ++ sep ++ join sep (q' :: parts)).
    apply contains_app_r, contains_app_r, IH. exact Hin.
Qed.

Lemma str_eqb_eq (a b : str) : str_eqb a b = true <-> a = b.
Proof.
  revert b. induction a as [|x a IH]; intros [|y b]; simpl;
    try (split; [discriminate | discriminate]); [tauto|].
  rewrite andb_true_iff, char_eqb_eq, IH. split.
  - intros [-> ->]. reflexivity.
  - intro E. injection E as -> ->. tauto.
Qed.

Lemma filter_type_nonempty (env : Env) (t : str) (sources : list CopilotSource) :
  (exists s, In s sources /\ source_type s = t) ->
  truthy (filter (is_type t) sources) = true.
Proof.
  intros [s [Hin Ht]].
  assert (H : In s (filter (is_type t) sources)).
  { apply filter_In. split; [exact Hin|]. apply str_eqb_eq. exact Ht. }
  destruct (filter (is_type t) sources); [contradiction | reflexivity].
Qed.

Lemma changes_response_headers (patient_name : str)
    (notes labs meds : list CopilotSource) :
  truthy meds = true -> truthy labs = true ->
  contains (lit "Medication Changes")
           (_template_changes_response patient_name notes labs meds) = true
  /\ contains (lit "Lab Results")
              (_template_changes_response patient_name notes labs meds) = true.
Proof.
  intros Hm Hl. unfold _template_changes_response. rewrite Hm, Hl.
  cbn [orb negb].
  split.
  - apply contains_join with (p := lit "**Medication Changes:**"); [|reflexivity].
    destruct (truthy notes); rewrite ?in_app_iff; cbn [In]; auto 12.
  - apply contains_join with (p := nl :: lit "**Lab Results:**"); [|reflexivity].
    destruct (truthy notes); rewrite ?in_app_iff; cbn [In]; auto 12.
Qed.

(** C9.  For the question [What changed in the last 90 days?] and sources
    with at least one [med] and at least one [lab], the template back end
    answers with the changes template, the answer contains the headers
    [Medication Changes] and [Lab Results], and the next actions are the
    three fixed actions of that template; no model is named. *)
Theorem changes_template_selected (env : Env) (patient_name : str)
    (sources : list CopilotSource) :
  (exists s, In s sources /\ source_type s = lit "med") ->
  (exists s, In s sources /\ source_type s = lit "lab") ->
  exists answer,
    _generate_template_response env (lit "What changed in the last 90 days?")
                                patient_name sources
    = (answer,
       [ lit "Review medication changes with patient";
         lit "Confirm lab trends are in expected direction";
         lit "Schedule follow-up to assess treatment response" ],
       None)
    /\ answer = _template_changes_response patient_name
                  (filter (is_type (lit "note")) sources)
                  (filter (is_type (lit "lab")) sources)
                  (filter (is_type (lit "med")) sources)
    /\ contains (lit "Medication Changes") answer = true
    /\ contains (lit "Lab Results") answer = true.
Proof.
  intros Hmed Hlab. eexists. split; [|split; [reflexivity|]].
  - unfold _generate_template_response.
    change (lower env (lit "What changed in the last 90 days?"))
      with (lit "what changed in the last 90 days?").
    change (contains (lit "last 90 days") (lit "what changed in the last 90 days?"))
      with true.
    reflexivity.
  - apply changes_response_headers; apply (filter_type_nonempty env); assumption.
Qed.

Lemma changes_template_selected_witness :
  exists answer,
    fst (fst (_generate_template_response
                (sample_env sample_settings_template unavailable unavailable unavailable)
                (lit "What changed in the last 90 days?") (lit "Jane Doe")
                [ {| source_type := lit "med"; source_id := 1; label := lit "Lisinopril 20mg";
                     snippet := lit "daily"; score := 1%float; metadata := None |};
                  {| source_type := lit "lab"; source_id := 2; label := lit "Potassium";
                     snippet := lit "4.9 mmol/L"; score := 1%float; metadata := None |} ]))
    = answer
    /\ contains (lit "Medication Changes") answer = true.
Proof.
  destruct (changes_template_selected
              (sample_env sample_settings_template unavailable unavailable unavailable)
              (lit "Jane Doe")
              [ {| source_type := lit "med"; source_id := 1; label := lit "Lisinopril 20mg";
                   snippet := lit "daily"; score := 1%float; metadata := None |};
                {| source_type := lit "lab"; source_id := 2; label := lit "Potassium";
                   snippet := lit "4.9 mmol/L"; score := 1%float; metadata := None |} ])
    as [answer [E [_ [Hm _]]]].
  - eexists. split; [left; reflexivity | reflexivity].
  - eexists. split; [right; left; reflexivity | reflexivity].
  - exists answer. rewrite E. split; [reflexivity | exact Hm].
Defined.

(** ** Retrieval *)

(** What [retrieve_context] returns, by the outcome of the store call and of
    the processing of its rows; it never raises. *)
Lemma retrieve_context_run (env : Env) (pid query : str) (n : Z) (w : world) :
  retrieve_context env pid query n w
  = (Ok match execute_query_retrieve env pid query n with
        | Ok rows =>
            match has_vector_results rows, map_result (process_row env) rows with
            | Ok hv, Ok ps => (ps, if hv then VECTOR else KEYWORD)
            | _, _ => ([], ERROR)
            end
        | Raise _ => ([], ERROR)
        end,
     add_call (CallRetrieveContext pid query n) w).
Proof.
  unfold retrieve_context, try_except, bind, record_call, lift, ret, add_call.
  destruct (execute_query_retrieve env pid query n) as [rows|e]; [|reflexivity].
  destruct (has_vector_results rows) as [hv|e]; [|reflexivity].
  destruct (map_result (process_row env) rows) as [ps|e]; reflexivity.
Qed.






(** ** Back-end selection *)

Lemma has_azure_openai_spec (s : Settings) :
  has_azure_openai s = true <->
  exists endpoint key,
    azure_openai_endpoint s = Some endpoint /\ azure_openai_key s = Some key
    /\ endpoint <> [] /\ key <> [].
Proof.
  unfold has_azure_openai, truthy_opt.
  destruct (azure_openai_endpoint s) as [[|c e]|], (azure_openai_key s) as [[|d k]|];
    simpl; split; try discriminate;
    try (intros [e' [k' [E1 [E2 [N1 N2]]]]]; congruence).
  intros _. eexists. eexists. repeat split; discriminate.
Qed.

Lemma make_client_configured (s : Settings) :
  has_azure_openai s = true -> exists client, make_client s = Ok client.
Proof.
  intro H. apply has_azure_openai_spec in H.
  destruct H as [e [k [E1 [E2 _]]]]. unfold make_client. rewrite E1, E2. eauto.
Qed.

Lemma generate_answer_template (env : Env) (q name : str)
    (srcs : list CopilotSource) (w : world) :
  has_azure_openai (get_settings env) = false ->
  generate_answer env q name srcs w
  = (Ok (_generate_template_response env q name srcs), w).
Proof. intro H. unfold generate_answer. rewrite H. reflexivity. Qed.

Lemma generate_answer_hosted (env : Env) (q name : str)
    (srcs : list CopilotSource) (w : world) :
  has_azure_openai (get_settings env) = true ->
  exists client,
    make_client (get_settings env) = Ok client /\
    let req := make_request client (get_settings env)
                 (snd (_build_context_and_prompt env q name srcs)) false in
    generate_answer env q name srcs w
    = (Ok match responses_create env req with
          | Ok text =>
              match _parse_llm_response text with
              | Ok (a, na) =>
                  (a, na, Some (azure_openai_chat_deployment (get_settings env)))
              | Raise _ => _generate_template_response env q name srcs
              end
          | Raise _ => _generate_template_response env q name srcs
          end,
       add_call (CallResponses req) w).
Proof.
  intro H. destruct (make_client_configured _ H) as [client Ec].
  exists client. split; [exact Ec|]. cbv zeta.
  unfold generate_answer. rewrite H.
  unfold _generate_with_openai, try_except, bind, lift, record_call, ret, add_call.
  rewrite Ec.
  destruct (responses_create env _) as [text|e]; [|reflexivity].
  destruct (_parse_llm_response text) as [[a na]|e]; reflexivity.
Qed.

Lemma generate_answer_ok (env : Env) (q name : str)
    (srcs : list CopilotSource) (w : world) :
  exists r w', generate_answer env q name srcs w = (Ok r, w').
Proof.
  destruct (has_azure_openai (get_settings env)) eqn:H.
  - destruct (generate_answer_hosted env q name srcs w H) as [client [_ E]].
    rewrite E. eauto.
  - rewrite (generate_answer_template env q name srcs w H). eauto.
Qed.

Lemma template_response_model (env : Env) (q name : str) (srcs : list CopilotSource) :
  snd (_generate_template_response env q name srcs) = None.
Proof.
  unfold _generate_template_response.
  repeat match goal with |- context [if ?c then _ else _] => destruct c end;
    reflexivity.
Qed.

(** C8.  [generate_answer] calls the hosted model exactly when both the
    endpoint and the key are configured (set and not empty).  When they are
    not, it makes no call and returns the template response.  When they
    are, it makes one non-streaming call; if that call raises, the template
    response is returned in place of the failure.  The template response
    names no model, and [generate_answer] never raises. *)
Theorem backend_selection (env : Env) (q name : str)
    (srcs : list CopilotSource) (w : world) :
  let settings := get_settings env in
  let template := _generate_template_response env q name srcs in
  let out := generate_answer env q name srcs w in
  (has_azure_openai settings = true <->
     exists endpoint key,
       azure_openai_endpoint settings = Some endpoint
       /\ azure_openai_key settings = Some key /\ endpoint <> [] /\ key <> [])
  /\ (has_azure_openai settings = true ->
        exists req,
          calls (snd out) = calls w ++ [CallResponses req]
          /\ stream req = false
          /\ (forall e, responses_create env req = Raise e -> fst out = Ok template)
          /\ (forall text, responses_create env req = Ok text ->
                exists a na,
                  fst out = Ok (a, na, Some (azure_openai_chat_deployment settings))
                  /\ _parse_llm_response text = Ok (a, na)))
  /\ (has_azure_openai settings = false ->
        calls (snd out) = calls w /\ fst out = Ok template)
  /\ snd template = None
  /\ exists r, fst out = Ok r.
Proof.
  cbv zeta. split; [apply has_azure_openai_spec|]. split; [|split; [|split]].
  - intro H. destruct (generate_answer_hosted env q name srcs w H) as [client [_ E]].
    cbv zeta in E. rewrite E. eexists. split; [reflexivity|]. split; [reflexivity|].
    cbn [fst]. split.
    + intros e He. rewrite He. reflexivity.
    + intros text Ht. rewrite Ht.
      destruct (parse_total text) as [[a na] Ep]. rewrite Ep. eauto.
  - intro H. rewrite (generate_answer_template env q name srcs w H).
    split; reflexivity.
  - apply template_response_model.
  - destruct (generate_answer_ok env q name srcs w) as [r [w' E]].
    rewrite E. exists r. reflexivity.
Qed.

Lemma backend_selection_witness :
  fst (generate_answer
         (sample_env sample_settings_hosted unavailable unavailable unavailable)
         (lit "What changed in the last 90 days?") (lit "Jane Doe") [] world0)
  = Ok (_generate_template_response
          (sample_env sample_settings_hosted unavailable unavailable unavailable)
          (lit "What changed in the last 90 days?") (lit "Jane Doe") []).
Proof.
  destruct (proj1 (proj2 (backend_selection
              (sample_env sample_settings_hosted unavailable unavailable unavailable)
              (lit "What changed in the last 90 days?") (lit "Jane Doe") [] world0))
              eq_refl) as [req [_ [_ [Hfail _]]]].
  exact (Hfail (ExternalError (lit "unavailable")) eq_refl).
Defined.

(** ** The non-streaming route *)

(** C6.  When the context-store call raises, [retrieve_context] returns no
    results with the tag [error] and does not raise; for a known patient
    [ask_copilot] then still returns a response, with no sources, the tag
    [error], and the answer that [generate_answer] gives for zero sources. *)
Theorem retrieval_failure_degrades (env : Env) (pid : str) (req : CopilotRequest)
    (p : patient) (e : exn) (w : world) :
  execute_one_patient env pid = Ok (Some p) ->
  execute_query_retrieve env pid (question req) (max_sources req) = Raise e ->
  (forall w0,
      fst (retrieve_context env pid (question req) (max_sources req) w0)
      = Ok ([], ERROR))
  /\ exists resp w1 w2,
       ask_copilot env pid req w = (Ok resp, w2)
       /\ sources resp = []
       /\ retrieval_method resp = ERROR
       /\ In (CallRetrieveContext pid (question req) (max_sources req)) (calls w2)
       /\ generate_answer env (question req) (display_name p) [] w1
          = (Ok (answer resp, next_actions resp, model_used resp), w2).
Proof.
  intros Hp He. split.
  - intro w0. rewrite retrieve_context_run, He. reflexivity.
  - unfold ask_copilot, bind, record_call, lift, try_except.
    rewrite Hp. rewrite retrieve_context_run, He. cbn [map_result].
    set (w1 := add_call _ (Build_world _ _)).
    destruct (generate_answer_ok env (question req) (display_name p) [] w1)
      as [[[a na] m] [w2 E]].
    rewrite E. unfold ret.
    eexists. exists w1, w2. split; [reflexivity|]. cbn.
    split; [reflexivity|]. split; [reflexivity|]. split; [|exact E].
    assert (Hin : In (CallRetrieveContext pid (question req) (max_sources req)) (calls w1)).
    { subst w1. cbn. apply in_or_app. right. left. reflexivity. }
    clear - Hin E.
    destruct (has_azure_openai (get_settings env)) eqn:H.
    + destruct (generate_answer_hosted env (question req) (display_name p) [] w1 H)
        as [client [_ E']]. cbv zeta in E'. rewrite E' in E.
      injection E as _ <-. cbn. apply in_or_app. left. exact Hin.
    + rewrite (generate_answer_template env _ _ [] w1 H) in E.
      injection E as _ <-. exact Hin.
Qed.

Lemma retrieval_failure_degrades_witness :
  exists resp w2,
    ask_copilot (sample_env sample_settings_template unavailable unavailable unavailable)
                (lit "p1") sample_request world0
    = (Ok resp, w2)
    /\ sources resp = [] /\ retrieval_method resp = ERROR.
Proof.
  destruct (retrieval_failure_degrades
              (sample_env sample_settings_template unavailable unavailable unavailable)
              (lit "p1") sample_request
              {| patient_id := lit "p1"; display_name := lit "Jane Doe" |}
              (ExternalError (lit "unavailable")) world0 eq_refl eq_refl)
    as [_ [resp [w1 [w2 [E [Hs [Ht _]]]]]]].
  exists resp, w2. repeat split; assumption.
Defined.

(** ** Streams *)

Lemma add_sent_add_sent (a b : list StreamEvent) (w : world) :
  add_sent b (add_sent a w) = add_sent (a ++ b) w.
Proof. unfold add_sent. cbn. rewrite app_assoc. reflexivity. Qed.

Lemma add_sent_nil (w : world) : add_sent [] w = w.
Proof. destruct w. unfold add_sent. cbn. rewrite app_nil_r. reflexivity. Qed.

Lemma for_each_yield {A} (f : A -> StreamEvent) (l : list A) :
  forall w, for_each l (fun x => yield (f x)) w = (Ok tt, add_sent (map f l) w).
Proof.
  induction l as [|x l IH]; intro w.
  - simpl. rewrite add_sent_nil. reflexivity.
  - cbn [for_each map]. unfold bind. unfold yield at 1.
    fold (add_sent [f x] w). rewrite IH, add_sent_add_sent. reflexivity.
Qed.

Lemma stream_loop_run (events : list api_event) (failure : option exn) :
  forall full w,
    stream_loop events failure full w
    = (match failure with
       | Some e => Raise e
       | None => Ok (full ++ concat (event_deltas events))
       end,
       add_sent (map EvDelta (event_deltas events)) w).
Proof.
  induction events as [|ev events IH]; intros full w.
  - simpl. rewrite add_sent_nil, app_nil_r.
    destruct failure; reflexivity.
  - destruct ev as [t|ty]; cbn [stream_loop event_deltas map concat].
    + unfold bind. unfold yield at 1. fold (add_sent [EvDelta t] w).
      rewrite IH, add_sent_add_sent, <- app_assoc. reflexivity.
    + apply IH.
Qed.

Lemma delta_texts_app (a b : list StreamEvent) :
  delta_texts (a ++ b) = delta_texts a ++ delta_texts b.
Proof.
  induction a as [|ev a IH]; [reflexivity|].
  destruct ev; simpl; rewrite IH; reflexivity.
Qed.

Lemma delta_texts_sources (srcs : list CopilotSource) :
  delta_texts (map EvSource srcs) = [].
Proof. induction srcs; [reflexivity | exact IHsrcs]. Qed.

Lemma delta_texts_deltas (texts : list str) :
  delta_texts (map EvDelta texts) = texts.
Proof. induction texts; simpl; [reflexivity | rewrite IHtexts; reflexivity]. Qed.

(** *** The three-word groups of the template stream *)

Lemma range_from_past (fuel start stop step : nat) :
  stop <= start -> range_from fuel start stop step = [].
Proof.
  intro H. destruct fuel; [reflexivity|]. simpl.
  destruct (Nat.ltb_spec start stop); [lia | reflexivity].
Qed.

Lemma slice_after {A} (pre l : list A) (k : nat) :
  slice (pre ++ l) (length pre) (length pre + k) = firstn k l.
Proof.
  unfold slice. rewrite skipn_app, skipn_all, Nat.sub_diag. simpl.
  f_equal. lia.
Qed.

(** The slices [words[i:i+3]] for [i] in [range(0, len(words), 3)] are the
    consecutive groups of at most three words. *)
Lemma range_slices {A} (fuel : nat) :
  forall (pre l : list A),
    length l <= fuel ->
    map (fun i => slice (pre ++ l) i (i + 3))
        (range_from fuel (length pre) (length pre + length l) 3)
    = chunks3 l.
Proof.
  induction fuel as [|fuel IH]; intros pre l Hlen.
  - destruct l; [reflexivity | simpl in Hlen; lia].
  - destruct l as [|a [|b [|c rest]]]; cbn [range_from].
    + simpl. rewrite Nat.add_0_r, Nat.ltb_irrefl. reflexivity.
    + destruct (Nat.ltb_spec (length pre) (length pre + length [a]));
        [|simpl in *; lia].
      cbn [map]. rewrite range_from_past by (simpl; lia).
      rewrite slice_after. reflexivity.
    + destruct (Nat.ltb_spec (length pre) (length pre + length [a; b]));
        [|simpl in *; lia].
      cbn [map]. rewrite range_from_past by (simpl; lia).
      rewrite slice_after. reflexivity.
    + destruct (Nat.ltb_spec (length pre) (length pre + length (a :: b :: c :: rest)));
        [|simpl in *; lia].
      cbn [map chunks3]. rewrite slice_after. cbn [firstn]. f_equal.
      replace (pre ++ a :: b :: c :: rest) with ((pre ++ [a; b; c]) ++ rest)
        by (rewrite <- app_assoc; reflexivity).
      replace (length pre + 3) with (length (pre ++ [a; b; c]))
        by (rewrite length_app; reflexivity).
      replace (length pre + length (a :: b :: c :: rest))
        with (length (pre ++ [a; b; c]) + length rest)
        by (rewrite length_app; simpl; lia).
      apply IH. simpl in Hlen. lia.
Qed.

Lemma chunk_texts_spec (words : list str) :
  map (chunk_text words) (range 0 (length words) 3)
  = map (fun g => join [sp] g ++ [sp]) (chunks3 words).
Proof.
  rewrite <- (range_slices (length words) [] words (le_n _)).
  unfold range. rewrite Nat.sub_0_r, map_map. reflexivity.
Qed.

(** Regrouping does not change the text: every word is followed by one
    space. *)
Lemma chunks3_flatten (words : list str) :
  forall n, length words <= n ->
    concat (map (fun g => join [sp] g ++ [sp]) (chunks3 words))
    = concat (map (fun w => w ++ [sp]) words).
Proof.
  intro n. revert words. induction n as [|n IH]; intros words Hlen.
  - destruct words; [reflexivity | simpl in Hlen; lia].
  - destruct words as [|a [|b [|c rest]]]; try reflexivity.
    + simpl. rewrite !app_nil_r, <- !app_assoc. reflexivity.
    + cbn [chunks3 map concat]. rewrite (IH rest) by (simpl in Hlen; lia).
      simpl. rewrite <- !app_assoc. simpl. rewrite <- !app_assoc. reflexivity.
Qed.

(** *** [split()] *)

Lemma split_ws_go_words (s : str) :
  forall cur,
    forallb (fun c => negb (isspace c)) cur = true ->
    Forall is_word (split_ws_go cur s).
Proof.
  assert (Hrev : forall cur, cur <> [] ->
            forallb (fun c => negb (isspace c)) cur = true -> is_word (rev cur)).
  { intros cur Hne Hc. split.
    - intro E. apply Hne. rewrite <- (rev_involutive cur), E. reflexivity.
    - rewrite forallb_forall in *. intros c Hin. apply Hc, in_rev. exact Hin. }
  induction s as [|c s IH]; intros cur Hcur.
  - simpl. destruct cur; constructor; [apply Hrev; [discriminate | exact Hcur] | constructor].
  - simpl. destruct (isspace c) eqn:Ec.
    + destruct cur as [|d cur]; [apply IH; reflexivity|].
      constructor; [apply Hrev; [discriminate | exact Hcur] | apply IH; reflexivity].
    + apply IH. simpl. rewrite Ec. exact Hcur.
Qed.

Lemma split_ws_words (s : str) : Forall is_word (split_ws s).
Proof. apply split_ws_go_words. reflexivity. Qed.

Lemma split_ws_go_word (w rest : str) :
  forallb (fun c => negb (isspace c)) w = true ->
  forall cur,
    split_ws_go cur (w ++ sp :: rest)
    = match rev w ++ cur with
      | [] => split_ws_go [] rest
      | cur' => rev cur' :: split_ws_go [] rest
      end.
Proof.
  induction w as [|c w IH]; intros Hw cur.
  - simpl. destruct cur; reflexivity.
  - simpl in Hw. apply andb_true_iff in Hw. destruct Hw as [Hc Hw].
    apply negb_true_iff in Hc. simpl. rewrite Hc, (IH Hw), <- app_assoc.
    reflexivity.
Qed.

(** Words followed by one space each split back into the same words. *)
Lemma split_ws_spaced (words : list str) :
  Forall is_word words ->
  split_ws (concat (map (fun w => w ++ [sp]) words)) = words.
Proof.
  unfold split_ws. induction 1 as [|w words [Hne Hw] _ IH]; [reflexivity|].
  cbn [map concat]. rewrite <- app_assoc. cbn [app].
  rewrite (split_ws_go_word w _ Hw), app_nil_r.
  destruct (rev w) eqn:Er.
  - exfalso. apply Hne. rewrite <- (rev_involutive w), Er. reflexivity.
  - rewrite <- Er, rev_involutive, IH. reflexivity.
Qed.

Lemma spaced_no_newline (words : list str) :
  Forall is_word words -> ~ In nl (concat (map (fun w => w ++ [sp]) words)).
Proof.
  induction 1 as [|w words [_ Hw] _ IH]; [intros []|].
  cbn [map concat]. rewrite !in_app_iff. intros [[Hin | Hin] | Hin].
  - rewrite forallb_forall in Hw. specialize (Hw nl Hin). discriminate Hw.
  - destruct Hin as [E | []]. discriminate E.
  - exact (IH Hin).
Qed.

Lemma split_ws_go_nonempty (s : str) :
  forall cur, cur <> [] -> split_ws_go cur s <> [].
Proof.
  induction s as [|c s IH]; intros cur Hne.
  - simpl. destruct cur; [congruence | discriminate].
  - simpl. destruct (isspace c).
    + destruct cur; [congruence | discriminate].
    + apply IH. discriminate.
Qed.

(** *** The shape of a template answer *)

Ltac split_conditions :=
  repeat match goal with
    | |- context [if ?c then _ else _] => destruct c
    | |- context [match find ?f ?l with Some _ => _ | None => _ end] =>
        destruct (find f l)
    end.

(** Every template answer is a join, by newlines, of parts of which the
    first starts with a letter and ends with a newline. *)
Lemma template_answer_shape (env : Env) (q name : str) (srcs : list CopilotSource) :
  exists p0 tl,
    fst (fst (_generate_template_response env q name srcs)) = join [nl] (p0 :: tl)
    /\ isspace (hd sp p0) = false /\ In nl p0.
Proof.
  unfold _generate_template_response.
  destruct (_ || _ || _); [|destruct (_ || _); [|destruct (_ || _)]]; cbn [fst].
  - unfold _template_changes_response. split_conditions; cbn [app];
      (eexists; eexists; split; [reflexivity|]; split; [reflexivity|];
       rewrite ?in_app_iff; cbn [In]; auto 8).
  - unfold _template_medication_response. split_conditions; cbn [app];
      (eexists; eexists; split; [reflexivity|]; split; [reflexivity|];
       rewrite ?in_app_iff; cbn [In]; auto 8).
  - unfold _template_risk_response. cbn [app].
    eexists; eexists; split; [reflexivity|]; split; [reflexivity|].
    rewrite ?in_app_iff; cbn [In]; auto 8.
  - unfold _template_generic_response. split_conditions; cbn [app];
      (eexists; eexists; split; [reflexivity|]; split; [reflexivity|];
       rewrite ?in_app_iff; cbn [In]; auto 8).
Qed.

Lemma join_head (sep p0 : str) (tl : list str) :
  exists r, join sep (p0 :: tl) = p0 ++ r.
Proof.
  destruct tl as [|p1 tl].
  - exists []. simpl. rewrite app_nil_r. reflexivity.
  - eexists. reflexivity.
Qed.

Lemma template_answer_newline (env : Env) (q name : str) (srcs : list CopilotSource) :
  In nl (fst (fst (_generate_template_response env q name srcs))).
Proof.
  destruct (template_answer_shape env q name srcs) as [p0 [tl [E [_ Hnl]]]].
  rewrite E. destruct (join_head [nl] p0 tl) as [r Er]. rewrite Er.
  apply in_or_app. left. exact Hnl.
Qed.

Lemma template_answer_words (env : Env) (q name : str) (srcs : list CopilotSource) :
  split_ws (fst (fst (_generate_template_response env q name srcs))) <> [].
Proof.
  destruct (template_answer_shape env q name srcs) as [p0 [tl [E [Hc _]]]].
  rewrite E. destruct (join_head [nl] p0 tl) as [r Er]. rewrite Er.
  destruct p0 as [|c p0]; [discriminate Hc|].
  simpl in Hc. unfold split_ws. simpl. rewrite Hc.
  apply split_ws_go_nonempty. discriminate.
Qed.

Lemma range_nonempty (n : nat) : n <> 0 -> range 0 n 3 <> [].
Proof. destruct n; [congruence | discriminate]. Qed.

(** *** What a stream sends *)

Lemma template_stream_run (env : Env) (q name : str) (srcs : list CopilotSource)
    (w : world) :
  has_azure_openai (get_settings env) = false ->
  let response := _generate_template_response env q name srcs in
  let words := split_ws (fst (fst response)) in
  generate_answer_stream env q name srcs w
  = (Ok tt,
     add_sent (map EvSource srcs
               ++ map EvDelta (map (chunk_text words) (range 0 (length words) 3))
               ++ [EvActions (snd (fst response)); EvDone None (lit "template")])
              w).
Proof.
  intro H. cbv zeta. unfold generate_answer_stream. rewrite H. cbn [negb].
  destruct (_generate_template_response env q name srcs) as [[a na] m].
  cbn [fst snd]. unfold bind.
  rewrite for_each_yield.
  rewrite (for_each_yield (fun i => EvDelta (chunk_text (split_ws a) i))).
  unfold yield. cbn [calls sent add_sent].
  unfold add_sent. rewrite <- !app_assoc, map_map. reflexivity.
Qed.

Lemma hosted_stream_run (env : Env) (q name : str) (srcs : list CopilotSource)
    (w : world) :
  has_azure_openai (get_settings env) = true ->
  exists w' texts tail,
    generate_answer_stream env q name srcs w = (Ok tt, w')
    /\ sent w' = sent w ++ map EvSource srcs ++ map EvDelta texts ++ tail
    /\ ((exists acts,
           tail = [EvActions acts;
                   EvDone (Some (azure_openai_chat_deployment (get_settings env))) VECTOR])
        \/ (exists msg, tail = [EvError msg])).
Proof.
  intro H. unfold generate_answer_stream. rewrite H. cbn [negb].
  destruct (make_client_configured _ H) as [client Ec].
  unfold _stream_with_openai, try_except, bind, lift, record_call.
  rewrite Ec, for_each_yield.
  destruct (responses_create_stream env _) as [st|e].
  - rewrite stream_loop_run. destruct (stream_failure st) as [e|].
    + eexists. exists (event_deltas (stream_events st)), [EvError (str_of_exn e)].
      split; [reflexivity|]. split; [|right; eauto].
      cbn. rewrite <- !app_assoc. reflexivity.
    + destruct (parse_total ([] ++ concat (event_deltas (stream_events st))))
        as [[a na] Ep].
      rewrite Ep. eexists. exists (event_deltas (stream_events st)). eexists.
      split; [reflexivity|]. split; [|left; eauto].
      cbn. rewrite <- !app_assoc. reflexivity.
  - eexists. exists [], [EvError (str_of_exn e)].
    split; [reflexivity|]. split; [|right; eauto].
    cbn. rewrite <- !app_assoc. reflexivity.
Qed.

(** Both back ends: sources, deltas, then either actions and done, or (hosted
    back end only) one error. *)
Lemma answer_stream_run (env : Env) (q name : str) (srcs : list CopilotSource)
    (w : world) :
  exists w' texts tail,
    generate_answer_stream env q name srcs w = (Ok tt, w')
    /\ sent w' = sent w ++ map EvSource srcs ++ map EvDelta texts ++ tail
    /\ ((exists acts,
           tail = [EvActions acts; EvDone (fst (done_payload env)) (snd (done_payload env))]
           /\ (has_azure_openai (get_settings env) = false -> texts <> []))
        \/ (has_azure_openai (get_settings env) = true
            /\ exists msg, tail = [EvError msg])).
Proof.
  unfold done_payload. destruct (has_azure_openai (get_settings env)) eqn:H.
  - destruct (hosted_stream_run env q name srcs w H)
      as [w' [texts [tail [E [Hs [[acts Ht] | Ht]]]]]];
      exists w', texts, tail; (split; [exact E|]); (split; [exact Hs|]).
    + left. exists acts. split; [exact Ht | discriminate].
    + right. split; [reflexivity | exact Ht].
  - rewrite (template_stream_run env q name srcs w H).
    eexists. eexists. eexists. split; [reflexivity|]. split; [reflexivity|].
    left. eexists. split; [reflexivity|]. intros _ E.
    apply map_eq_nil in E. apply (range_nonempty _ (fun E' =>
      template_answer_words env q name srcs (proj1 (length_zero_iff_nil _) E'))).
    exact E.
Qed.

Lemma generate_stream_run (env : Env) (pid : str) (req : CopilotRequest)
    (pat : patient) (w : world) :
  exists w' evs,
    generate_stream env pid req pat w = (Ok tt, w')
    /\ sent w' = sent w ++ evs
    /\ ((exists msg, evs = [EvError msg])
        \/ exists ctx tag srcs texts tail,
             fst (retrieve_context env pid (question req) (max_sources req) w)
             = Ok (ctx, tag)
             /\ map_result to_source ctx = Ok srcs
             /\ evs = EvMetadata tag :: map EvSource srcs ++ map EvDelta texts ++ tail
             /\ ((exists acts,
                    tail = [EvActions acts;
                            EvDone (fst (done_payload env)) (snd (done_payload env))]
                    /\ (has_azure_openai (get_settings env) = false -> texts <> []))
                 \/ (has_azure_openai (get_settings env) = true
                     /\ exists msg, tail = [EvError msg]))).
Proof.
  unfold generate_stream, try_except, bind.
  generalize (retrieve_context_run env pid (question req) (max_sources req) w).
  destruct (retrieve_context env pid (question req) (max_sources req) w) as [r w1].
  intro Hrun. injection Hrun as Hr Hw.
  destruct r as [[ctx tag]|e]; [clear Hr | discriminate Hr]. subst w1.
  unfold lift. destruct (map_result to_source ctx) as [srcs|e] eqn:Es.
  - unfold yield at 1. cbn [calls sent add_call].
    match goal with
    | |- context [generate_answer_stream _ _ _ _ ?w1] =>
        destruct (answer_stream_run env (question req) (display_name pat) srcs w1)
          as [w' [texts [tail [E [Hs Ht]]]]]
    end.
    rewrite E. exists w'. eexists. split; [reflexivity|]. split.
    + rewrite Hs. cbn [sent]. rewrite <- app_assoc. reflexivity.
    + right. exists ctx, tag, srcs, texts, tail. repeat split; try reflexivity; assumption.
  - eexists. eexists. split; [reflexivity|]. split; [reflexivity|].
    left. eauto.
Qed.

Lemma drop_source_events (srcs : list CopilotSource) (rest : list EventType) :
  drop_while_type source (map event_type (map EvSource srcs) ++ rest)
  = drop_while_type source rest.
Proof. induction srcs; [reflexivity | exact IHsrcs]. Qed.

Lemma drop_delta_events (texts : list str) (rest : list EventType) :
  drop_while_type delta (map event_type (map EvDelta texts) ++ rest)
  = drop_while_type delta rest.
Proof. induction texts; [reflexivity | exact IHtexts]. Qed.

Lemma metadata_first_order_holds (tag : str) (srcs : list CopilotSource)
    (texts acts : list str) (m : option str) (t : str) :
  metadata_first_order
    (map event_type
       (EvMetadata tag :: map EvSource srcs ++ map EvDelta texts
          ++ [EvActions acts; EvDone m t])) = true.
Proof.
  cbn [map event_type metadata_first_order]. rewrite !map_app.
  rewrite drop_source_events.
  destruct texts as [|x texts]; [reflexivity|].
  cbn [map event_type app drop_while_type EventType_eqb].
  rewrite drop_delta_events. reflexivity.
Qed.

(** C1 (as amended).  The generator of a stream never raises.  A stream that
    does not error sends, in this order: one metadata event with the
    retrieval-method tag, one source event per retrieved source in retrieval
    order, zero or more delta events (at least one with the template back
    end), one actions event and one done event.  A stream that errors sends
    a prefix of metadata, sources and deltas (possibly nothing at all) and
    then a single error event.  Hence the metadata event precedes every
    source event, and every source event precedes every delta event. *)
Theorem stream_event_order (env : Env) (pid : str) (req : CopilotRequest)
    (pat : patient) :
  let out := generate_stream env pid req pat world0 in
  let evs := sent (snd out) in
  fst out = Ok tt
  /\ ((exists ctx tag srcs texts acts m t,
         fst (retrieve_context env pid (question req) (max_sources req) world0)
         = Ok (ctx, tag)
         /\ map_result to_source ctx = Ok srcs
         /\ evs = EvMetadata tag :: map EvSource srcs ++ map EvDelta texts
                    ++ [EvActions acts; EvDone m t]
         /\ (has_azure_openai (get_settings env) = false -> texts <> [])
         /\ metadata_first_order (map event_type evs) = true)
      \/ (exists prefix msg,
            evs = prefix ++ [EvError msg]
            /\ (prefix = []
                \/ exists tag srcs texts,
                     prefix = EvMetadata tag :: map EvSource srcs ++ map EvDelta texts))).
Proof.
  cbv zeta.
  destruct (generate_stream_run env pid req pat world0)
    as [w' [evs [E [Hs [[msg He] | [ctx [tag [srcs [texts [tail [Hr [Hc [He Ht]]]]]]]]]]]]];
    rewrite E; cbn [fst snd]; rewrite Hs; cbn [sent world0 app];
    (split; [reflexivity|]).
  - right. exists [], msg. split; [exact He | left; reflexivity].
  - destruct Ht as [[acts [Ht Hk]] | [_ [msg Ht]]]; subst tail evs.
    + left. exists ctx, tag, srcs, texts, acts. eexists. eexists.
      split; [exact Hr|]. split; [exact Hc|]. split; [reflexivity|].
      split; [exact Hk|]. apply metadata_first_order_holds.
    + right. exists (EvMetadata tag :: map EvSource srcs ++ map EvDelta texts), msg.
      split.
      * cbn [app]. rewrite <- !app_assoc. reflexivity.
      * right. eauto.
Qed.

(** C1 as stated fails: with two retrieved sources the stream opens with the
    metadata event and the source events follow it, so the order is not
    [source*, metadata, delta+, actions, done], although nothing errors. *)
Lemma stream_event_order_counterexample :
  let env := sample_env sample_settings_template (Ok sample_rows) unavailable unavailable in
  let out := generate_stream env (lit "p1") sample_request sample_patient world0 in
  let tys := map event_type (sent (snd out)) in
  fst out = Ok tt
  /\ ~ In error tys
  /\ firstn 4 tys = [metadata_; source; source; delta]
  /\ sources_then_metadata_order tys = false.
Proof.
  cbv zeta. split; [vm_compute; reflexivity|]. split; [|split].
  - vm_compute. intuition discriminate.
  - vm_compute. reflexivity.
  - vm_compute. reflexivity.
Qed.

Lemma in_done_sources (m : option str) (t : str) (srcs : list CopilotSource) :
  ~ In (EvDone m t) (map EvSource srcs).
Proof. induction srcs as [|s srcs IH]; [intros [] | intros [E | H]; [discriminate E | exact (IH H)]]. Qed.

Lemma in_done_deltas (m : option str) (t : str) (texts : list str) :
  ~ In (EvDone m t) (map EvDelta texts).
Proof. induction texts as [|s texts IH]; [intros [] | intros [E | H]; [discriminate E | exact (IH H)]]. Qed.

(** C2 (as amended).  When a stream sends a done event, that event is the
    last one and carries the model identifier and a tag fixed by the back
    end: the deployment name and [vector] for the hosted back end, no model
    and [template] for the template back end.  The retrieval-method tag of
    the request is carried by the metadata event, the first of the stream. *)
Theorem done_event_payload (env : Env) (pid : str) (req : CopilotRequest)
    (pat : patient) (m : option str) (t : str) :
  let evs := sent (snd (generate_stream env pid req pat world0)) in
  In (EvDone m t) evs ->
  (has_azure_openai (get_settings env) = true ->
     m = Some (azure_openai_chat_deployment (get_settings env)) /\ t = lit "vector")
  /\ (has_azure_openai (get_settings env) = false ->
        m = None /\ t = lit "template")
  /\ exists ctx tag middle,
       fst (retrieve_context env pid (question req) (max_sources req) world0)
       = Ok (ctx, tag)
       /\ evs = EvMetadata tag :: middle ++ [EvDone m t].
Proof.
  cbv zeta.
  destruct (generate_stream_run env pid req pat world0)
    as [w' [evs [E [Hs [[msg He] | [ctx [tag [srcs [texts [tail [Hr [Hc [He Ht]]]]]]]]]]]]];
    rewrite E; cbn [snd]; rewrite Hs; cbn [sent world0 app]; subst evs; intro Hin.
  - destruct Hin as [Hin | []]. discriminate Hin.
  - destruct Hin as [Hin | Hin]; [discriminate Hin|].
    rewrite !in_app_iff in Hin.
    destruct Hin as [Hin | [Hin | Hin]];
      [exfalso; exact (in_done_sources m t srcs Hin)
      |exfalso; exact (in_done_deltas m t texts Hin)|].
    destruct Ht as [[acts [Ht Hk]] | [_ [msg Ht]]]; subst tail.
    + destruct Hin as [Hin | [Hin | []]]; [discriminate Hin|].
      injection Hin as <- <-.
      unfold done_payload.
      destruct (has_azure_openai (get_settings env)); cbn [fst snd].
      * split; [intros _; split; reflexivity|]. split; [discriminate|].
        exists ctx, tag, (map EvSource srcs ++ map EvDelta texts ++ [EvActions acts]).
        split; [exact Hr|]. rewrite <- !app_assoc. reflexivity.
      * split; [discriminate|]. split; [intros _; split; reflexivity|].
        exists ctx, tag, (map EvSource srcs ++ map EvDelta texts ++ [EvActions acts]).
        split; [exact Hr|]. rewrite <- !app_assoc. reflexivity.
    + destruct Hin as [Hin | []]. discriminate Hin.
Qed.

Lemma done_event_payload_witness :
  exists middle,
    sent (snd (generate_stream
                 (sample_env sample_settings_template (Ok sample_rows) unavailable unavailable)
                 (lit "p1") sample_request sample_patient world0))
    = EvMetadata KEYWORD :: middle ++ [EvDone None (lit "template")].
Proof.
  destruct (done_event_payload
              (sample_env sample_settings_template (Ok sample_rows) unavailable unavailable)
              (lit "p1") sample_request sample_patient None (lit "template"))
    as [_ [_ [ctx [tag [middle [Hr He]]]]]].
  - vm_compute. tauto.
  - exists middle. rewrite He. f_equal. f_equal.
    vm_compute in Hr. injection Hr as _ <-. reflexivity.
Defined.

(** C2 as stated fails: with the hosted back end and a keyword retrieval the
    done event carries [vector], not the tag the classification produced. *)
Lemma done_event_payload_counterexample :
  let env :=
    sample_env sample_settings_hosted (Ok sample_rows) unavailable
      (Ok {| stream_events := [OutputTextDelta (lit "ANSWER: Stable.")];
             stream_failure := None |}) in
  let evs :=
    sent (snd (generate_stream env (lit "p1") sample_request sample_patient world0)) in
  match fst (retrieve_context env (lit "p1") (question sample_request)
               (max_sources sample_request) world0) with
  | Ok (_, tag) => tag = lit "keyword"
  | Raise _ => False
  end
  /\ In (EvDone (Some (lit "gpt-5.2")) (lit "vector")) evs
  /\ ~ In (EvDone (Some (lit "gpt-5.2")) (lit "keyword")) evs
  /\ ~ In error (map event_type evs).
Proof.
  cbv zeta. split; [vm_compute; reflexivity|]. split; [vm_compute; tauto|].
  split; vm_compute; intuition discriminate.
Qed.

(** ** The text of a template stream *)

(** C10.  With the template back end, the delta fragments of a stream
    concatenate to the whitespace-separated words of the answer, regrouped
    into consecutive groups of at most three, each group joined by single
    spaces and followed by one space.  Splitting the streamed text gives the
    words of the answer again, but the streamed text has no newline while
    the answer has one, so the two are equal only up to whitespace. *)
Theorem template_stream_text (env : Env) (q name : str)
    (srcs : list CopilotSource) (w : world) :
  has_azure_openai (get_settings env) = false ->
  let answer := fst (fst (_generate_template_response env q name srcs)) in
  exists evs,
    sent (snd (generate_answer_stream env q name srcs w)) = sent w ++ evs
    /\ let streamed := concat (delta_texts evs) in
       streamed
       = concat (map (fun group => join [sp] group ++ [sp]) (chunks3 (split_ws answer)))
       /\ streamed = concat (map (fun word => word ++ [sp]) (split_ws answer))
       /\ split_ws streamed = split_ws answer
       /\ ~ In nl streamed
       /\ In nl answer
       /\ streamed <> answer.
Proof.
  intro H. cbv zeta.
  rewrite (template_stream_run env q name srcs w H). cbv zeta.
  set (answer := fst (fst (_generate_template_response env q name srcs))).
  eexists. split; [reflexivity|].
  rewrite !delta_texts_app, delta_texts_sources, delta_texts_deltas.
  cbn [delta_texts app]. rewrite app_nil_r, chunk_texts_spec.
  assert (Hflat := chunks3_flatten (split_ws answer) _ (le_n _)).
  assert (Hwords := split_ws_words answer).
  split; [reflexivity|]. split; [exact Hflat|]. rewrite Hflat.
  split; [apply split_ws_spaced; exact Hwords|].
  assert (Hno := spaced_no_newline (split_ws answer) Hwords).
  assert (Hnl : In nl answer) by apply template_answer_newline.
  split; [exact Hno|]. split; [exact Hnl|].
  intro E. apply Hno. rewrite E. exact Hnl.
Qed.

Lemma template_stream_text_witness :
  exists evs,
    sent (snd (generate_answer_stream
                 (sample_env sample_settings_template unavailable unavailable unavailable)
                 (lit "Any risk?") (lit "Jane Doe") [] world0))
    = evs
    /\ firstn 10 (concat (delta_texts evs)) = lit "Risk asses".
Proof.
  destruct (template_stream_text
              (sample_env sample_settings_template unavailable unavailable unavailable)
              (lit "Any risk?") (lit "Jane Doe") [] world0 eq_refl)
    as [evs [E [_ [Hs _]]]].
  exists evs. split; [exact E|]. rewrite Hs. reflexivity.
Defined.

(** ** More on the response parser *)

Lemma lstrip_head (s : str) (c : char) (t : str) :
  lstrip s = c :: t -> isspace c = false.
Proof.
  induction s as [|d s IH]; simpl; [discriminate|].
  destruct (isspace d) eqn:E; [exact IH|].
  intro H. injection H as <- _. exact E.
Qed.

Lemma lstrip_suffix (s : str) : exists u, s = u ++ lstrip s.
Proof.
  induction s as [|d s [u IH]]; [exists []; reflexivity|].
  simpl. destruct (isspace d).
  - exists (d :: u). simpl. rewrite <- IH. reflexivity.
  - exists []. reflexivity.
Qed.

Lemma lstrip_in (s : str) (c : char) : In c (lstrip s) -> In c s.
Proof.
  destruct (lstrip_suffix s) as [u E]. intro H. rewrite E.
  apply in_or_app. right. exact H.
Qed.

Lemma rstrip_in (s : str) (c : char) : In c (rstrip s) -> In c s.
Proof.
  unfold rstrip. intro H. apply in_rev in H. apply lstrip_in in H.
  apply in_rev. exact H.
Qed.

Lemma strip_in (s : str) (c : char) : In c (strip s) -> In c s.
Proof. unfold strip. intro H. apply lstrip_in, rstrip_in. exact H. Qed.

Lemma lstrip_chars_in (chars s : str) (c : char) :
  In c (lstrip_chars chars s) -> In c s.
Proof.
  induction s as [|d s IH]; simpl; [tauto|].
  destruct (existsb (char_eqb d) chars); [|tauto].
  intro H. right. exact (IH H).
Qed.

Lemma last_suffix (v u : str) (d : char) : u <> [] -> last (v ++ u) d = last u d.
Proof.
  intro Hu. induction v as [|x v IH]; [reflexivity|].
  simpl. destruct (v ++ u) eqn:E; [|exact IH].
  apply app_eq_nil in E. destruct E as [_ E]. contradiction.
Qed.

Lemma hd_rev_last (u : str) (d : char) : hd d (rev u) = last u d.
Proof.
  destruct u as [|x u] using rev_ind; [reflexivity|].
  rewrite rev_app_distr, last_last. reflexivity.
Qed.

(** What [strip] returns is empty or starts and ends with a character that
    is not whitespace. *)
Lemma strip_result_trimmed (s : str) : strip s <> [] -> trimmed (strip s) = true.
Proof.
  unfold strip, rstrip. set (t := lstrip s).
  destruct (lstrip (rev t)) as [|c u] eqn:Eu; [intro H; contradiction H; reflexivity|].
  intros _. pose proof (lstrip_head _ _ _ Eu) as Hc.
  unfold trimmed. apply andb_true_iff. split; apply negb_true_iff.
  - rewrite hd_rev_last.
    destruct (lstrip_suffix (rev t)) as [v Ev]. rewrite Eu in Ev.
    rewrite <- (last_suffix v (c :: u) sp) by discriminate.
    rewrite <- Ev, <- hd_rev_last, rev_involutive.
    destruct t as [|d t'] eqn:Et.
    + destruct v; discriminate Ev.
    + simpl. subst t. exact (lstrip_head _ _ _ Et).
  - rewrite <- hd_rev_last, rev_involutive. exact Hc.
Qed.

Lemma strip_idempotent (s : str) : strip (strip s) = strip s.
Proof.
  destruct (strip s) eqn:E; [reflexivity|]. rewrite <- E.
  apply strip_trimmed, strip_result_trimmed. rewrite E. discriminate.
Qed.

Lemma split_go_char_lines (c : char) (s : str) :
  forall cur, ~ In c cur -> Forall (fun l => ~ In c l) (split_go [c] 0 cur s).
Proof.
  induction s as [|d s IH]; intros cur Hcur.
  - constructor; [|constructor]. intro H. apply in_rev in H. exact (Hcur H).
  - cbn [split_go startswith]. destruct (char_eqb c d) eqn:E; cbn [andb].
    + constructor.
      * intro H. apply in_rev in H. exact (Hcur H).
      * apply IH. intros [].
    + apply IH. intros [H | H]; [|exact (Hcur H)].
      subst d. rewrite (proj2 (char_eqb_eq c c) eq_refl) in E. discriminate E.
Qed.

Lemma parse_action_line_wellformed (acc : list str) (line : str) :
  ~ In nl line -> Forall wellformed_action acc ->
  Forall wellformed_action (parse_action_line acc line).
Proof.
  intros Hline Hacc. unfold parse_action_line.
  destruct (startswith DASH (strip line) || startswith BULLET (strip line));
    [|exact Hacc].
  destruct (strip (lstrip_chars DASH_BULLET (strip line))) as [|c a] eqn:E;
    [exact Hacc|].
  cbn [truthy]. apply Forall_app. split; [exact Hacc|].
  constructor; [|constructor]. rewrite <- E. split; [rewrite E; discriminate|]. split.
  - apply strip_result_trimmed. rewrite E. discriminate.
  - intro H. apply Hline.
    apply strip_in, lstrip_chars_in, strip_in in H. exact H.
Qed.

Lemma fold_action_lines_wellformed (lines : list str) :
  Forall (fun l => ~ In nl l) lines ->
  forall acc, Forall wellformed_action acc ->
    Forall wellformed_action (fold_left parse_action_line lines acc).
Proof.
  induction 1 as [|line lines Hl _ IH]; intros acc Hacc; [exact Hacc|].
  simpl. apply IH, parse_action_line_wellformed; assumption.
Qed.

Lemma extract_answer_stripped (text a : str) :
  extract_answer text = Ok a -> strip a = a.
Proof.
  unfold extract_answer. destruct (contains ANSWER text).
  - unfold split, ANSWER at 1. cbn [rbind].
    destruct (index _ 1) as [p|e]; cbn [rbind]; [|discriminate].
    intro H. injection H as <-. apply strip_idempotent.
  - intro H. injection H as <-. apply strip_idempotent.
Qed.

(** X1.  Whatever the text, the parser's result is well formed: the answer
    has no leading or trailing whitespace, and every next action is one
    line, not empty, with no leading or trailing whitespace. *)
Theorem parsed_response_wellformed (text : str) :
  exists a acts,
    _parse_llm_response text = Ok (a, acts)
    /\ strip a = a
    /\ Forall (fun x => x <> [] /\ trimmed x = true /\ ~ In nl x) acts.
Proof.
  unfold _parse_llm_response. destruct (contains NEXT_ACTIONS text) eqn:E.
  - destruct (split_go_two_parts NEXT_ACTIONS [] text) as [p [q [rest Es]]];
      [nonempty_literal | exact E |].
    unfold split at 1, NEXT_ACTIONS at 1. fold NEXT_ACTIONS. rewrite Es.
    destruct (extract_answer_total p) as [a Ea].
    cbn [rbind index nth_error length Nat.ltb Nat.leb]. rewrite Ea.
    unfold split. cbn [rbind].
    eexists. eexists. split; [reflexivity|]. split.
    + exact (extract_answer_stripped p a Ea).
    + apply (fold_action_lines_wellformed _ (split_go_char_lines nl _ [] (fun H => H))).
      constructor.
  - destruct (extract_answer_total text) as [a Ea]. rewrite Ea. cbn [rbind].
    eexists. eexists. split; [reflexivity|]. split.
    + exact (extract_answer_stripped text a Ea).
    + unfold DEFAULT_NEXT_ACTIONS.
      repeat constructor; try discriminate; vm_compute; intuition discriminate.
Qed.

Lemma plain_action_spec (x : str) :
  plain_action x = true ->
  contains NEXT_ACTIONS x = false /\ contains [nl] x = false /\ trimmed x = true.
Proof.
  unfold plain_action. rewrite !andb_true_iff, !negb_true_iff. tauto.
Qed.

Lemma action_lines_no_marker (xs : list str) :
  forallb plain_action xs = true -> contains NEXT_ACTIONS (action_lines xs) = false.
Proof.
  induction xs as [|x xs IH]; intro H; [reflexivity|].
  simpl in H. apply andb_true_iff in H. destruct H as [Hx Hxs].
  destruct (plain_action_spec x Hx) as [Hm _].
  unfold action_lines. cbn [map concat]. fold (action_lines xs).
  change (([nl] ++ DASH_SP ++ x) ++ action_lines xs)
    with ([] ++ nl :: (DASH_SP ++ x) ++ action_lines xs).
  rewrite contains_barrier by nonempty_literal.
  destruct xs as [|y ys].
  - simpl. rewrite app_nil_r, Hm. reflexivity.
  - assert (E : action_lines (y :: ys) = nl :: (DASH_SP ++ y) ++ action_lines ys)
      by reflexivity.
    rewrite E at 1. rewrite contains_barrier by nonempty_literal.
    rewrite E in IH. change (nl :: (DASH_SP ++ y) ++ action_lines ys)
      with ([] ++ nl :: (DASH_SP ++ y) ++ action_lines ys) in IH.
    rewrite contains_barrier in IH by nonempty_literal.
    specialize (IH Hxs). simpl in IH. simpl. rewrite Hm, IH. reflexivity.
Qed.

(** The lines of the text that follows a first line [w]. *)
Lemma action_lines_split (xs : list str) :
  forallb plain_action xs = true ->
  forall w cur,
    contains [nl] w = false ->
    split_go [nl] 0 cur (w ++ action_lines xs)
    = (rev cur ++ w) :: map (fun x => DASH_SP ++ x) xs.
Proof.
  induction xs as [|x xs IH]; intros H w cur Hw.
  - simpl. rewrite app_nil_r. apply split_go_none; [discriminate | exact Hw].
  - simpl in H. apply andb_true_iff in H. destruct H as [Hx Hxs].
    destruct (plain_action_spec x Hx) as [_ [Hl _]].
    unfold action_lines. cbn [map concat]. fold (action_lines xs).
    replace (w ++ ([nl] ++ DASH_SP ++ x) ++ action_lines xs)
      with (w ++ [nl] ++ (DASH_SP ++ x) ++ action_lines xs)
      by (rewrite <- !app_assoc; reflexivity).
    rewrite (split_go_first [nl] w ((DASH_SP ++ x) ++ action_lines xs) cur)
      by (try discriminate; simpl; rewrite app_nil_r; exact Hw).
    rewrite (IH Hxs (DASH_SP ++ x) []); [reflexivity|]. simpl. exact Hl.
Qed.

Lemma action_lines_last (xs : list str) (x : str) :
  forallb plain_action (x :: xs) = true ->
  exists r z, DASH_SP ++ x ++ action_lines xs = r ++ [z] /\ isspace z = false.
Proof.
  revert x. induction xs as [|y ys IH]; intros x H.
  - simpl in H. rewrite andb_true_r in H.
    destruct (plain_action_spec x H) as [_ [_ Ht]].
    destruct (trimmed_last x Ht) as [r [z [E Hz]]].
    exists (DASH_SP ++ r), z. split; [|exact Hz].
    simpl. rewrite app_nil_r, E. reflexivity.
  - cbn [forallb] in H. apply andb_true_iff in H. destruct H as [_ H].
    destruct (IH y H) as [r [z [E Hz]]].
    exists (DASH_SP ++ x ++ [nl] ++ r), z. split; [|exact Hz].
    replace ((DASH_SP ++ x ++ [nl] ++ r) ++ [z])
      with (DASH_SP ++ x ++ [nl] ++ (r ++ [z]))
      by (rewrite <- !app_assoc; reflexivity).
    rewrite <- E. unfold action_lines. cbn [map concat].
    rewrite <- !app_assoc. reflexivity.
Qed.

Lemma fold_dash_lines (xs : list str) :
  forallb plain_action xs = true ->
  forall acc,
    fold_left parse_action_line (map (fun x => DASH_SP ++ x) xs) acc = acc ++ xs.
Proof.
  induction xs as [|x xs IH]; intros H acc.
  - simpl. rewrite app_nil_r. reflexivity.
  - simpl in H. apply andb_true_iff in H. destruct H as [Hx Hxs].
    destruct (plain_action_spec x Hx) as [_ [_ Ht]].
    cbn [map fold_left]. rewrite (parse_action_line_dash acc x Ht), (IH Hxs).
    rewrite <- app_assoc. reflexivity.
Qed.

Lemma action_lines_parsed (xs : list str) :
  forallb plain_action xs = true ->
  (let? lines := split [nl] (strip (action_lines xs)) in
   Ok (fold_left parse_action_line lines [])) = Ok xs.
Proof.
  intro H. destruct xs as [|x xs]; [reflexivity|].
  assert (E : strip (action_lines (x :: xs)) = DASH_SP ++ x ++ action_lines xs).
  { unfold action_lines at 1. cbn [map concat]. fold (action_lines xs).
    rewrite <- !app_assoc.
    change ([nl] ++ DASH_SP ++ x ++ action_lines xs)
      with (nl :: DASH_SP ++ x ++ action_lines xs).
    rewrite strip_cons_space by reflexivity. unfold strip.
    change (lstrip (DASH_SP ++ x ++ action_lines xs))
      with (DASH_SP ++ x ++ action_lines xs).
    destruct (action_lines_last xs x H) as [r [z [Er Hz]]].
    rewrite Er. apply rstrip_snoc_nonspace. exact Hz. }
  rewrite E. unfold split. cbn [rbind].
  cbn [forallb] in H. apply andb_true_iff in H. destruct H as [Hx Hxs].
  destruct (plain_action_spec x Hx) as [_ [Hl Ht]].
  rewrite app_assoc.
  rewrite (action_lines_split xs Hxs (DASH_SP ++ x) []) by (simpl; exact Hl).
  cbn [rev app fold_left]. rewrite (parse_action_line_dash [] x Ht).
  rewrite (fold_dash_lines xs Hxs). reflexivity.
Qed.

(** X2.  The round trip of the prompt layout holds for any number of
    actions: for an answer [A] without markers and a list of one-line,
    trimmed, non-empty actions without the [NEXT ACTIONS:] marker, parsing
    [ANSWER: A\n\nNEXT ACTIONS:] followed by one [\n- action] per action
    gives the trimmed [A] and exactly that list (the empty list included). *)
Theorem parse_layout_round_trip (A : str) (xs : list str) :
  contains NEXT_ACTIONS A = false ->
  contains ANSWER A = false ->
  forallb plain_action xs = true ->
  _parse_llm_response (layout_text A xs) = Ok (strip A, xs).
Proof.
  intros HA_actions HA_answer Hxs.
  assert (Hparts : layout_text A xs
                   = round_trip_answer_part A ++ NEXT_ACTIONS ++ action_lines xs).
  { unfold layout_text, round_trip_answer_part. rewrite <- !app_assoc. reflexivity. }
  unfold _parse_llm_response. rewrite Hparts, contains_occurrence.
  unfold split at 1, NEXT_ACTIONS at 1. fold NEXT_ACTIONS.
  rewrite split_go_first; [| nonempty_literal |].
  - rewrite split_go_none;
      [| nonempty_literal | exact (action_lines_no_marker xs Hxs)].
    cbn [rbind index nth_error length Nat.ltb Nat.leb rev app].
    rewrite (round_trip_answer A HA_answer). cbn [rbind].
    pose proof (action_lines_parsed xs Hxs) as Hl.
    destruct (split [nl] (strip (action_lines xs))) as [lines|e];
      cbn [rbind] in *; [|discriminate Hl].
    injection Hl as ->. reflexivity.
  - unfold round_trip_answer_part.
    replace ((ANSWER_SP ++ A ++ [nl; nl]) ++ removelast NEXT_ACTIONS)
      with ((ANSWER_SP ++ A) ++ nl :: (nl :: removelast NEXT_ACTIONS))
      by (rewrite <- !app_assoc; reflexivity).
    rewrite contains_barrier by nonempty_literal.
    simpl. rewrite HA_actions. reflexivity.
Qed.

Lemma parse_layout_round_trip_witness :
  _parse_llm_response
    (layout_text (lit "eGFR fell from 58 to 52 [Source 2].")
       [lit "Repeat eGFR in 4 weeks"; lit "Hold NSAIDs"; lit "Refer to nephrology"])
  = Ok (lit "eGFR fell from 58 to 52 [Source 2].",
        [lit "Repeat eGFR in 4 weeks"; lit "Hold NSAIDs"; lit "Refer to nephrology"]).
Proof.
  exact (parse_layout_round_trip (lit "eGFR fell from 58 to 52 [Source 2].")
           [lit "Repeat eGFR in 4 weeks"; lit "Hold NSAIDs"; lit "Refer to nephrology"]
           eq_refl eq_refl eq_refl).
Defined.

Lemma contains_marker_whitespace (ws : str) :
  forallb isspace ws = true -> contains NEXT_ACTIONS ws = false.
Proof.
  induction ws as [|c ws IH]; intro H; [reflexivity|].
  simpl in H. apply andb_true_iff in H. destruct H as [Hc Hws].
  cbn [contains]. rewrite (IH Hws), orb_false_r.
  unfold NEXT_ACTIONS. cbn [startswith].
  destruct (char_eqb 78%N c) eqn:E; [|reflexivity].
  apply char_eqb_eq in E. subst c. discriminate Hc.
Qed.

Lemma strip_whitespace (ws : str) : forallb isspace ws = true -> strip ws = [].
Proof.
  intro H. unfold strip.
  assert (E : lstrip ws = []).
  { induction ws as [|c ws IH]; [reflexivity|].
    simpl in H. apply andb_true_iff in H. destruct H as [Hc Hws].
    simpl. rewrite Hc. exact (IH Hws). }
  rewrite E. reflexivity.
Qed.

(** X3.  When the [NEXT ACTIONS:] marker is present but only whitespace
    follows it, the next actions are the empty list: the default list is not
    substituted once the marker occurs. *)
Theorem parse_marker_without_actions (pre ws : str) :
  contains NEXT_ACTIONS (pre ++ removelast NEXT_ACTIONS) = false ->
  forallb isspace ws = true ->
  exists a, _parse_llm_response (pre ++ NEXT_ACTIONS ++ ws) = Ok (a, [])
            /\ extract_answer pre = Ok a.
Proof.
  intros Hpre Hws. unfold _parse_llm_response. rewrite contains_occurrence.
  unfold split at 1, NEXT_ACTIONS at 1. fold NEXT_ACTIONS.
  rewrite split_go_first; [| nonempty_literal | exact Hpre].
  rewrite split_go_none;
    [| nonempty_literal | exact (contains_marker_whitespace ws Hws)].
  cbn [rbind index nth_error length Nat.ltb Nat.leb rev app].
  destruct (extract_answer_total pre) as [a Ea]. rewrite Ea.
  rewrite (strip_whitespace ws Hws). exists a. split; reflexivity.
Qed.

Lemma parse_marker_without_actions_witness :
  exists a,
    _parse_llm_response (lit "ANSWER: No data." ++ NEXT_ACTIONS ++ [nl; sp])
    = Ok (a, []) /\ a = lit "No data.".
Proof.
  destruct (parse_marker_without_actions (lit "ANSWER: No data.") [nl; sp]
              eq_refl eq_refl) as [a [E Ea]].
  exists a. split; [exact E|]. vm_compute in Ea. injection Ea as <-. reflexivity.
Defined.

(** ** The hosted request *)

Lemma lstrip_chars_single (c : char) (s : str) :
  exists n t,
    s = repeat c n ++ t /\ lstrip_chars [c] s = t /\ hd_error t <> Some c.
Proof.
  induction s as [|d s [n [t [E [El Hh]]]]].
  - exists 0, []. repeat split. discriminate.
  - cbn [lstrip_chars existsb]. rewrite orb_false_r.
    destruct (char_eqb d c) eqn:Ed.
    + apply char_eqb_eq in Ed. subst d. exists (S n), t.
      split; [simpl; rewrite <- E; reflexivity|]. split; assumption.
    + exists 0, (d :: s). repeat split. simpl. intro H. injection H as ->.
      rewrite (proj2 (char_eqb_eq c c) eq_refl) in Ed. discriminate Ed.
Qed.

Lemma rev_repeat {A} (a : A) (n : nat) : rev (repeat a n) = repeat a n.
Proof.
  induction n as [|n IH]; [reflexivity|].
  simpl. rewrite IH. symmetry. apply repeat_cons.
Qed.

Lemma rstrip_chars_single (c : char) (s : str) :
  exists n stem,
    s = stem ++ repeat c n /\ rstrip_chars [c] s = stem
    /\ (forall r, stem <> r ++ [c]).
Proof.
  unfold rstrip_chars.
  destruct (lstrip_chars_single c (rev s)) as [n [t [E [El Hh]]]].
  exists n, (rev t). split; [|split].
  - rewrite <- (rev_involutive s), E, rev_app_distr, rev_repeat. reflexivity.
  - rewrite El. reflexivity.
  - intros r Hr. apply Hh.
    rewrite <- (rev_involutive t), Hr, rev_app_distr. reflexivity.
Qed.

(** X4.  With the hosted back end [generate_answer] makes one call whose
    base URL is the endpoint without its trailing slashes followed by
    [/openai/v1/], so endpoints that differ only in trailing slashes give
    the same URL; the call carries the key, the deployment as the model, the
    fixed instructions, the built prompt, a 1000-token limit, and does not
    stream. *)
Theorem hosted_request (env : Env) (q name : str) (srcs : list CopilotSource)
    (w : world) (endpoint key : str) :
  azure_openai_endpoint (get_settings env) = Some endpoint ->
  azure_openai_key (get_settings env) = Some key ->
  endpoint <> [] -> key <> [] ->
  exists stem n req,
    endpoint = stem ++ repeat SLASH n
    /\ (forall r, stem <> r ++ [SLASH])
    /\ calls (snd (generate_answer env q name srcs w)) = calls w ++ [CallResponses req]
    /\ base_url req = stem ++ lit "/openai/v1/"
    /\ api_key req = key
    /\ model req = azure_openai_chat_deployment (get_settings env)
    /\ instructions req = SYSTEM_INSTRUCTIONS
    /\ input req = snd (_build_context_and_prompt env q name srcs)
    /\ max_output_tokens req = 1000%Z
    /\ stream req = false.
Proof.
  intros He Hk Hne Hnk.
  assert (H : has_azure_openai (get_settings env) = true).
  { apply has_azure_openai_spec. exists endpoint, key. repeat split; assumption. }
  destruct (generate_answer_hosted env q name srcs w H) as [client [Ec E]].
  cbv zeta in E. rewrite E. cbn [snd calls add_call].
  unfold make_client in Ec. rewrite He, Hk in Ec. injection Ec as <-.
  destruct (rstrip_chars_single SLASH endpoint) as [n [stem [Es [Er Hs]]]].
  exists stem, n. eexists. split; [exact Es|]. split; [exact Hs|].
  split; [reflexivity|]. cbn [make_request base_url api_key model instructions
                              input max_output_tokens stream fst snd].
  change (lit "/") with [SLASH]. rewrite Er. repeat split.
Qed.

Lemma hosted_request_witness :
  exists req,
    calls (snd (generate_answer
                  (sample_env sample_settings_hosted unavailable unavailable unavailable)
                  (lit "Any risk?") (lit "Jane Doe") [] world0))
    = [CallResponses req]
    /\ base_url req = lit "https://demo.openai.azure.com/openai/v1/".
Proof.
  destruct (hosted_request
              (sample_env sample_settings_hosted unavailable unavailable unavailable)
              (lit "Any risk?") (lit "Jane Doe") [] world0
              (lit "https://demo.openai.azure.com/") (lit "key")
              eq_refl eq_refl) as [stem [n [req [_ [_ [Hc _]]]]]];
    [discriminate | discriminate |].
  exists req. split; [exact Hc|].
  vm_compute in Hc. injection Hc as <-. reflexivity.
Defined.

(** ** The hosted stream *)

Lemma hosted_stream_exact (env : Env) (q name : str) (srcs : list CopilotSource)
    (w : world) :
  has_azure_openai (get_settings env) = true ->
  exists client,
    make_client (get_settings env) = Ok client /\
    let req := make_request client (get_settings env)
                 (snd (_build_context_and_prompt env q name srcs)) true in
    generate_answer_stream env q name srcs w
    = (Ok tt,
       add_sent
         (map EvSource srcs
          ++ match responses_create_stream env req with
             | Raise e => [EvError (str_of_exn e)]
             | Ok st =>
                 map EvDelta (event_deltas (stream_events st))
                 ++ match stream_failure st with
                    | Some e => [EvError (str_of_exn e)]
                    | None =>
                        match _parse_llm_response
                                (concat (event_deltas (stream_events st))) with
                        | Ok (_, acts) =>
                            [EvActions acts;
                             EvDone (Some (azure_openai_chat_deployment (get_settings env)))
                                    VECTOR]
                        | Raise e => [EvError (str_of_exn e)]
                        end
                    end
             end)
         (add_call (CallResponses req) w)).
Proof.
  intro H. destruct (make_client_configured _ H) as [client Ec].
  exists client. split; [exact Ec|]. cbv zeta.
  unfold generate_answer_stream. rewrite H. cbn [negb].
  unfold _stream_with_openai, try_except, bind, lift, record_call.
  rewrite Ec, for_each_yield.
  destruct (responses_create_stream env _) as [st|e].
  - rewrite stream_loop_run. cbn [app]. destruct (stream_failure st) as [e|].
    + unfold yield, add_sent, add_call. cbn [calls sent].
      rewrite <- !app_assoc. reflexivity.
    + destruct (_parse_llm_response _) as [[a na]|e];
        unfold yield, add_sent, add_call; cbn [calls sent];
        rewrite <- !app_assoc; reflexivity.
  - unfold yield, add_sent, add_call. cbn [calls sent].
    rewrite <- !app_assoc. reflexivity.
Qed.

(** X5.  A hosted stream that the model completes: every text delta of the
    model is forwarded as one delta event, in order, and events of other
    types are skipped; the actions event then carries the next actions
    parsed from the concatenation of those deltas, and the done event
    follows.  One streaming call is made. *)
Theorem hosted_stream_completed (env : Env) (q name : str)
    (srcs : list CopilotSource) (w : world) :
  has_azure_openai (get_settings env) = true ->
  exists req,
    stream req = true
    /\ calls (snd (generate_answer_stream env q name srcs w))
       = calls w ++ [CallResponses req]
    /\ forall st,
         responses_create_stream env req = Ok st ->
         stream_failure st = None ->
         exists a acts,
           _parse_llm_response (concat (event_deltas (stream_events st))) = Ok (a, acts)
           /\ sent (snd (generate_answer_stream env q name srcs w))
              = sent w ++ map EvSource srcs
                  ++ map EvDelta (event_deltas (stream_events st))
                  ++ [EvActions acts;
                      EvDone (Some (azure_openai_chat_deployment (get_settings env)))
                             (lit "vector")].
Proof.
  intro H. destruct (hosted_stream_exact env q name srcs w H) as [client [_ E]].
  cbv zeta in E. rewrite E.
  exists (make_request client (get_settings env)
            (snd (_build_context_and_prompt env q name srcs)) true).
  split; [reflexivity|]. split; [reflexivity|].
  intros st Hst Hf. rewrite Hst, Hf.
  destruct (parse_total (concat (event_deltas (stream_events st)))) as [[a acts] Ep].
  rewrite Ep. exists a, acts. split; [reflexivity|].
  cbn [snd sent add_sent add_call]. reflexivity.
Qed.

Lemma hosted_stream_completed_witness :
  exists evs,
    sent (snd (generate_answer_stream
                 (sample_env sample_settings_hosted unavailable unavailable
                    (Ok {| stream_events :=
                             [OtherEvent (lit "response.created");
                              OutputTextDelta (lit "ANSWER: Stable.");
                              OutputTextDelta (NEXT_ACTIONS ++ [nl] ++ lit "- Recheck")];
                           stream_failure := None |}))
                 (lit "Any risk?") (lit "Jane Doe") [] world0))
    = evs
    /\ nth_error evs 2 = Some (EvActions [lit "Recheck"]).
Proof.
  destruct (hosted_stream_completed
              (sample_env sample_settings_hosted unavailable unavailable
                 (Ok {| stream_events :=
                          [OtherEvent (lit "response.created");
                           OutputTextDelta (lit "ANSWER: Stable.");
                           OutputTextDelta (NEXT_ACTIONS ++ [nl] ++ lit "- Recheck")];
                        stream_failure := None |}))
              (lit "Any risk?") (lit "Jane Doe") [] world0 eq_refl)
    as [req [_ [_ Hs]]].
  destruct (Hs _ eq_refl eq_refl) as [a [acts [Ep E]]].
  eexists. split; [exact E|].
  vm_compute in Ep. injection Ep as _ <-. reflexivity.
Defined.

(** X6.  A hosted stream that fails is not answered by the template: if the
    call raises, the sources are followed by one error event with the
    message of the exception; if the iteration raises midway, the deltas
    received so far are kept and the error event follows them.  No actions
    and no done event are sent. *)
Theorem hosted_stream_failed (env : Env) (q name : str)
    (srcs : list CopilotSource) (w : world) :
  has_azure_openai (get_settings env) = true ->
  exists req,
    calls (snd (generate_answer_stream env q name srcs w))
    = calls w ++ [CallResponses req]
    /\ (forall e,
          responses_create_stream env req = Raise e ->
          generate_answer_stream env q name srcs w
          = (Ok tt,
             add_sent (map EvSource srcs ++ [EvError (str_of_exn e)])
                      (add_call (CallResponses req) w)))
    /\ (forall st e,
          responses_create_stream env req = Ok st ->
          stream_failure st = Some e ->
          generate_answer_stream env q name srcs w
          = (Ok tt,
             add_sent (map EvSource srcs
                       ++ map EvDelta (event_deltas (stream_events st))
                       ++ [EvError (str_of_exn e)])
                      (add_call (CallResponses req) w))).
Proof.
  intro H. destruct (hosted_stream_exact env q name srcs w H) as [client [_ E]].
  cbv zeta in E. rewrite E.
  exists (make_request client (get_settings env)
            (snd (_build_context_and_prompt env q name srcs)) true).
  split; [reflexivity|]. split.
  - intros e He. rewrite He. reflexivity.
  - intros st e Hst Hf. rewrite Hst, Hf. reflexivity.
Qed.

Lemma hosted_stream_failed_witness :
  sent (snd (generate_answer_stream
               (sample_env sample_settings_hosted unavailable unavailable
                  (Ok {| stream_events := [OutputTextDelta (lit "ANSWER: St")];
                         stream_failure := Some (ExternalError (lit "connection reset")) |}))
               (lit "Any risk?") (lit "Jane Doe") [] world0))
  = [EvDelta (lit "ANSWER: St"); EvError (lit "connection reset")].
Proof.
  destruct (hosted_stream_failed
              (sample_env sample_settings_hosted unavailable unavailable
                 (Ok {| stream_events := [OutputTextDelta (lit "ANSWER: St")];
                        stream_failure := Some (ExternalError (lit "connection reset")) |}))
              (lit "Any risk?") (lit "Jane Doe") [] world0 eq_refl)
    as [req [_ [_ Hmid]]].
  rewrite (Hmid _ (ExternalError (lit "connection reset")) eq_refl eq_refl).
  reflexivity.
Defined.

(** ** The routes *)

Lemma map_result_valid (ctx : list processed) :
  (forallb valid_result ctx = true -> exists srcs, map_result to_source ctx = Ok srcs)
  /\ (forallb valid_result ctx = false -> map_result to_source ctx = Raise ValidationError).
Proof.
  induction ctx as [|r ctx [IHt IHf]];
    [split; [intros _; exists []; reflexivity | discriminate]|].
  assert (Hr : (valid_result r = true -> exists s, to_source r = Ok s)
               /\ (valid_result r = false -> to_source r = Raise ValidationError)).
  { unfold valid_result, to_source.
    destruct (p_source_type r), (p_source_id r), (p_label r), (p_snippet r),
      (p_metadata r); split; eauto; discriminate. }
  destruct Hr as [Hrt Hrf]. cbn [forallb map_result]. split; intro H.
  - apply andb_true_iff in H. destruct H as [H1 H2].
    destruct (Hrt H1) as [s Es]. destruct (IHt H2) as [srcs Esrcs].
    rewrite Es, Esrcs. cbn. eauto.
  - destruct (valid_result r) eqn:Ev.
    + destruct (Hrt eq_refl) as [s Es]. rewrite Es. cbn [rbind].
      rewrite (IHf H). reflexivity.
    + rewrite (Hrf eq_refl). reflexivity.
Qed.

(** X7.  For a patient the lookup does not find, both routes raise the 404
    exception after that one lookup: the context store and the model are
    not called, and the stream sends nothing. *)
Theorem unknown_patient (env : Env) (pid : str) (req : CopilotRequest) (w : world) :
  execute_one_patient env pid = Ok None ->
  ask_copilot env pid req w
  = (Raise (HTTPException 404 (lit "Patient " ++ pid ++ lit " not found")),
     add_call (CallExecuteOne pid) w)
  /\ stream_copilot env pid req w
     = (Raise (HTTPException 404 (lit "Patient " ++ pid ++ lit " not found")),
        add_call (CallExecuteOne pid) w).
Proof.
  intro H. unfold ask_copilot, stream_copilot, bind, record_call, lift, raise,
             patient_not_found, add_call.
  rewrite H. split; reflexivity.
Qed.

Lemma unknown_patient_witness :
  calls (snd (stream_copilot
                {| get_settings := sample_settings_template;
                   execute_one_patient := fun _ => Ok None;
                   execute_query_retrieve := fun _ _ _ => unavailable;
                   responses_create := fun _ => unavailable;
                   responses_create_stream := fun _ => unavailable;
                   json_loads := fun _ => unavailable;
                   unicode_lower := fun s => s;
                   unicode_upper := fun s => s |}
                (lit "p9") sample_request world0))
  = [CallExecuteOne (lit "p9")].
Proof.
  rewrite (proj2 (unknown_patient
                    {| get_settings := sample_settings_template;
                       execute_one_patient := fun _ => Ok None;
                       execute_query_retrieve := fun _ _ _ => unavailable;
                       responses_create := fun _ => unavailable;
                       responses_create_stream := fun _ => unavailable;
                       json_loads := fun _ => unavailable;
                       unicode_lower := fun s => s;
                       unicode_upper := fun s => s |}
                    (lit "p9") sample_request world0 eq_refl)).
  reflexivity.
Defined.

(** X8.  For a known patient [ask_copilot] has two outcomes.  If every
    retrieved result passes the validation of a source, it returns a
    response whose sources are the retrieved results, in order, whose
    retrieval method is the tag of the retrieval, and whose answer, actions
    and model are those of [generate_answer].  Otherwise it raises the 500
    exception, and the model is not called. *)
Theorem ask_copilot_outcomes (env : Env) (pid : str) (req : CopilotRequest)
    (p : patient) (w : world) (ctx : list processed) (tag : str) :
  execute_one_patient env pid = Ok (Some p) ->
  fst (retrieve_context env pid (question req) (max_sources req)
         (add_call (CallExecuteOne pid) w)) = Ok (ctx, tag) ->
  let w1 := add_call (CallRetrieveContext pid (question req) (max_sources req))
              (add_call (CallExecuteOne pid) w) in
  (forallb valid_result ctx = true ->
     exists srcs a acts m w2,
       map_result to_source ctx = Ok srcs
       /\ length srcs = length ctx
       /\ generate_answer env (question req) (display_name p) srcs w1
          = (Ok (a, acts, m), w2)
       /\ ask_copilot env pid req w
          = (Ok {| answer := a; next_actions := acts; sources := srcs;
                   model_used := m; retrieval_method := tag |}, w2))
  /\ (forallb valid_result ctx = false ->
        exists detail,
          ask_copilot env pid req w = (Raise (HTTPException 500 detail), w1)).
Proof.
  intros Hp Hr. cbv zeta.
  assert (Hask : ask_copilot env pid req w
                 = match map_result to_source ctx with
                   | Ok srcs =>
                       let (r, w2) :=
                         generate_answer env (question req) (display_name p) srcs
                           (add_call (CallRetrieveContext pid (question req) (max_sources req))
                              (add_call (CallExecuteOne pid) w)) in
                       match r with
                       | Ok (a, acts, m) =>
                           (Ok {| answer := a; next_actions := acts; sources := srcs;
                                  model_used := m; retrieval_method := tag |}, w2)
                       | Raise e =>
                           (Raise (HTTPException 500
                                     (lit "Failed to process question: " ++ str_of_exn e)), w2)
                       end
                   | Raise e =>
                       (Raise (HTTPException 500
                                 (lit "Failed to process question: " ++ str_of_exn e)),
                        add_call (CallRetrieveContext pid (question req) (max_sources req))
                          (add_call (CallExecuteOne pid) w))
                   end).
  { unfold ask_copilot, bind, record_call, lift, try_except. rewrite Hp.
    fold (add_call (CallExecuteOne pid) w).
    rewrite retrieve_context_run in Hr |- *. cbn [fst] in Hr. injection Hr as Hr.
    rewrite Hr.
    destruct (map_result to_source ctx) as [srcs|e]; [|reflexivity].
    destruct (generate_answer env _ _ srcs _) as [[[[a acts] m]|e] w2]; reflexivity. }
  rewrite Hask. destruct (map_result_valid ctx) as [Ht Hf]. split; intro Hv.
  - destruct (Ht Hv) as [srcs Es]. rewrite Es.
    destruct (generate_answer_ok env (question req) (display_name p) srcs
                (add_call (CallRetrieveContext pid (question req) (max_sources req))
                   (add_call (CallExecuteOne pid) w))) as [[[a acts] m] [w2 Eg]].
    rewrite Eg. exists srcs, a, acts, m, w2. split; [reflexivity|].
    split; [|split; [exact Eg | reflexivity]].
    clear - Es. revert srcs Es. induction ctx as [|r ctx IH]; intros srcs Es.
    + injection Es as <-. reflexivity.
    + cbn [map_result] in Es. destruct (to_source r); [|discriminate Es].
      destruct (map_result to_source ctx) as [ss|]; [|discriminate Es].
      cbn in Es. injection Es as <-. simpl. rewrite (IH ss eq_refl). reflexivity.
  - rewrite (Hf Hv). eexists. reflexivity.
Qed.

Lemma ask_copilot_outcomes_witness :
  exists resp w2,
    ask_copilot (sample_env sample_settings_template (Ok sample_rows) unavailable unavailable)
                (lit "p1") sample_request world0
    = (Ok resp, w2)
    /\ length (sources resp) = 2 /\ retrieval_method resp = KEYWORD.
Proof.
  destruct (ask_copilot_outcomes
              (sample_env sample_settings_template (Ok sample_rows) unavailable unavailable)
              (lit "p1") sample_request sample_patient world0 _ KEYWORD eq_refl eq_refl)
    as [Hok _].
  destruct (Hok eq_refl) as [srcs [a [acts [m [w2 [_ [Hl [_ E]]]]]]]].
  eexists. exists w2. split; [exact E|]. split; [exact Hl | reflexivity].
Defined.

(** ** More on retrieval *)

Lemma map_result_nth {A B} (f : A -> result B) (l : list A) :
  forall l',
    map_result f l = Ok l' ->
    length l' = length l
    /\ forall i x, nth_error l i = Some x ->
         exists y, nth_error l' i = Some y /\ f x = Ok y.
Proof.
  induction l as [|a l IH]; intros l' H.
  - injection H as <-. split; [reflexivity|]. intros [|i] x Hx; discriminate Hx.
  - cbn [map_result] in H. destruct (f a) as [b|e] eqn:Ea; [|discriminate H].
    destruct (map_result f l) as [bs|e]; [|discriminate H].
    cbn in H. injection H as <-. destruct (IH bs eq_refl) as [Hl Hn].
    split; [simpl; rewrite Hl; reflexivity|].
    intros [|i] x Hx.
    + injection Hx as <-. exists b. split; [reflexivity | exact Ea].
    + exact (Hn i x Hx).
Qed.

Lemma map_result_raises {A B} (f : A -> result B) (l : list A) (x : A) :
  In x l -> (exists e, f x = Raise e) -> exists e, map_result f l = Raise e.
Proof.
  intros Hin [e He]. induction l as [|a l IH]; [contradiction|].
  cbn [map_result]. destruct (f a) as [b|e'] eqn:Ea; [|exists e'; reflexivity].
  destruct Hin as [-> | Hin]; [congruence|].
  destruct (IH Hin) as [e'' E]. rewrite E. exists e''. reflexivity.
Qed.

(** X9.  A retrieval that is not degraded returns one result per row of the
    context store, in the order of the rows: type, identifier, label and
    snippet are copied, the score is the row's score, and metadata that
    arrives as a string is replaced by its decoded JSON. *)
Theorem retrieve_context_results (env : Env) (pid query : str) (n : Z) (w : world)
    (rows : list row) (results : list processed) (tag : str) :
  execute_query_retrieve env pid query n = Ok rows ->
  fst (retrieve_context env pid query n w) = Ok (results, tag) ->
  tag <> ERROR ->
  length results = length rows
  /\ forall i r,
       nth_error rows i = Some r ->
       exists p,
         nth_error results i = Some p
         /\ p_source_type p = row_source_type r
         /\ p_source_id p = row_source_id r
         /\ p_label p = row_label r
         /\ p_snippet p = row_snippet r
         /\ row_score r = Some (p_score p)
         /\ match row_metadata r with
            | JString s => json_loads env s = Ok (p_metadata p)
            | m => p_metadata p = m
            end.
Proof.
  intros Hrows H Htag. rewrite retrieve_context_run, Hrows in H. cbn [fst] in H.
  destruct (has_vector_results rows) as [hv|e]; [|injection H as _ <-; congruence].
  destruct (map_result (process_row env) rows) as [ps|e] eqn:Eps;
    [|injection H as _ <-; congruence].
  injection H as <- _.
  destruct (map_result_nth _ rows ps Eps) as [Hl Hn]. split; [exact Hl|].
  intros i r Hr. destruct (Hn i r Hr) as [p [Hp Ep]]. exists p. split; [exact Hp|].
  unfold process_row in Ep.
  destruct (row_metadata r) as [| | | s | |] eqn:Em; cbn [rbind] in Ep;
    try (destruct (row_score r) as [sc|]; cbn [rbind] in Ep; [|discriminate Ep];
         injection Ep as <-; repeat split; reflexivity).
  destruct (json_loads env s) as [m|e]; cbn [rbind] in Ep; [|discriminate Ep].
  destruct (row_score r) as [sc|]; cbn [rbind] in Ep; [|discriminate Ep].
  injection Ep as <-. repeat split; reflexivity.
Qed.

Lemma retrieve_context_results_witness :
  exists p,
    nth_error
      (match fst (retrieve_context
                    (sample_env sample_settings_template (Ok sample_rows)
                       unavailable unavailable)
                    (lit "p1") (lit "potassium") 5 world0) with
       | Ok (results, _) => results
       | Raise _ => []
       end) 1 = Some p
    /\ p_label p = Some (lit "Potassium (2024-05-01)").
Proof.
  destruct (retrieve_context_results
              (sample_env sample_settings_template (Ok sample_rows) unavailable unavailable)
              (lit "p1") (lit "potassium") 5 world0 sample_rows _ KEYWORD
              eq_refl eq_refl) as [_ Hn]; [discriminate|].
  destruct (Hn 1 _ eq_refl) as [p [Hp [_ [_ [Hl _]]]]].
  exists p. split; [exact Hp | exact Hl].
Defined.

(** X10.  Retrieval is all or nothing: if the store returns rows of which
    one has a NULL score, or string metadata that does not decode, the
    result is the empty list with the tag [error], whatever the other rows
    are. *)
Theorem retrieve_context_bad_row (env : Env) (pid query : str) (n : Z) (w : world)
    (rows : list row) (r : row) :
  execute_query_retrieve env pid query n = Ok rows ->
  In r rows ->
  row_score r = None
  \/ (exists s e, row_metadata r = JString s /\ json_loads env s = Raise e) ->
  retrieve_context env pid query n w
  = (Ok ([], ERROR), add_call (CallRetrieveContext pid query n) w).
Proof.
  intros Hrows Hin Hbad. rewrite retrieve_context_run, Hrows.
  assert (Hr : exists e, process_row env r = Raise e).
  { unfold process_row. destruct Hbad as [Hs | [s [e [Hm He]]]].
    - rewrite Hs. destruct (row_metadata r) as [| | | s | |]; cbn [rbind];
        try (eexists; reflexivity).
      destruct (json_loads env s); cbn [rbind]; eexists; reflexivity.
    - rewrite Hm, He. cbn [rbind]. eexists. reflexivity. }
  destruct (map_result_raises (process_row env) rows r Hin Hr) as [e E].
  rewrite E. destruct (has_vector_results rows); reflexivity.
Qed.

Lemma retrieve_context_bad_row_witness :
  fst (retrieve_context
         (sample_env sample_settings_template
            (Ok [ sample_row (lit "note") (lit "Note") (lit "BP improved") 0.75%float;
                  {| row_source_type := Some (lit "lab"); row_source_id := Some 3%Z;
                     row_label := Some (lit "A1C"); row_snippet := Some (lit "7.1 %");
                     row_score := None; row_metadata := JNull |} ])
            unavailable unavailable)
         (lit "p1") (lit "a1c") 5 world0)
  = Ok ([], ERROR).
Proof.
  rewrite (retrieve_context_bad_row
             (sample_env sample_settings_template
                (Ok [ sample_row (lit "note") (lit "Note") (lit "BP improved") 0.75%float;
                      {| row_source_type := Some (lit "lab"); row_source_id := Some 3%Z;
                         row_label := Some (lit "A1C"); row_snippet := Some (lit "7.1 %");
                         row_score := None; row_metadata := JNull |} ])
                unavailable unavailable)
             (lit "p1") (lit "a1c") 5 world0 _
             {| row_source_type := Some (lit "lab"); row_source_id := Some 3%Z;
                row_label := Some (lit "A1C"); row_snippet := Some (lit "7.1 %");
                row_score := None; row_metadata := JNull |}
             eq_refl (or_intror (or_introl eq_refl)) (or_introl eq_refl)).
  reflexivity.
Defined.

(** ** The stream when retrieval fails *)

Lemma generate_stream_cases (env : Env) (pid : str) (req : CopilotRequest)
    (pat : patient) (w : world) (ctx : list processed) (tag : str) :
  fst (retrieve_context env pid (question req) (max_sources req) w) = Ok (ctx, tag) ->
  generate_stream env pid req pat w
  = match map_result to_source ctx with
    | Ok srcs =>
        generate_answer_stream env (question req) (display_name pat) srcs
          (add_sent [EvMetadata tag]
             (add_call (CallRetrieveContext pid (question req) (max_sources req)) w))
    | Raise e =>
        (Ok tt,
         add_sent [EvError (str_of_exn e)]
           (add_call (CallRetrieveContext pid (question req) (max_sources req)) w))
    end.
Proof.
  intro Hr. rewrite retrieve_context_run in Hr. cbn [fst] in Hr. injection Hr as Hr.
  unfold generate_stream, try_except, bind. rewrite retrieve_context_run, Hr.
  unfold lift. destruct (map_result to_source ctx) as [srcs|e]; [|reflexivity].
  unfold yield at 1. cbn [calls sent add_call].
  match goal with
  | |- context [generate_answer_stream _ _ _ _ ?w1] =>
      destruct (answer_stream_run env (question req) (display_name pat) srcs w1)
        as [w' [texts [tail [E _]]]]
  end.
  rewrite E. unfold add_sent, add_call. cbn [calls sent]. symmetry. exact E.
Qed.

(** X11.  When the context-store call raises, the stream is still served:
    it opens with the metadata event tagged [error] and has no source
    event; with the template back end it goes on with at least one delta,
    the actions and the done event, and sends no error event. *)
Theorem stream_after_retrieval_failure (env : Env) (pid : str)
    (req : CopilotRequest) (pat : patient) (e : exn) :
  execute_query_retrieve env pid (question req) (max_sources req) = Raise e ->
  exists w' texts tail,
    generate_stream env pid req pat world0 = (Ok tt, w')
    /\ sent w' = EvMetadata (lit "error") :: map EvDelta texts ++ tail
    /\ ((exists acts,
           tail = [EvActions acts; EvDone (fst (done_payload env)) (snd (done_payload env))])
        \/ (has_azure_openai (get_settings env) = true /\ exists msg, tail = [EvError msg]))
    /\ (has_azure_openai (get_settings env) = false ->
          texts <> [] /\ exists acts, tail = [EvActions acts; EvDone None (lit "template")]).
Proof.
  intro He.
  assert (Hr : fst (retrieve_context env pid (question req) (max_sources req) world0)
               = Ok ([], ERROR)).
  { rewrite retrieve_context_run, He. reflexivity. }
  rewrite (generate_stream_cases env pid req pat world0 [] ERROR Hr).
  cbn [map_result].
  match goal with
  | |- context [generate_answer_stream _ _ _ _ ?w1] =>
      destruct (answer_stream_run env (question req) (display_name pat) [] w1)
        as [w' [texts [tail [E [Hs Ht]]]]]
  end.
  exists w', texts, tail. split; [exact E|]. split; [rewrite Hs; reflexivity|]. split.
  - destruct Ht as [[acts [Ht _]] | Ht]; [left; eauto | right; exact Ht].
  - intro Hno. destruct Ht as [[acts [Ht Hk]] | [Hyes _]]; [|congruence].
    split; [exact (Hk Hno)|]. exists acts. rewrite Ht. unfold done_payload.
    rewrite Hno. reflexivity.
Qed.

Lemma stream_after_retrieval_failure_witness :
  hd_error
    (sent (snd (generate_stream
                  (sample_env sample_settings_template unavailable unavailable unavailable)
                  (lit "p1") sample_request sample_patient world0)))
  = Some (EvMetadata (lit "error")).
Proof.
  destruct (stream_after_retrieval_failure
              (sample_env sample_settings_template unavailable unavailable unavailable)
              (lit "p1") sample_request sample_patient
              (ExternalError (lit "unavailable")) eq_refl)
    as [w' [texts [tail [E [Hs _]]]]].
  rewrite E. cbn [snd]. rewrite Hs. reflexivity.
Defined.

(** ** Keyword matching of the template back end *)

Lemma lower_ascii (env : Env) (s : str) :
  forallb is_ascii s = true -> lower env s = map ascii_lower s.
Proof. intro H. unfold lower. rewrite H. reflexivity. Qed.

(** X12.  The template back end matches its keywords without regard to
    letter case: two all-ASCII questions that differ only in the case of
    their letters get the same answer and the same next actions. *)
Theorem template_case_insensitive (env : Env) (q q' name : str)
    (srcs : list CopilotSource) :
  forallb is_ascii q = true ->
  forallb is_ascii q' = true ->
  map ascii_lower q = map ascii_lower q' ->
  _generate_template_response env q name srcs
  = _generate_template_response env q' name srcs.
Proof.
  intros Hq Hq' E. unfold _generate_template_response.
  rewrite (lower_ascii env q Hq), (lower_ascii env q' Hq'), E. reflexivity.
Qed.

Lemma template_case_insensitive_witness :
  _generate_template_response
    (sample_env sample_settings_template unavailable unavailable unavailable)
    (lit "WHY WAS THE DOSE REDUCED?") (lit "Jane Doe") []
  = _generate_template_response
      (sample_env sample_settings_template unavailable unavailable unavailable)
      (lit "why was the dose reduced?") (lit "Jane Doe") [].
Proof.
  exact (template_case_insensitive
           (sample_env sample_settings_template unavailable unavailable unavailable)
           (lit "WHY WAS THE DOSE REDUCED?") (lit "why was the dose reduced?")
           (lit "Jane Doe") [] eq_refl eq_refl eq_refl).
Defined.

(** ** The CORS origins *)

Lemma contains_char (c : char) (s : str) : ~ In c s -> contains [c] s = false.
Proof.
  induction s as [|d s IH]; intro H; [reflexivity|].
  cbn [contains startswith]. rewrite IH by (intro Hin; apply H; right; exact Hin).
  rewrite char_eqb_neq; [reflexivity|]. intro E. apply H. left. symmetry. exact E.
Qed.

Lemma split_cons_sep (c : char) (sep s : str) :
  split (c :: sep) s = Ok (split_go (c :: sep) 0 [] s).
Proof. reflexivity. Qed.

Lemma split_go_join (c : char) (os : list str) :
  Forall (fun o => ~ In c o) os ->
  forall o cur, ~ In c o ->
    split_go [c] 0 cur (join [c] (o :: os)) = (rev cur ++ o) :: os.
Proof.
  induction 1 as [|o' os Ho' _ IH]; intros o cur Ho.
  - simpl. apply split_go_none; [discriminate | apply contains_char; exact Ho].
  - change (join [c] (o :: o' :: os)) with (o ++ [c] ++ join [c] (o' :: os)).
    rewrite split_go_first;
      [| discriminate | simpl; rewrite app_nil_r; apply contains_char; exact Ho].
    rewrite (IH o' [] Ho'). reflexivity.
Qed.

(** X13.  The list of CORS origins is never empty and every origin in it is
    trimmed.  For a setting written as origins separated by commas, with
    optional whitespace around them, it is exactly those origins, trimmed
    and in order. *)
Theorem cors_origins_round_trip :
  (forall cors_origins,
      exists origins,
        cors_origins_list cors_origins = Ok origins
        /\ origins <> []
        /\ Forall (fun o => strip o = o) origins)
  /\ (forall (o : str) (origins : list str),
        Forall (fun o : str => ~ In 44%N o) (o :: origins) ->
        cors_origins_list (join COMMA (o :: origins)) = Ok (map strip (o :: origins))).
Proof.
  split.
  - intro s. unfold cors_origins_list, split, COMMA. cbn [rbind].
    eexists. split; [reflexivity|]. split.
    + destruct (split_go [44%N] 0 [] s) eqn:E; [|discriminate].
      exfalso. exact (split_go_nonempty _ _ _ _ E).
    + apply Forall_map, Forall_forall. intros o _. apply strip_idempotent.
  - intros o origins H. inversion H as [|? ? Ho Hos]; subst.
    unfold cors_origins_list, COMMA. rewrite split_cons_sep. cbn [rbind].
    f_equal. f_equal. exact (split_go_join 44%N origins Hos o [] Ho).
Qed.

Lemma cors_origins_round_trip_witness :
  cors_origins_list (lit "http://localhost:3000, https://app.example.org")
  = Ok [lit "http://localhost:3000"; lit "https://app.example.org"].
Proof.
  refine (proj2 cors_origins_round_trip (lit "http://localhost:3000")
            [lit " https://app.example.org"] _).
  repeat constructor; vm_compute; intuition discriminate.
Defined.

(** ** Query parameters *)

Section ConvertParams.

Variable unicode_decimal : char -> bool.

Lemma sub_no_dollar (s : str) :
  ~ In DOLLAR s -> forall g, re_sub_placeholders unicode_decimal g s = s.
Proof.
  induction s as [|c s IH]; intros H g; [reflexivity|].
  assert (Hc : char_eqb c DOLLAR = false).
  { apply char_eqb_neq. intro E. apply H. left. exact E. }
  assert (Hs : ~ In DOLLAR s) by (intro Hin; apply H; right; exact Hin).
  cbn [re_sub_placeholders]. rewrite Hc. cbn [andb].
  destruct (g && is_decimal unicode_decimal c); rewrite IH by exact Hs; reflexivity.
Qed.

Lemma sub_group_irrelevant (s : str) :
  match s with d :: _ => is_decimal unicode_decimal d = false | [] => True end ->
  re_sub_placeholders unicode_decimal true s = re_sub_placeholders unicode_decimal false s.
Proof.
  destruct s as [|d s]; [reflexivity|]. intro H.
  cbn [re_sub_placeholders]. rewrite H. reflexivity.
Qed.

Lemma sub_before_dollar (a r : str) :
  forall g,
    re_sub_placeholders unicode_decimal g (a ++ DOLLAR :: r)
    = re_sub_placeholders unicode_decimal g a
      ++ re_sub_placeholders unicode_decimal false (DOLLAR :: r).
Proof.
  induction a as [|c a IH]; intro g.
  - simpl app. destruct g; [|reflexivity].
    apply sub_group_irrelevant. reflexivity.
  - change ((c :: a) ++ DOLLAR :: r) with (c :: a ++ DOLLAR :: r).
    cbn [re_sub_placeholders].
    assert (Hl : match a ++ DOLLAR :: r with
                 | d :: _ => is_decimal unicode_decimal d
                 | [] => false
                 end
                 = match a with
                   | d :: _ => is_decimal unicode_decimal d
                   | [] => false
                   end).
    { destruct a; reflexivity. }
    rewrite Hl.
    destruct (g && is_decimal unicode_decimal c); [|destruct (char_eqb c DOLLAR && _)];
      cbn [app]; rewrite IH; reflexivity.
Qed.

Lemma sub_digits (ds b : str) :
  forallb (is_decimal unicode_decimal) ds = true ->
  re_sub_placeholders unicode_decimal true (ds ++ b)
  = ds ++ re_sub_placeholders unicode_decimal true b.
Proof.
  induction ds as [|d ds IH]; intro H; [reflexivity|].
  cbn [forallb] in H. apply andb_true_iff in H. destruct H as [Hd Hds].
  change ((d :: ds) ++ b) with (d :: ds ++ b). cbn [re_sub_placeholders].
  rewrite Hd. cbn [andb app]. rewrite (IH Hds). reflexivity.
Qed.

(** X14.  [_convert_params] leaves the query as it is when there are no
    arguments, placeholders included.  With arguments, every [$] directly
    followed by decimal digits becomes [:p] followed by those digits, the
    text around the placeholder being converted independently, and a query
    without [$] is unchanged. *)
Theorem convert_query (query : str) (args : list sqlval) :
  (args = [] -> _convert_params unicode_decimal query args = (query, []))
  /\ (args <> [] ->
        (~ In DOLLAR query -> fst (_convert_params unicode_decimal query args) = query)
        /\ forall a ds b,
             query = a ++ DOLLAR :: ds ++ b ->
             ds <> [] ->
             forallb (is_decimal unicode_decimal) ds = true ->
             match b with d :: _ => is_decimal unicode_decimal d = false | [] => True end ->
             fst (_convert_params unicode_decimal query args)
             = fst (_convert_params unicode_decimal a args)
                 ++ COLON :: LETTER_P :: ds
                 ++ fst (_convert_params unicode_decimal b args)).
Proof.
  split; [intros ->; reflexivity|]. intro Hargs.
  assert (E : forall q, fst (_convert_params unicode_decimal q args)
                        = re_sub_placeholders unicode_decimal false q).
  { intro q. unfold _convert_params. destruct args; [congruence | reflexivity]. }
  rewrite !E. split.
  - intro H. apply sub_no_dollar. exact H.
  - intros a ds b -> Hne Hds Hb. rewrite !E, sub_before_dollar. f_equal.
    destruct ds as [|d ds']; [congruence|].
    change (DOLLAR :: (d :: ds') ++ b) with (DOLLAR :: d :: (ds' ++ b)).
    cbn [re_sub_placeholders andb].
    pose proof Hds as Hd. cbn [forallb] in Hd. apply andb_true_iff in Hd.
    rewrite (proj1 Hd). change (char_eqb DOLLAR DOLLAR) with true. cbn [andb].
    rewrite (sub_digits ds' b (proj2 Hd)), (sub_group_irrelevant b Hb).
    reflexivity.
Qed.

Lemma lit_inj (a b : string) : lit a = lit b -> a = b.
Proof.
  unfold lit. intro H.
  rewrite <- (string_of_list_ascii_of_string a), <- (string_of_list_ascii_of_string b).
  f_equal. revert H.
  generalize (list_ascii_of_string a) (list_ascii_of_string b). clear.
  induction l as [|x l IH]; intros [|y l'] H; try discriminate H; [reflexivity|].
  simpl in H. injection H as Hx Hl. f_equal; [|exact (IH l' Hl)].
  rewrite <- (ascii_N_embedding x), <- (ascii_N_embedding y), Hx. reflexivity.
Qed.

Lemma str_of_nat_inj (m n : nat) : str_of_nat m = str_of_nat n -> m = n.
Proof.
  unfold str_of_nat. intro H. apply lit_inj in H.
  apply DecimalNat.Unsigned.to_uint_inj.
  assert (E : Some (Nat.to_uint m) = Some (Nat.to_uint n)).
  { rewrite <- !DecimalString.NilEmpty.usu, H. reflexivity. }
  injection E as E. exact E.
Qed.

Lemma param_key_eqb (j k : nat) : str_eqb (param_key j) (param_key k) = (j =? k).
Proof.
  destruct (Nat.eqb_spec j k) as [-> | Hne].
  - apply str_eqb_eq. reflexivity.
  - destruct (str_eqb (param_key j) (param_key k)) eqn:E; [|reflexivity].
    apply str_eqb_eq in E. unfold param_key in E. injection E as E.
    apply str_of_nat_inj in E. contradiction.
Qed.

Lemma dict_get_set {V} (k k' : str) (v : V) (d : dict V) :
  dict_get k (dict_set k' v d) = if str_eqb k k' then Some v else dict_get k d.
Proof.
  induction d as [|[k0 v0] d IH]; [reflexivity|].
  cbn [dict_set]. destruct (str_eqb k' k0) eqn:E0.
  - apply str_eqb_eq in E0. subst k0. cbn [dict_get].
    destruct (str_eqb k k'); reflexivity.
  - cbn [dict_get]. rewrite IH. destruct (str_eqb k k0) eqn:E1; [|reflexivity].
    apply str_eqb_eq in E1. subst k0.
    destruct (str_eqb k k') eqn:E2; [|reflexivity].
    apply str_eqb_eq in E2. subst k'.
    rewrite (proj2 (str_eqb_eq k k) eq_refl) in E0. discriminate E0.
Qed.

Lemma dict_set_fresh_length {V} (k : str) (v : V) (d : dict V) :
  dict_get k d = None -> length (dict_set k v d) = S (length d).
Proof.
  induction d as [|[k0 v0] d IH]; [reflexivity|].
  cbn [dict_get dict_set]. destruct (str_eqb k k0); [discriminate|].
  intro H. simpl. rewrite (IH H). reflexivity.
Qed.

Lemma params_from_get (args : list sqlval) :
  forall i d k,
    dict_get (param_key k) (params_from i args d)
    = match (if i <? k then nth_error args (k - i - 1) else None) with
      | Some v => Some v
      | None => dict_get (param_key k) d
      end.
Proof.
  induction args as [|a rest IH]; intros i d k.
  - cbn [params_from]. destruct (i <? k); [|reflexivity].
    destruct (k - i - 1); reflexivity.
  - cbn [params_from]. rewrite IH, dict_get_set.
    fold (param_key (i + 1)). rewrite param_key_eqb.
    destruct (Nat.ltb_spec (S i) k) as [H1 | H1].
    + destruct (Nat.ltb_spec i k) as [_ | H2]; [|lia].
      replace (k - i - 1) with (S (k - S i - 1)) by lia. cbn [nth_error].
      destruct (nth_error rest (k - S i - 1)); [reflexivity|].
      destruct (Nat.eqb_spec k (i + 1)); [lia | reflexivity].
    + destruct (Nat.eqb_spec k (i + 1)) as [-> | Hne].
      * destruct (Nat.ltb_spec i (i + 1)) as [_ | H2]; [|lia].
        replace (i + 1 - i - 1) with 0 by lia. reflexivity.
      * destruct (Nat.ltb_spec i k) as [H2 | _]; [lia | reflexivity].
Qed.

Lemma params_from_length (args : list sqlval) :
  forall i d,
    (forall j, i < j -> dict_get (param_key j) d = None) ->
    length (params_from i args d) = length d + length args.
Proof.
  induction args as [|a rest IH]; intros i d Hfresh.
  - simpl. lia.
  - cbn [params_from]. rewrite IH.
    + rewrite dict_set_fresh_length by (apply Hfresh; lia). simpl. lia.
    + intros j Hj. rewrite dict_get_set. fold (param_key (i + 1)).
      rewrite param_key_eqb. destruct (Nat.eqb_spec j (i + 1)); [lia|].
      apply Hfresh. lia.
Qed.

(** X15.  The parameter dictionary of [_convert_params] has one entry per
    argument: the key [p] followed by [k] holds the [k]-th argument, counting
    from 1, and no other [p] key is bound. *)
Theorem convert_params_dict (query : str) (args : list sqlval) :
  let params := snd (_convert_params unicode_decimal query args) in
  length params = length args
  /\ (forall k, k < length args ->
        dict_get (LETTER_P :: str_of_nat (k + 1)) params = nth_error args k)
  /\ (forall k, length args < k ->
        dict_get (LETTER_P :: str_of_nat k) params = None)
  /\ dict_get (LETTER_P :: str_of_nat 0) params = None.
Proof.
  cbv zeta. unfold _convert_params. destruct args as [|a rest].
  - repeat split; intros; try reflexivity. simpl in *. lia.
  - cbn [negb truthy snd]. split; [|split; [|split]].
    + rewrite params_from_length; [reflexivity | reflexivity].
    + intros k Hk. fold (param_key (k + 1)). rewrite params_from_get.
      destruct (Nat.ltb_spec 0 (k + 1)); [|lia].
      replace (k + 1 - 0 - 1) with k by lia.
      destruct (nth_error (a :: rest) k) eqn:E; [reflexivity|].
      apply nth_error_None in E. lia.
    + intros k Hk. fold (param_key k). rewrite params_from_get.
      destruct (Nat.ltb_spec 0 k); [|reflexivity].
      destruct (nth_error (a :: rest) (k - 0 - 1)) eqn:E; [|reflexivity].
      assert (k - 0 - 1 < length (a :: rest)) by (apply nth_error_Some; congruence).
      lia.
    + fold (param_key 0). rewrite params_from_get. reflexivity.
Qed.

End ConvertParams.

Lemma convert_query_witness :
  fst (_convert_params (fun _ => false)
         (lit "SELECT 1 FROM t WHERE a = $1 AND b = $12") [VInt 7; VText (lit "x")])
  = lit "SELECT 1 FROM t WHERE a = :p1 AND b = :p12".
Proof.
  destruct (convert_query (fun _ => false)
              (lit "SELECT 1 FROM t WHERE a = $1 AND b = $12")
              [VInt 7; VText (lit "x")]) as [_ H].
  destruct (H ltac:(discriminate)) as [_ Hp].
  rewrite (Hp (lit "SELECT 1 FROM t WHERE a = $1 AND b = ") (lit "12") []
              eq_refl ltac:(discriminate) eq_refl I).
  reflexivity.
Defined.

Lemma convert_params_dict_witness :
  dict_get (lit "p2")
    (snd (_convert_params (fun _ => false) (lit "SELECT $1, $2")
            [VInt 7; VText (lit "x")]))
  = Some (VText (lit "x")).
Proof.
  exact (proj1 (proj2 (convert_params_dict (fun _ => false) (lit "SELECT $1, $2")
                         [VInt 7; VText (lit "x")])) 1 ltac:(simpl; lia)).
Defined.

(** ** The connection pool *)

Section Pool.

Variable _create_connection : nat -> result conn.

Lemma set_pool_same (st : pool_state) : set_pool (_pool st) st = st.
Proof. destruct st. reflexivity. Qed.

Lemma acquire_first_pool (st : pool_state) :
  length (_pool (snd (acquire_first _create_connection st))) <= length (_pool st)
  /\ _pool_size (snd (acquire_first _create_connection st)) = _pool_size st.
Proof.
  unfold acquire_first. destruct (_pool st) as [|c p] eqn:Ep; cbn [truthy].
  - destruct (length [] <? _pool_size st).
    + unfold st_bind, create, st_ret.
      destruct (_create_connection (attempts st)); cbn; rewrite Ep; auto.
    + cbn. rewrite Ep. auto.
  - unfold st_bind, pop, st_ret. cbn [snd set_pool _pool _pool_size].
    rewrite Ep. split; [|reflexivity].
    rewrite <- Ep. destruct (exists_last (l := _pool st)) as [r [z E]];
      [rewrite Ep; discriminate|].
    rewrite E, removelast_last, length_app. simpl. lia.
Qed.

Lemma acquire_retry_pool (st : pool_state) :
  length (_pool (snd (acquire_retry _create_connection st))) <= length (_pool st)
  /\ _pool_size (snd (acquire_retry _create_connection st)) = _pool_size st.
Proof.
  unfold acquire_retry. destruct (_pool st) as [|c p] eqn:Ep; cbn [truthy].
  - unfold create. cbn. rewrite Ep. auto.
  - unfold pop. cbn [snd set_pool _pool _pool_size]. split; [|reflexivity].
    rewrite <- Ep. destruct (exists_last (l := _pool st)) as [r [z E]];
      [rewrite Ep; discriminate|].
    rewrite E, removelast_last, length_app. simpl. lia.
Qed.

Lemma release_pool (c : conn) (st : pool_state) :
  length (_pool st) <= _pool_size st ->
  length (_pool (snd (release c st))) <= _pool_size (snd (release c st))
  /\ _pool_size (snd (release c st)) = _pool_size st.
Proof.
  intro H. unfold release.
  destruct (Nat.ltb_spec (length (_pool st)) (_pool_size st)); cbn.
  - rewrite length_app. simpl. split; [lia | reflexivity].
  - split; [exact H | reflexivity].
Qed.

(** X16.  The pool never outgrows its bound: if it holds at most
    [_pool_size] connections, it still does after either critical section of
    an acquisition, with or without a failed connection attempt, and after a
    release; none of them changes the bound. *)
Theorem pool_bounded (st : pool_state) (c : conn) :
  length (_pool st) <= _pool_size st ->
  let bounded st' :=
    length (_pool st') <= _pool_size st' /\ _pool_size st' = _pool_size st in
  bounded (snd (acquire_first _create_connection st))
  /\ bounded (snd (acquire_retry _create_connection st))
  /\ bounded (snd (acquire _create_connection st))
  /\ bounded (snd (release c st)).
Proof.
  intro H. cbv beta zeta.
  destruct (acquire_first_pool st) as [Hf1 Hf2].
  destruct (acquire_retry_pool st) as [Hr1 Hr2].
  split; [split; [lia | exact Hf2]|]. split; [split; [lia | exact Hr2]|].
  split; [|exact (release_pool c st H)].
  unfold acquire, st_bind.
  destruct (acquire_first _create_connection st) as [[[c'|]|e] st1] eqn:E1;
    unfold st_ret; cbn [snd] in *; try (split; [lia | exact Hf2]).
  destruct (acquire_retry_pool st1) as [Hq1 Hq2].
  split; [lia | congruence].
Qed.

(** X17.  The pool is a stack.  A connection released while the pool is
    below its bound is the one the next acquisition returns, and the pool is
    then as it was before the release; no connection is opened.  A
    connection released while the pool is full is closed, and the pool is
    unchanged. *)
Theorem pool_reuse (st : pool_state) (c : conn) :
  (length (_pool st) < _pool_size st ->
     acquire _create_connection (snd (release c st)) = (Ok c, st))
  /\ (_pool_size st <= length (_pool st) ->
        _pool (snd (release c st)) = _pool st
        /\ closed (snd (release c st)) = closed st ++ [c]).
Proof.
  unfold release. split; intro H.
  - destruct (Nat.ltb_spec (length (_pool st)) (_pool_size st)); [|lia].
    cbn [snd]. unfold acquire, acquire_first. unfold st_bind. cbv beta.
    cbn [set_pool _pool].
    assert (Ht : truthy (_pool st ++ [c]) = true)
      by (destruct (_pool st); reflexivity).
    rewrite Ht. unfold pop, st_ret.
    cbn [set_pool _pool _pool_size closed attempts].
    rewrite last_last, removelast_last. destruct st. reflexivity.
  - destruct (Nat.ltb_spec (length (_pool st)) (_pool_size st)); [lia|].
    split; reflexivity.
Qed.

Variable unicode_decimal : char -> bool.
Variable run : conn -> str -> dict sqlval -> result (list str * list (list sqlval)).

Lemma get_connection_pooled {A} (body : conn -> ST pool_state A) (st : pool_state)
    (p : list conn) (c : conn) :
  _pool st = p ++ [c] ->
  get_connection _create_connection body st
  = st_finally (body c) (release c) (set_pool p st).
Proof.
  intro Ep.
  assert (Ht : truthy (_pool st) = true).
  { rewrite Ep. destruct p; reflexivity. }
  unfold get_connection, acquire, acquire_first. unfold st_bind. cbv beta.
  rewrite Ht. unfold pop, st_ret.
  rewrite Ep, last_last, removelast_last. reflexivity.
Qed.

(** X18.  A query made while the pool holds a connection uses the connection
    released last and gives it back: the module state after [execute_query]
    is the state before it, whether the driver returned rows or raised, and
    an exception of the driver is passed on unchanged.  No connection is
    opened or closed. *)
Theorem execute_query_returns_connection (st : pool_state) (p : list conn)
    (c : conn) (query : str) (args : list sqlval) :
  _pool st = p ++ [c] ->
  length (_pool st) <= _pool_size st ->
  snd (execute_query unicode_decimal _create_connection run query args st) = st
  /\ fst (execute_query unicode_decimal _create_connection run query args st)
     = match run c (fst (_convert_params unicode_decimal query args))
                   (snd (_convert_params unicode_decimal query args)) with
       | Ok (columns, rows) =>
           Ok (if truthy columns
               then map (fun row => zip_dict columns row []) rows
               else [])
       | Raise e => Raise e
       end.
Proof.
  intros Ep Hb. unfold execute_query. rewrite (get_connection_pooled _ st p c Ep).
  destruct (_convert_params unicode_decimal query args) as [cq params].
  cbn [fst snd]. unfold st_finally, st_bind, st_lift.
  assert (Hrel : release c (set_pool p st) = (Ok tt, st)).
  { unfold release. cbn [set_pool _pool _pool_size].
    rewrite Ep, length_app in Hb. simpl in Hb.
    destruct (Nat.ltb_spec (length p) (_pool_size st)); [|lia].
    unfold set_pool. cbn. rewrite <- Ep. destruct st. reflexivity. }
  destruct (run c cq params) as [[columns rows]|e].
  - destruct (truthy columns); unfold st_ret; rewrite Hrel; split; reflexivity.
  - rewrite Hrel. split; reflexivity.
Qed.

End Pool.

Lemma pool_bounded_witness :
  length (_pool (snd (acquire (fun _ => unavailable)
                        {| _pool := [1; 2]; _pool_size := 2;
                           closed := []; attempts := 2 |})))
  <= 2
  /\ length (_pool (snd (release 7
                           {| _pool := [1; 2]; _pool_size := 2;
                              closed := []; attempts := 2 |})))
     <= 2.
Proof.
  pose proof (pool_bounded (fun _ => unavailable)
                {| _pool := [1; 2]; _pool_size := 2; closed := []; attempts := 2 |}
                7 (le_n 2)) as H.
  cbv beta zeta in H.
  exact (conj (proj1 (proj1 (proj2 (proj2 H)))) (proj1 (proj2 (proj2 (proj2 H))))).
Defined.

Lemma pool_reuse_witness :
  acquire (fun _ => unavailable)
    (snd (release 7 {| _pool := [1]; _pool_size := 2; closed := []; attempts := 1 |}))
  = (Ok 7, {| _pool := [1]; _pool_size := 2; closed := []; attempts := 1 |}).
Proof.
  exact (proj1 (pool_reuse (fun _ => unavailable)
                  {| _pool := [1]; _pool_size := 2; closed := []; attempts := 1 |} 7)
           (le_n 2)).
Defined.

Lemma execute_query_returns_connection_witness :
  execute_query (fun _ => false) (fun _ => unavailable) (fun _ _ _ => unavailable)
    (lit "SELECT 1") []
    {| _pool := [4; 5]; _pool_size := 5; closed := []; attempts := 2 |}
  = (Raise (ExternalError (lit "unavailable")),
     {| _pool := [4; 5]; _pool_size := 5; closed := []; attempts := 2 |}).
Proof.
  destruct (execute_query_returns_connection (fun _ => unavailable) (fun _ => false)
              (fun _ _ _ => unavailable)
              {| _pool := [4; 5]; _pool_size := 5; closed := []; attempts := 2 |}
              [4] 5 (lit "SELECT 1") [] eq_refl ltac:(simpl; lia)) as [Hs Hf].
  rewrite (surjective_pairing (execute_query _ _ _ _ _ _)), Hs, Hf. reflexivity.
Defined.

(** ** Updating an action *)

Lemma collect_updates_spec (update : ActionUpdate) :
  collect_updates update
  = (set_clauses (numbered 1 (set_columns update)),
     map (fun cv => VText (snd cv)) (set_columns update),
     S (length (set_columns update))).
Proof.
  destruct update as [[a|] [s|] [p|] [d|] [u|]];
    cbv beta iota zeta delta
      [collect_updates add_update set_columns set_clauses numbered flat_map
       combine seq length app fst snd map
       au_action_text au_status au_priority au_doctor_notes au_updated_by];
    try change (str_eqb (lit "action_text") (lit "status")) with false;
    try change (str_eqb (lit "status") (lit "status")) with true;
    try change (str_eqb (lit "priority") (lit "status")) with false;
    try change (str_eqb (lit "doctor_notes") (lit "status")) with false;
    try change (str_eqb (lit "updated_by") (lit "status")) with false;
    cbv beta iota delta [andb];
    try destruct (str_eqb s (lit "completed"));
    reflexivity.
Qed.

Section UpdateAction.

Variable State : Type.
Variable execute_one : str -> list sqlval -> ST State (option (dict sqlval)).
Variable Response : Type.
Variable ActionResponse : dict sqlval -> result Response.

(** X19.  [update_action] numbers its placeholders as it binds its
    parameters.  With the [n] fields that are set taken in the order
    action_text, status, priority, doctor_notes, updated_by, the [i]-th of
    them is assigned from [$i] and its value is the [i]-th parameter (a
    status of [completed] adds [completed_at = NOW()], which takes no
    parameter); [updated_at = NOW()] closes the SET clause; and the WHERE
    clause compares the action with [$(n+1)] and the patient with [$(n+2)],
    the last two parameters.  With no field set the route raises the 400
    exception and runs no query. *)
Theorem update_action_placeholders (patient_id : str) (action_id : Z)
    (update : ActionUpdate) (st : State) :
  let columns := set_columns update in
  let n := length columns in
  (columns = [] ->
     update_action execute_one ActionResponse patient_id action_id update st
     = (Raise (HTTPException 400 (lit "No fields to update")), st))
  /\ (columns <> [] ->
        update_action execute_one ActionResponse patient_id action_id update st
        = (result <~
             execute_one
               (update_query
                  (set_clauses (numbered 1 columns) ++ [lit "updated_at = NOW()"])
                  (n + 1))
               (map (fun cv => VText (snd cv)) columns
                  ++ [VInt action_id; VText patient_id]) ;;
           match result with
           | Some (_ :: _ as row) => st_lift (ActionResponse row)
           | _ =>
               st_raise (HTTPException 404
                           (lit "Action " ++ str_of_int action_id ++ lit " not found"))
           end) st).
Proof.
  cbv zeta. unfold update_action. rewrite collect_updates_spec.
  destruct (set_columns update) as [|[c v] columns] eqn:E.
  - split; [reflexivity | congruence].
  - split; [discriminate|]. intros _.
    assert (Ht : truthy (set_clauses (numbered 1 ((c, v) :: columns))) = true)
      by reflexivity.
    rewrite Ht. cbn [negb]. rewrite <- app_assoc.
    replace (S (length ((c, v) :: columns))) with (length ((c, v) :: columns) + 1)
      by lia.
    reflexivity.
Qed.

End UpdateAction.

Lemma update_action_placeholders_witness :
  fst (update_action
         (fun query params log => (Ok None, log ++ [(query, params)]))
         (fun row => Ok row)
         (lit "p1") 12
         {| au_action_text := None; au_status := Some (lit "completed");
            au_priority := None; au_doctor_notes := Some (lit "done at visit");
            au_updated_by := None |}
         [])
  = Raise (HTTPException 404 (lit "Action 12 not found")).
Proof.
  rewrite (proj2 (update_action_placeholders _
                    (fun query params log => (Ok None, log ++ [(query, params)]))
                    _ (fun row => Ok row) (lit "p1") 12
                    {| au_action_text := None; au_status := Some (lit "completed");
                       au_priority := None; au_doctor_notes := Some (lit "done at visit");
                       au_updated_by := None |}
                    []) ltac:(discriminate)).
  reflexivity.
Defined.

(** ** The health check *)

Section HealthCheck.

Variable State : Type.
Variable execute_scalar : str -> list sqlval -> ST State sqlval.
Variable settings : Settings.
Variable azure_ai_endpoint : str.

(** X20.  The health check never raises.  It reports [healthy] exactly when
    the probe query returns a value equal to 1; in every other case,
    including an exception of the database, the status is [degraded] and
    the database field says [unhealthy] with the reason.  The state is the
    one the probe left. *)
Theorem health_check_status (st : State) :
  exists response,
    health_check execute_scalar settings azure_ai_endpoint st
    = (Ok response, snd (execute_scalar (lit "SELECT 1") [] st))
    /\ h_version response = lit "1.0.0"
    /\ match fst (execute_scalar (lit "SELECT 1") [] st) with
       | Ok v =>
           if equals_one v
           then h_status response = lit "healthy"
                /\ h_database response = lit "healthy"
           else h_status response = lit "degraded"
                /\ h_database response = lit "unhealthy: unexpected result"
       | Raise e =>
           h_status response = lit "degraded"
           /\ h_database response = lit "unhealthy: " ++ str_of_exn e
       end.
Proof.
  unfold health_check, st_bind, st_try, st_ret.
  destruct (execute_scalar (lit "SELECT 1") [] st) as [[v|e] st'].
  - cbn [fst snd]. destruct (equals_one v); eexists;
      (split; [reflexivity|]); (split; [reflexivity|]); split; reflexivity.
  - cbn [fst snd]. eexists. split; [reflexivity|]. split; [reflexivity|].
    split; reflexivity.
Qed.

End HealthCheck.

(** ** Reading a note *)

Section GetNote.

Variable State : Type.
Variable fetch_note : str -> Z -> ST State (option note_row).
Variable loads : str -> result json.

Lemma rbind_ok {A B} (r : result A) (k : A -> result B) (b : B) :
  rbind r k = Ok b -> exists a, r = Ok a /\ k a = Ok b.
Proof. destruct r as [a|e]; [eauto | discriminate]. Qed.

(** X21.  [get_note] discloses the raw text only when the deployment allows
    it and the caller asks for it, and the PHI entities only when the
    deployment allows it: with [demo_allow_raw] off, every note it returns
    has neither, whatever the row holds and whatever is requested. *)
Theorem get_note_disclosure (demo_allow_raw include_raw : bool)
    (patient_id : str) (note_id : Z) (st : State) (note : NoteDetail) :
  fst (get_note fetch_note loads demo_allow_raw patient_id note_id include_raw st)
  = Ok note ->
  (nd_raw_text note <> None -> demo_allow_raw = true /\ include_raw = true)
  /\ (nd_phi_entities note <> None -> demo_allow_raw = true).
Proof.
  unfold get_note, st_bind, st_lift, st_raise.
  destruct (fetch_note patient_id note_id st) as [[[row|]|e] st'];
    cbn [fst]; try discriminate.
  destruct (match nr_phi_entities row with
            | VText s => let? j := loads s in Ok (VJson j)
            | v => Ok v
            end) as [phi|e]; cbn [fst]; [|discriminate].
  intro H.
  repeat (apply rbind_ok in H; destruct H as [? [? H]]).
  injection H as <-. cbn [nd_raw_text nd_phi_entities].
  split; intro Hne.
  - destruct (demo_allow_raw && include_raw) eqn:E.
    + apply andb_true_iff in E. exact E.
    + cbn in *. congruence.
  - destruct demo_allow_raw; [reflexivity|]. cbn in *. congruence.
Qed.

End GetNote.

Lemma get_note_disclosure_witness :
  exists note,
    fst (get_note
           (fun _ _ st =>
              (Ok (Some {| nr_note_id := VInt 3; nr_patient_id := VText (lit "p1");
                           nr_encounter_id := VNull;
                           nr_redacted_text := VText (lit "Seen by [PERSON].");
                           nr_phi_entities := VJson (JArray [JObject []]);
                           nr_created_at := VTime 0; nr_note_type := VNull;
                           nr_raw_text := VText (lit "Seen by Dr. Smith.") |}), st))
           (fun _ => unavailable) false (lit "p1") 3 true tt)
    = Ok note
    /\ nd_raw_text note = None /\ nd_phi_entities note = None.
Proof.
  eexists. split; [reflexivity|].
  match goal with
  | |- nd_raw_text ?n = None /\ _ =>
      pose proof (get_note_disclosure unit
                    (fun _ _ st =>
                       (Ok (Some {| nr_note_id := VInt 3; nr_patient_id := VText (lit "p1");
                                    nr_encounter_id := VNull;
                                    nr_redacted_text := VText (lit "Seen by [PERSON].");
                                    nr_phi_entities := VJson (JArray [JObject []]);
                                    nr_created_at := VTime 0; nr_note_type := VNull;
                                    nr_raw_text := VText (lit "Seen by Dr. Smith.") |}), st))
                    (fun _ => unavailable) false true (lit "p1") 3 tt n eq_refl)
        as [Hr Hp];
      destruct (nd_raw_text n) eqn:Er; destruct (nd_phi_entities n) eqn:Ep
  end.
  - destruct (Hr ltac:(discriminate)) as [E _]. discriminate E.
  - destruct (Hr ltac:(discriminate)) as [E _]. discriminate E.
  - discriminate (Hp ltac:(discriminate)).
  - split; reflexivity.
Defined.

(** ** Reprocessing notes *)

Section ReprocessNotes.

Variable State : Type.
Variable find_patient : str -> ST State (option (dict sqlval)).
Variable fetch_raw_notes : str -> ST State (list raw_note).
Variable delete_redacted : sqlval -> ST State str.
Variable insert_redacted : raw_note -> str -> ST State (option (dict sqlval)).

Lemma reprocess_one_run (pid : str) (note : raw_note)
    (acc : nat * list (sqlval * str)) (st : State) :
  exists acc' st' new,
    reprocess_one delete_redacted insert_redacted pid note acc st = (Ok acc', st')
    /\ snd acc' = snd acc ++ new
    /\ fst acc' + length new <= fst acc + 1
    /\ Forall (fun e => fst e = rn_note_id note) new.
Proof.
  destruct acc as [processed errors].
  unfold reprocess_one, st_try, st_bind, st_ret.
  destruct (delete_redacted (rn_note_id note) st) as [[d|e] st1].
  - destruct (insert_redacted note pid st1) as [[[[|kv row]|]|e] st2].
    + exists (processed, errors), st2, []. cbn. rewrite app_nil_r.
      repeat split; [lia | constructor].
    + exists (processed + 1, errors), st2, []. cbn. rewrite app_nil_r.
      repeat split; [lia | constructor].
    + exists (processed, errors), st2, []. cbn. rewrite app_nil_r.
      repeat split; [lia | constructor].
    + eexists. exists st2, [(rn_note_id note, str_of_exn e)].
      split; [reflexivity|]. cbn. repeat split; [lia | repeat constructor].
  - eexists. exists st1, [(rn_note_id note, str_of_exn e)].
    split; [reflexivity|]. cbn. repeat split; [lia | repeat constructor].
Qed.

Lemma reprocess_loop_run (pid : str) (notes : list raw_note) :
  forall acc st,
    exists acc' st' new,
      reprocess_loop delete_redacted insert_redacted pid notes acc st = (Ok acc', st')
      /\ snd acc' = snd acc ++ new
      /\ fst acc' + length new <= fst acc + length notes
      /\ Forall (fun e => In (fst e) (map rn_note_id notes)) new.
Proof.
  induction notes as [|note rest IH]; intros acc st.
  - exists acc, st, []. cbn. rewrite app_nil_r. repeat split; [lia | constructor].
  - cbn [reprocess_loop]. unfold st_bind.
    destruct (reprocess_one_run pid note acc st) as [acc1 [st1 [new1 [E1 [Hs1 [Hc1 Hn1]]]]]].
    rewrite E1.
    destruct (IH acc1 st1) as [acc2 [st2 [new2 [E2 [Hs2 [Hc2 Hn2]]]]]].
    rewrite E2. exists acc2, st2, (new1 ++ new2).
    split; [reflexivity|]. split; [rewrite Hs2, Hs1, app_assoc; reflexivity|].
    split; [rewrite length_app; simpl; lia|].
    apply Forall_app. split.
    + eapply Forall_impl; [|exact Hn1]. intros e He. left. symmetry. exact He.
    + eapply Forall_impl; [|exact Hn2]. intros e He. right. exact He.
Qed.

(** X22.  Once the patient is found and the raw notes are read,
    [reprocess_notes] does not raise: a note whose deletion or insertion
    fails is listed among the errors and the loop goes on.  With no raw note
    the answer is the fixed message with zero processed.  Otherwise the
    total is the number of raw notes, the processed notes and the errors
    together do not exceed it, and every error carries the identifier of one
    of the notes. *)
Theorem reprocess_notes_accounting (pid : str) (st st1 st2 : State)
    (key : str * sqlval) (row : dict sqlval) (notes : list raw_note) :
  find_patient pid st = (Ok (Some (key :: row)), st1) ->
  fetch_raw_notes pid st1 = (Ok notes, st2) ->
  exists result st',
    reprocess_notes find_patient fetch_raw_notes delete_redacted insert_redacted pid st
    = (Ok result, st')
    /\ (notes = [] ->
          result = {| rp_message := lit "No notes found to reprocess";
                      rp_processed := 0; rp_total := None; rp_errors := None |}
          /\ st' = st2)
    /\ (notes <> [] ->
          rp_total result = Some (length notes)
          /\ rp_message result
             = lit "Reprocessed " ++ str_of_nat (rp_processed result) ++ lit " of "
                 ++ str_of_nat (length notes) ++ lit " notes"
          /\ exists errors,
               rp_errors result = (if truthy errors then Some errors else None)
               /\ rp_processed result + length errors <= length notes
               /\ Forall (fun e => In (fst e) (map rn_note_id notes)) errors).
Proof.
  intros Hp Hn. unfold reprocess_notes, st_bind. rewrite Hp. cbn [negb]. rewrite Hn.
  destruct notes as [|note rest].
  - cbn [truthy negb]. eexists. eexists. split; [reflexivity|].
    split; [intros _; split; reflexivity | congruence].
  - cbn [truthy negb].
    destruct (reprocess_loop_run pid (note :: rest) (0, []) st2)
      as [[processed errors] [st' [new [E [Hs [Hc Hf]]]]]].
    rewrite E. eexists. eexists. split; [reflexivity|].
    split; [discriminate|]. intros _. cbn [rp_total rp_message rp_processed rp_errors].
    split; [reflexivity|]. split; [reflexivity|].
    cbn [snd fst app] in Hs, Hc. subst new. exists errors.
    split; [reflexivity|]. split; [exact Hc | exact Hf].
Qed.

End ReprocessNotes.

Lemma reprocess_notes_accounting_witness :
  exists result,
    fst (reprocess_notes
           (fun pid st => (Ok (Some [(lit "patient_id", VText pid)]), st))
           (fun _ st =>
              (Ok [ {| rn_note_id := VInt 1; rn_encounter_id := VNull;
                       rn_raw_text := VText (lit "first") |};
                    {| rn_note_id := VInt 2; rn_encounter_id := VNull;
                       rn_raw_text := VText (lit "second") |} ], st))
           (fun _ st => (Ok (lit "OK"), st))
           (fun note _ st =>
              (match rn_note_id note with
               | VInt 1 => Ok (Some [(lit "note_id", VInt 1)])
               | _ => unavailable
               end, st))
           (lit "p1") tt)
    = Ok result
    /\ rp_total result = Some 2.
Proof.
  destruct (reprocess_notes_accounting unit
              (fun pid st => (Ok (Some [(lit "patient_id", VText pid)]), st))
              (fun _ st =>
                 (Ok [ {| rn_note_id := VInt 1; rn_encounter_id := VNull;
                          rn_raw_text := VText (lit "first") |};
                       {| rn_note_id := VInt 2; rn_encounter_id := VNull;
                          rn_raw_text := VText (lit "second") |} ], st))
              (fun _ st => (Ok (lit "OK"), st))
              (fun note _ st =>
                 (match rn_note_id note with
                  | VInt 1 => Ok (Some [(lit "note_id", VInt 1)])
                  | _ => unavailable
                  end, st))
              (lit "p1") tt tt tt _ _ _ eq_refl eq_refl)
    as [result [st' [E [_ Hsome]]]].
  exists result. rewrite E. split; [reflexivity|].
  exact (proj1 (Hsome ltac:(discriminate))).
Defined.

(** ** Notes only *)

Section RetrieveNotesOnly.

Variable State : Type.
Variable query_similar_notes : str -> str -> Z -> ST State (list similar_note).
Variable strftime_date : Z -> str.

Lemma note_source_of_complete (r : similar_note) :
  (complete_note r = true ->
     exists text x,
       sn_redacted_text r = Some text /\ sn_similarity r = Some x
       /\ note_source_of strftime_date r
          = Ok {| ns_source_type := lit "note";
                  ns_source_id := sn_note_id r;
                  ns_label := lit "Note " ++ match sn_created_at r with
                                             | Some t => strftime_date t
                                             | None => lit "Unknown"
                                             end;
                  ns_snippet := firstn 300 text;
                  ns_score := x |})
  /\ (complete_note r = false -> note_source_of strftime_date r = Raise TypeError).
Proof.
  unfold complete_note, note_source_of.
  destruct (sn_redacted_text r) as [text|], (sn_similarity r) as [x|];
    split; try discriminate; intros _; try reflexivity.
  exists text, x. repeat split.
Qed.

(** X23.  [retrieve_notes_only] never raises, and it is all or nothing.
    When the query fails, or some row has a NULL text or a NULL similarity,
    it returns the empty list.  Otherwise it returns one source per row, in
    order, of type [note], whose snippet is the first 300 characters of the
    text and whose score is the similarity. *)
Theorem retrieve_notes_only_results (pid query : str) (n : Z) (st : State) :
  exists results,
    retrieve_notes_only query_similar_notes strftime_date pid query n st
    = (Ok results, snd (query_similar_notes query pid n st))
    /\ match fst (query_similar_notes query pid n st) with
       | Raise _ => results = []
       | Ok rows =>
           (forallb complete_note rows = false -> results = [])
           /\ (forallb complete_note rows = true ->
                 length results = length rows
                 /\ forall i r,
                      nth_error rows i = Some r ->
                      exists source text,
                        nth_error results i = Some source
                        /\ sn_redacted_text r = Some text
                        /\ ns_snippet source = firstn 300 text
                        /\ length (ns_snippet source) <= 300
                        /\ ns_source_type source = lit "note"
                        /\ ns_source_id source = sn_note_id r
                        /\ sn_similarity r = Some (ns_score source))
       end.
Proof.
  unfold retrieve_notes_only, st_try, st_bind, st_lift, st_ret.
  destruct (query_similar_notes query pid n st) as [[rows|e] st1]; cbn [fst snd];
    [|exists []; split; reflexivity].
  destruct (map_result (note_source_of strftime_date) rows) as [results|e] eqn:Em.
  - exists results. split; [reflexivity|].
    destruct (map_result_nth _ rows results Em) as [Hl Hn]. split.
    + intro Hf. exfalso.
      assert (Hex : exists r, In r rows /\ complete_note r = false).
      { clear - Hf. induction rows as [|r rows IH]; [discriminate Hf|].
        cbn [forallb] in Hf. destruct (complete_note r) eqn:Ec.
        - destruct (IH Hf) as [r' [Hin Hr']]. exists r'. split; [right|]; assumption.
        - exists r. split; [left; reflexivity | exact Ec]. }
      destruct Hex as [r [Hin Hr]].
      destruct (map_result_raises (note_source_of strftime_date) rows r Hin) as [e E].
      * exists TypeError. exact (proj2 (note_source_of_complete r) Hr).
      * congruence.
    + intros _. split; [exact Hl|]. intros i r Hr.
      destruct (Hn i r Hr) as [source [Hs Es]].
      destruct (complete_note r) eqn:Ec.
      * destruct (proj1 (note_source_of_complete r) Ec) as [text [x [Ht [Hx E]]]].
        rewrite E in Es. injection Es as <-. eexists. exists text.
        split; [exact Hs|]. cbn [ns_snippet ns_source_type ns_source_id ns_score].
        split; [exact Ht|]. split; [reflexivity|].
        split; [exact (firstn_le_length 300 text)|].
        split; [reflexivity|]. split; [reflexivity | exact Hx].
      * rewrite (proj2 (note_source_of_complete r) Ec) in Es. discriminate Es.
  - exists []. split; [reflexivity|]. split; [reflexivity|].
    intro Hall. exfalso. clear - Em Hall.
    revert e Em. induction rows as [|r rows IH]; intros e Em; [discriminate Em|].
    cbn [forallb] in Hall. apply andb_true_iff in Hall. destruct Hall as [Hr Hrows].
    destruct (proj1 (note_source_of_complete r) Hr) as [text [x [_ [_ E]]]].
    cbn [map_result] in Em. rewrite E in Em. cbn [rbind] in Em.
    destruct (map_result (note_source_of strftime_date) rows) as [rs|e'] eqn:Er.
    + discriminate Em.
    + exact (IH Hrows e' eq_refl).
Qed.

End RetrieveNotesOnly.

Lemma retrieve_notes_only_results_witness :
  exists source,
    fst (retrieve_notes_only
           (fun _ _ _ st =>
              (Ok [ {| sn_note_id := Some 3%Z; sn_redacted_text := Some (lit "Stable.");
                       sn_created_at := None; sn_similarity := Some 0.5%float |} ], st))
           (fun _ => lit "2024-01-01") (lit "p1") (lit "status") 5 tt)
    = Ok [source]
    /\ ns_snippet source = lit "Stable.".
Proof.
  destruct (retrieve_notes_only_results unit
              (fun _ _ _ st =>
                 (Ok [ {| sn_note_id := Some 3%Z; sn_redacted_text := Some (lit "Stable.");
                          sn_created_at := None; sn_similarity := Some 0.5%float |} ], st))
              (fun _ => lit "2024-01-01") (lit "p1") (lit "status") 5 tt)
    as [results [E H]].
  cbn [fst] in H. destruct H as [_ H]. destruct (H eq_refl) as [Hl Hn].
  destruct (Hn 0 _ eq_refl) as [source [text [Hs [Ht [Hsn _]]]]].
  destruct results as [|s0 [|s1 rest]]; try discriminate Hl.
  injection Hs as ->. injection Ht as <-.
  exists source. rewrite E. split; [reflexivity | exact Hsn].
Defined.
